(** * Verification of the KGTK value classifier (kgtk/join/kgtkvalue.py)

    A shallow embedding of [KgtkValueOptions] and [KgtkValue]: the regular
    expressions the class compiles, the list split with its cache, the
    per-item predicates, [is_valid] and [describe], followed by the
    properties proved about them.  The command line ([add_arguments],
    [from_args], [main]) and the two superseded predicates [is_number_old]
    and [is_valid_number_old], which nothing else calls, are left out.

    Python strings are modelled as [string]; a character is an [ascii], read
    as the code point of the same number (0..255).  An exception is the
    answer [None] of a method. *)

From Stdlib Require Import Bool Arith ZArith Lia List Ascii String.
Import ListNotations.

Local Open Scope string_scope.
Local Open Scope nat_scope.
Local Open Scope bool_scope.

(** ** Characters and strings *)

Definition code (c : ascii) : nat := nat_of_ascii c.

(** [lo <= c <= hi] on code points: a range [lo-hi] of a character class. *)
Definition in_range (lo hi c : ascii) : bool :=
  (code lo <=? code c) && (code c <=? code hi).

(** The double quote, the backslash and the newline, by code point. *)
Definition dquote : ascii := ascii_of_nat 34.
Definition backslash : ascii := ascii_of_nat 92.
Definition newline : ascii := ascii_of_nat 10.

(** [str.isalnum() or c == '_'] on the code points below 256: what the
    [re] module takes for a word character in a [str] pattern. *)
Definition is_word (c : ascii) : bool :=
  let n := code c in
  ((48 <=? n) && (n <=? 57)) || ((65 <=? n) && (n <=? 90)) || (n =? 95) ||
  ((97 <=? n) && (n <=? 122)) || (n =? 170) || (n =? 178) || (n =? 179) ||
  (n =? 181) || (n =? 185) || (n =? 186) || ((188 <=? n) && (n <=? 190)) ||
  ((192 <=? n) && (n <=? 214)) || ((216 <=? n) && (n <=? 246)) ||
  ((248 <=? n) && (n <=? 255)).

(** Unicode category Nd on the code points below 256: the ASCII digits. *)
Definition is_decimal_digit (c : ascii) : bool :=
  in_range "0" "9" c.

(** [str.lower()] on one character (code points below 256). *)
Definition lower_char (c : ascii) : ascii :=
  let n := code c in
  if ((65 <=? n) && (n <=? 90)) || ((192 <=? n) && (n <=? 214)) ||
     ((216 <=? n) && (n <=? 222))
  then ascii_of_nat (n + 32) else c.

Fixpoint lower (s : string) : string :=
  match s with
  | EmptyString => EmptyString
  | String c s' => String (lower_char c) (lower s')
  end.

(** [c in s] for a one-character [c]. *)
Fixpoint contains (c : ascii) (s : string) : bool :=
  match s with
  | EmptyString => false
  | String a s' => Ascii.eqb a c || contains c s'
  end.

(** [s.split(c, 1)] when [c] occurs in [s]: the text before the first [c]
    and the text after it. *)
Fixpoint split_once (c : ascii) (s : string) : string * string :=
  match s with
  | EmptyString => (EmptyString, EmptyString)
  | String a s' =>
      if Ascii.eqb a c then (EmptyString, s')
      else let (l, r) := split_once c s' in (String a l, r)
  end.

(** [v.startswith(p)] for a one-character prefix. *)
Definition starts_with (c : ascii) (v : string) : bool :=
  match v with
  | String a _ => Ascii.eqb a c
  | EmptyString => false
  end.

(** [v.startswith((p1, ..., pn))]: a tuple of one-character prefixes. *)
Definition starts_with_any (ps : list ascii) (v : string) : bool :=
  existsb (fun p => starts_with p v) ps.

(** The first [n] characters of [s]. *)
Fixpoint take (n : nat) (s : string) : string :=
  match n, s with
  | S n', String a s' => String a (take n' s')
  | _, _ => EmptyString
  end.

(** The last character of [s], or [d] when [s] is empty. *)
Fixpoint last_char (s : string) (d : option ascii) : option ascii :=
  match s with
  | EmptyString => d
  | String a s' => last_char s' (Some a)
  end.

(** ** Regular expressions of Python's [re] module

    The constructs the patterns of [KgtkValue] use.  A non-capturing group
    [(?:r)] only delimits, so it is the nesting of the term. *)
Module Re.

(** An item of a bracketed class, or a class escape. *)
Inductive citem : Type :=
| CChar (c : ascii)              (* a literal character *)
| CRange (lo hi : ascii)         (* lo-hi *)
| CDigit                         (* \d *)
| CNonWord.                      (* \W *)

Inductive regex : Type :=
| Eps                              (* the empty pattern *)
| Chr (c : ascii)                  (* a literal character *)
| Dot                              (* .  : any character but a newline *)
| Cls (items : list citem)         (* [items] *)
| NCls (items : list citem)        (* [^items] *)
| Seq (r1 r2 : regex)              (* r1r2 *)
| Alt (r1 r2 : regex)              (* r1|r2 *)
| Star (r : regex)                 (* r*  (greedy); in the patterns here a
                                      round of r always reads a character *)
| Plus (r : regex)                 (* r+  (greedy) *)
| Opt (r : regex)                  (* r?  (greedy) *)
| Rep (lo hi : nat) (r : regex)    (* r{lo,hi} (greedy) *)
| Grp (name : string) (r : regex)  (* (?P<name>r); an unnamed group (r)
                                      has the empty name *)
| IfGrp (name : string) (r : regex)(* (?(name)r) *)
| Bol                              (* ^  : the start of the text *)
| Eol                              (* $  : the end of the text, or just
                                      before a newline that ends it *)
| NotBehind (c : ascii).           (* (?<!c) *)

(** Where the matcher stands: the character just before (none at the start
    of the string) and the text still to read. *)
Record pos : Type := mkPos { prev : option ascii; rest : string }.

(** The groups that took part in the match so far, with their text. *)
Definition captures : Type := list (string * string).

Definition item_matches (i : citem) (c : ascii) : bool :=
  match i with
  | CChar a => Ascii.eqb c a
  | CRange lo hi => in_range lo hi c
  | CDigit => is_decimal_digit c
  | CNonWord => negb (is_word c)
  end.

Definition class_matches (items : list citem) (c : ascii) : bool :=
  existsb (fun i => item_matches i c) items.

Fixpoint group (name : string) (caps : captures) : option string :=
  match caps with
  | [] => None
  | (n, v) :: caps' => if String.eqb n name then Some v else group name caps'
  end.

Section Matcher.

(** What the rest of the pattern answers. *)
Variable R : Type.

Definition cont : Type := pos -> captures -> option R.

(** Read one character satisfying [ok]. *)
Definition one (ok : ascii -> bool) (p : pos) (caps : captures) (k : cont)
  : option R :=
  match rest p with
  | String a s' => if ok a then k (mkPos (Some a) s') caps else None
  | EmptyString => None
  end.

(** Try [a], then on failure [b]: the order in which the backtracking
    matcher explores. *)
Definition orelse (a b : option R) : option R :=
  match a with
  | Some x => Some x
  | None => b
  end.

(** Greedy repetition of [body], each round reading at least one character;
    [fuel] bounds the rounds and is the length of the text plus one. *)
Fixpoint star_loop (body : pos -> captures -> cont -> option R) (fuel : nat)
  (p : pos) (caps : captures) (k : cont) : option R :=
  match fuel with
  | 0 => k p caps
  | S fuel' =>
      orelse
        (body p caps (fun p' caps' =>
           if String.length (rest p') <? String.length (rest p)
           then star_loop body fuel' p' caps' k
           else None))
        (k p caps)
  end.

(** Greedy bounded repetition [{lo,hi}]. *)
Fixpoint rep_loop (body : pos -> captures -> cont -> option R) (lo hi : nat)
  (p : pos) (caps : captures) (k : cont) : option R :=
  match hi with
  | 0 => if lo =? 0 then k p caps else None
  | S hi' =>
      orelse
        (body p caps (fun p' caps' => rep_loop body (pred lo) hi' p' caps' k))
        (if lo =? 0 then k p caps else None)
  end.

(** The backtracking matcher, in continuation-passing style: [run r p caps k]
    matches [r] at [p] and hands the position reached to [k]; when [k]
    fails the next alternative is tried. *)
Fixpoint run (r : regex) (p : pos) (caps : captures) (k : cont)
  {struct r} : option R :=
  match r with
  | Eps => k p caps
  | Chr c => one (fun a => Ascii.eqb a c) p caps k
  | Dot => one (fun a => negb (Ascii.eqb a newline)) p caps k
  | Cls items => one (class_matches items) p caps k
  | NCls items => one (fun a => negb (class_matches items a)) p caps k
  | Seq r1 r2 => run r1 p caps (fun p' caps' => run r2 p' caps' k)
  | Alt r1 r2 => orelse (run r1 p caps k) (run r2 p caps k)
  | Star r' => star_loop (run r') (S (String.length (rest p))) p caps k
  | Plus r' =>
      run r' p caps (fun p' caps' =>
        star_loop (run r') (S (String.length (rest p'))) p' caps' k)
  | Opt r' => orelse (run r' p caps k) (k p caps)
  | Rep lo hi r' => rep_loop (run r') lo hi p caps k
  | Grp name r' =>
      run r' p caps (fun p' caps' =>
        let n := String.length (rest p) - String.length (rest p') in
        k p' ((name, take n (rest p)) :: caps'))
  | IfGrp name r' =>
      match group name caps with
      | Some _ => run r' p caps k
      | None => k p caps
      end
  | Bol => match prev p with None => k p caps | Some _ => None end
  | Eol =>
      match rest p with
      | EmptyString => k p caps
      | String a EmptyString => if Ascii.eqb a newline then k p caps else None
      | _ => None
      end
  | NotBehind c =>
      match prev p with
      | Some a => if Ascii.eqb a c then None else k p caps
      | None => k p caps
      end
  end.

End Matcher.

(** [re.match(r, s)]: a match starting at the beginning of [s]; the answer
    is the groups of the first match the search finds. *)
Definition re_match (r : regex) (s : string) : option captures :=
  run captures r (mkPos None s) [] (fun _ caps => Some caps).

(** A match of [r] starting at position [p], as the text left after it. *)
Definition match_at (r : regex) (p : pos) : option string :=
  run string r p [] (fun p' _ => Some (rest p')).

(** [r.split(s)] for a pattern without groups whose matches are not empty:
    the pieces between successive matches, found from left to right.
    [piece] is the current piece as read so far; [fuel] is the length of the
    text plus one. *)
Fixpoint split_from (r : regex) (fuel : nat) (p : pos) (piece : string)
  : list string :=
  match fuel with
  | 0 => [piece]
  | S fuel' =>
      match match_at r p with
      | Some s' =>
          if String.length s' <? String.length (rest p) then
            piece ::
              split_from r fuel'
                (mkPos (last_char (take (String.length (rest p) - String.length s') (rest p)) (prev p)) s')
                EmptyString
          else
            match rest p with
            | EmptyString => [piece]
            | String a s'' =>
                split_from r fuel' (mkPos (Some a) s'') (piece ++ String a EmptyString)
            end
      | None =>
          match rest p with
          | EmptyString => [piece]
          | String a s'' =>
              split_from r fuel' (mkPos (Some a) s'') (piece ++ String a EmptyString)
          end
      end
  end.

End Re.

Import Re.

(** A sequence of patterns, and an alternation tried from left to right. *)
Definition cat (rs : list regex) : regex := fold_right Seq Eps rs.

Fixpoint alt (r : regex) (rs : list regex) : regex :=
  match rs with
  | [] => r
  | r' :: rs' => Alt r (alt r' rs')
  end.

(** A literal word. *)
Fixpoint lit (s : string) : regex :=
  match s with
  | EmptyString => Eps
  | String c s' => Seq (Chr c) (lit s')
  end.

(** ** KgtkFormat *)

(** Modelled from the spec: [KgtkFormat.LIST_SEPARATOR] (kgtkformat.py is not
    among the sources); the one reserved list-separator character, which the
    spec writes [|]. *)
Definition LIST_SEPARATOR : ascii := "|".

(** ** KgtkValueOptions *)

Definition DEFAULT_ADDITIONAL_LANGUAGE_CODES : list string := ["mo"].

Record KgtkValueOptions : Type := mkOptions {
  allow_month_or_day_zero : bool;
  allow_lax_strings : bool;
  allow_lax_lq_strings : bool;
  allow_additional_language_codes : bool;
  additional_language_codes : list string
}.

Definition DEFAULT_KGTK_VALUE_OPTIONS : KgtkValueOptions :=
  mkOptions false false false false DEFAULT_ADDITIONAL_LANGUAGE_CODES.

(** ** The patterns of KgtkValue

    Each definition quotes the pattern it embeds.  In the quotations [DQ]
    stands for the double-quote character, and a blank separates a star
    from a closing parenthesis that follows it. *)

(** [(?<!\\)\|] *)
Definition split_list_re : regex :=
  Seq (NotBehind backslash) (Chr LIST_SEPARATOR).

Definition long_suffix_pat : regex := Cls [CChar "l"; CChar "L"].
Definition plus_or_minus_pat : regex := Cls [CChar "-"; CChar "+"].

Definition digit_pat : regex := Cls [CRange "0" "9"].
(** [(?:{digit}(?:_?{digit})*{long_suffix}?)] *)
Definition decinteger_pat : regex :=
  cat [digit_pat; Star (Seq (Opt (Chr "_")) digit_pat); Opt long_suffix_pat].
Definition bindigit_pat : regex := Cls [CChar "0"; CChar "1"].
(** [(?:0[bB](DQ:_?{bindigit})+{long_suffix})]: the group is a capturing one
    whose text opens with a double quote and a colon. *)
Definition bininteger_pat : regex :=
  cat [Chr "0"; Cls [CChar "b"; CChar "B"];
       Plus (Grp EmptyString (cat [Chr dquote; Chr ":"; Opt (Chr "_"); bindigit_pat]));
       long_suffix_pat].
Definition octdigit_pat : regex := Cls [CRange "0" "7"].
Definition octinteger_pat : regex :=
  cat [Chr "0"; Cls [CChar "o"; CChar "O"];
       Plus (Grp EmptyString (cat [Chr dquote; Chr ":"; Opt (Chr "_"); octdigit_pat]));
       long_suffix_pat].
Definition hexdigit_pat : regex :=
  Cls [CRange "0" "7"; CRange "a" "f"; CRange "A" "F"].
Definition hexinteger_pat : regex :=
  cat [Chr "0"; Cls [CChar "x"; CChar "X"];
       Plus (Grp EmptyString (cat [Chr dquote; Chr ":"; Opt (Chr "_"); hexdigit_pat]));
       long_suffix_pat].

Definition integer_pat : regex :=
  alt decinteger_pat [bininteger_pat; octinteger_pat; hexinteger_pat].

(** [(?:{digit}(?:_?{digit})* )] *)
Definition digitpart_pat : regex :=
  cat [digit_pat; Star (Seq (Opt (Chr "_")) digit_pat)].
(** [(?:\.{digitpart})] *)
Definition fraction_pat : regex := cat [Chr "."; digitpart_pat].
(** [(?:{digitpart}?{fraction})|(?:{digitpart}\.)] *)
Definition pointfloat_pat : regex :=
  Alt (cat [Opt digitpart_pat; fraction_pat]) (cat [digitpart_pat; Chr "."]).
(** [(?:[eE]{plus_or_minus}?{digitpart})] *)
Definition exponent_pat : regex :=
  cat [Cls [CChar "e"; CChar "E"]; Opt plus_or_minus_pat; digitpart_pat].
(** [(?:{digitpart}|{pointfloat}){exponent}] *)
Definition exponentfloat_pat : regex :=
  cat [Alt digitpart_pat pointfloat_pat; exponent_pat].
(** [(?:{pointfloat}|{exponentfloat})] *)
Definition floatnumber_pat : regex := Alt pointfloat_pat exponentfloat_pat.

(** [(?:{floatnumber}|{digitpart})[jJ]] *)
Definition imagnumber_pat : regex :=
  cat [Alt floatnumber_pat digitpart_pat; Cls [CChar "j"; CChar "J"]].

(** [(?:{plus_or_minus}?(?:{integer}|{floatnumber}|{imagnumber}))] *)
Definition numeric_pat : regex :=
  cat [Opt plus_or_minus_pat; alt integer_pat [floatnumber_pat; imagnumber_pat]].

(** [(?:\[{numeric},{numeric}\])] *)
Definition tolerance_pat : regex :=
  cat [Chr "["; numeric_pat; Chr ","; numeric_pat; Chr "]"].

(** [(?:m|kg|s|C|K|mol|cd|F|M|A|N|ohms|V|J|Hz|lx|H|Wb|V\W|Pa)] *)
Definition si_unit_pat : regex :=
  alt (lit "m")
    [lit "kg"; lit "s"; lit "C"; lit "K"; lit "mol"; lit "cd"; lit "F";
     lit "M"; lit "A"; lit "N"; lit "ohms"; lit "V"; lit "J"; lit "Hz";
     lit "lx"; lit "H"; lit "Wb"; Seq (Chr "V") (Cls [CNonWord]); lit "Pa"].
(** [(?:-1|2|3)] *)
Definition si_power_pat : regex := alt (lit "-1") [lit "2"; lit "3"].
Definition si_combiner_pat : regex := Cls [CChar "."; CChar "/"].
(** [(?:{si_unit}{si_power}?(?:{si_combiner}{si_unit}{si_power}?)* )] *)
Definition si_pat : regex :=
  cat [si_unit_pat; Opt si_power_pat;
       Star (cat [si_combiner_pat; si_unit_pat; Opt si_power_pat])].
Definition nonzero_digit_pat : regex := Cls [CRange "1" "9"].
(** [(?:Q{nonzero_digit}{digit}* )] *)
Definition wikidata_node_pat : regex :=
  cat [Chr "Q"; nonzero_digit_pat; Star digit_pat].

Definition units_pat : regex := Alt si_pat wikidata_node_pat.

(** [{numeric}{tolerance}?{units}?] *)
Definition number_or_quantity_pat : regex :=
  cat [numeric_pat; Opt tolerance_pat; Opt units_pat].
(** [{numeric}(?:(?:{tolerance}{units}?)|{units})] *)
Definition quantity_pat : regex :=
  cat [numeric_pat; Alt (cat [tolerance_pat; Opt units_pat]) units_pat].

Definition number_or_quantity_re : regex := cat [Bol; number_or_quantity_pat; Eol].
Definition number_re : regex := cat [Bol; numeric_pat; Eol].
Definition quantity_re : regex := cat [Bol; quantity_pat; Eol].

(** [^DQ.*DQ$] *)
Definition lax_string_re : regex :=
  cat [Bol; Chr dquote; Star Dot; Chr dquote; Eol].
(** [^DQ(?:[^DQ\\]|\\.)*DQ$] *)
Definition strict_string_re : regex :=
  cat [Bol; Chr dquote;
       Star (Alt (NCls [CChar dquote; CChar backslash]) (Seq (Chr backslash) Dot));
       Chr dquote; Eol].

(** [(?P<lang>[a-zA-Z]{2,3}(?:-[a-zA-Z]+)?)] *)
Definition lang_group : regex :=
  Grp "lang"
    (cat [Rep 2 3 (Cls [CRange "a" "z"; CRange "A" "Z"]);
          Opt (cat [Chr "-"; Plus (Cls [CRange "a" "z"; CRange "A" "Z"])])]).
(** [^(?P<string>'.*')@(?P<lang>[a-zA-Z]{2,3}(?:-[a-zA-Z]+)?)$] *)
Definition lax_language_qualified_string_re : regex :=
  cat [Bol; Grp "string" (cat [Chr "'"; Star Dot; Chr "'"]); Chr "@";
       lang_group; Eol].
(** [^(?P<string>'(?:[^'\\]|\\.)*')@(?P<lang>[a-zA-Z]{2,3}(?:-[a-zA-Z]+)?)$] *)
Definition strict_language_qualified_string_re : regex :=
  cat [Bol;
       Grp "string"
         (cat [Chr "'";
               Star (Alt (NCls [CChar "'"; CChar backslash]) (Seq (Chr backslash) Dot));
               Chr "'"]);
       Chr "@"; lang_group; Eol].

(** One coordinate: [[-+]?(?:\d+(?:\.\d* )?)|(?:\.\d+)], an alternation whose
    first branch alone carries the sign. *)
Definition coordinate_pat : regex :=
  Alt (cat [Opt (Cls [CChar "-"; CChar "+"]);
            Plus (Cls [CDigit]);
            Opt (cat [Chr "."; Star (Cls [CDigit])])])
      (cat [Chr "."; Plus (Cls [CDigit])]).
(** [^@(?P<lat>[-+]?(?:\d+(?:\.\d* )?)|(?:\.\d+))/(?P<lon>[-+]?(?:\d+(?:\.\d* )?)|(?:\.\d+))$] *)
Definition location_coordinates_re : regex :=
  cat [Bol; Chr "@"; Grp "lat" coordinate_pat; Chr "/";
       Grp "lon" coordinate_pat; Eol].

(** The two date patterns differ in the month and the day only:
    [1[0-2]|0[0-9]] and [3[01]|0[0-9]|[12][0-9]] (lax) against
    [1[0-2]|0[1-9]] and [3[01]|0[1-9]|[12][0-9]] (strict).

    [^\^(?P<year>[0-9]{4})
      (?:(?P<hyphen>-)?(?P<month>M)(?:(?(hyphen)-)(?P<day>D)))
      T(?P<hour>2[0-3]|[01][0-9])
      (?:(?(hyphen):)(?P<minute>[0-5][0-9])(?:(?(hyphen):)(?P<second>[0-5][0-9])))
      (?P<zone>Z|\[-+][0-9][0-9](?::[0-9][0-9])?)?
      (?P<precision>/[0-1]?[0-9])?$]

    In the zone, [\[] is an escaped bracket, so [-+] is a hyphen repeated and
    []] a literal bracket. *)
Definition date_and_times_re (low : ascii) : regex :=
  cat [Bol; Chr "^";
       Grp "year" (Rep 4 4 (Cls [CRange "0" "9"]));
       cat [Opt (Grp "hyphen" (Chr "-"));
            Grp "month"
              (Alt (cat [Chr "1"; Cls [CRange "0" "2"]])
                   (cat [Chr "0"; Cls [CRange low "9"]]));
            cat [IfGrp "hyphen" (Chr "-");
                 Grp "day"
                   (alt (cat [Chr "3"; Cls [CChar "0"; CChar "1"]])
                      [cat [Chr "0"; Cls [CRange low "9"]];
                       cat [Cls [CChar "1"; CChar "2"]; Cls [CRange "0" "9"]]])]];
       Chr "T";
       Grp "hour"
         (Alt (cat [Chr "2"; Cls [CRange "0" "3"]])
              (cat [Cls [CChar "0"; CChar "1"]; Cls [CRange "0" "9"]]));
       cat [IfGrp "hyphen" (Chr ":");
            Grp "minute" (cat [Cls [CRange "0" "5"]; Cls [CRange "0" "9"]]);
            cat [IfGrp "hyphen" (Chr ":");
                 Grp "second" (cat [Cls [CRange "0" "5"]; Cls [CRange "0" "9"]])]];
       Opt (Grp "zone"
              (Alt (Chr "Z")
                   (cat [Chr "["; Plus (Chr "-"); Chr "]";
                         Cls [CRange "0" "9"]; Cls [CRange "0" "9"];
                         Opt (cat [Chr ":"; Cls [CRange "0" "9"]; Cls [CRange "0" "9"]])])));
       Opt (Grp "precision"
              (cat [Chr "/"; Opt (Cls [CRange "0" "1"]); Cls [CRange "0" "9"]]));
       Eol].

Definition lax_date_and_times_re : regex := date_and_times_re "0".
Definition strict_date_and_times_re : regex := date_and_times_re "1".

(** ** Numbers read by [float()]

    [is_valid_location_coordinates] hands [float()] the text of a group of
    [location_coordinates_re]: an optional sign, digits and at most one
    point.  [float_of] reads that form exactly, as sign, digits and number
    of fraction digits; any other text is answered [None] (ValueError). *)

Record decimal : Type := mkDecimal {
  negative : bool;
  mantissa : N;       (* the digits, point removed *)
  scale : nat         (* how many of them follow the point *)
}.

Definition digit_value (c : ascii) : option N :=
  if in_range "0" "9" c then Some (N.of_nat (code c - 48)) else None.

(** The digits at the head of [s], folded into [acc]: the number, how many
    digits were read, and the text after them. *)
Fixpoint read_digits (s : string) (acc : N) (n : nat) : N * nat * string :=
  match s with
  | EmptyString => (acc, n, s)
  | String c s' =>
      match digit_value c with
      | Some d => read_digits s' (10 * acc + d)%N (S n)
      | None => (acc, n, s)
      end
  end.

Definition float_of (s : string) : option decimal :=
  let (neg, body) :=
    match s with
    | String c s' =>
        if Ascii.eqb c "-" then (true, s')
        else if Ascii.eqb c "+" then (false, s')
        else (false, s)
    | EmptyString => (false, s)
    end in
  let '(ip, ni, after) := read_digits body 0%N 0 in
  match after with
  | EmptyString => if ni =? 0 then None else Some (mkDecimal neg ip 0)
  | String c frac =>
      if Ascii.eqb c "." then
        let '(m, nf, after') := read_digits frac ip 0 in
        match after' with
        | EmptyString =>
            if (ni =? 0) && (nf =? 0) then None else Some (mkDecimal neg m nf)
        | String _ _ => None
        end
      else None
  end.

(** The magnitude of the double read from [d] is greater than the double
    [b], where [b] is an integer with an even significand and half an ulp of
    [b] is [2^-e]: [float()] rounds to the nearest double, ties to even, so
    the double exceeds [b] exactly when the decimal exceeds [b + 2^-e]. *)
Definition magnitude_exceeds (b : N) (e : N) (d : decimal) : bool :=
  ((b * 2 ^ e + 1) * 10 ^ N.of_nat (scale d) <? mantissa d * 2 ^ e)%N.

(** [x < -b] and [x > b] on the double read from [d]; half an ulp of 90.0
    is [2^-47], of 180.0 [2^-46]. *)
Definition float_lt_minus (b e : N) (d : decimal) : bool :=
  negative d && magnitude_exceeds b e d.
Definition float_gt (b e : N) (d : decimal) : bool :=
  negb (negative d) && magnitude_exceeds b e d.

(** ** KgtkValue *)

(** [values] caches the list split; it is [None] until [get_list] runs. *)
Record KgtkValue : Type := mkKgtkValue {
  value : string;
  options : KgtkValueOptions;
  values : option (list string)
}.

(** [KgtkValue(v, options=o)] *)
Definition new (v : string) (o : KgtkValueOptions) : KgtkValue :=
  mkKgtkValue v o None.

(** A method: it reads the object, may fill its cache, and answers or raises
    ([None]). *)
Definition M (A : Type) : Type := KgtkValue -> option (A * KgtkValue).

Definition ret {A : Type} (a : A) : M A := fun self => Some (a, self).
Definition raise {A : Type} : M A := fun _ => None.
Definition bind {A B : Type} (m : M A) (f : A -> M B) : M B :=
  fun self =>
    match m self with
    | Some (a, self') => f a self'
    | None => None
    end.

Notation "x <- m ;; f" := (bind m (fun x => f))
  (at level 61, m at next level, right associativity).

(** The answer of a method, the object dropped. *)
Definition answer {A : Type} (r : option (A * KgtkValue)) : option A :=
  match r with
  | Some (a, _) => Some a
  | None => None
  end.

Definition get_value : M string := fun self => Some (value self, self).
Definition get_options : M KgtkValueOptions :=
  fun self => Some (options self, self).

(** [pattern.split(s)] *)
Definition re_split (r : regex) (s : string) : list string :=
  split_from r (S (String.length s)) (mkPos None s) EmptyString.

Definition get_list : M (list string) :=
  fun self =>
    match values self with
    | None =>
        let l := re_split split_list_re (value self) in
        Some (l, mkKgtkValue (value self) (options self) (Some l))
    | Some l => Some (l, self)
    end.

(** [l[i]]: a negative index counts from the end; out of range raises. *)
Definition py_index {A : Type} (l : list A) (i : Z) : option A :=
  if (0 <=? i)%Z then nth_error l (Z.to_nat i)
  else if (- Z.of_nat (List.length l) <=? i)%Z
       then nth_error l (Z.to_nat (Z.of_nat (List.length l) + i))
       else None.

Definition get_item (idx : option Z) : M string :=
  match idx with
  | None => get_value
  | Some i =>
      l <- get_list ;;
      match py_index l i with
      | Some v => ret v
      | None => raise
      end
  end.

Definition is_list : M bool :=
  l <- get_list ;; ret (1 <? List.length l).

Definition is_None {A : Type} (o : option A) : bool :=
  match o with
  | None => true
  | Some _ => false
  end.

(** The truth value of [self.is_list] written without a call: a bound
    method object, which is true. *)
Definition is_list_attribute : bool := true.

(** [if not self.is_list: return [self]] tests the method object, so the
    loop of the [else] branch always runs. *)
Definition get_values : M (list KgtkValue) :=
  if negb is_list_attribute then (fun self => Some ([self], self))
  else
    l <- get_list ;;
    o <- get_options ;;
    ret (map (fun v => new v o) l).

Definition is_empty (idx : option Z) : M bool :=
  l <- is_list ;;
  if l && is_None idx then ret false else
  v <- get_item idx ;;
  ret (String.length v =? 0).

(** The tuple ["0", ..., "9", "+", "-", "."] *)
Definition number_prefixes : list ascii :=
  ["0"; "1"; "2"; "3"; "4"; "5"; "6"; "7"; "8"; "9"; "+"; "-"; "."]%char.

Definition is_number_or_quantity (idx : option Z) : M bool :=
  l <- is_list ;;
  if l && is_None idx then ret false else
  v <- get_item idx ;;
  ret (starts_with_any number_prefixes v).

(** [m is not None] *)
Definition matched (m : option captures) : bool := negb (is_None m).

Definition is_valid_number_or_quantity (idx : option Z) : M bool :=
  l <- is_list ;;
  if l && is_None idx then ret false else
  v <- get_item idx ;;
  if negb (starts_with_any number_prefixes v) then ret false else
  ret (matched (re_match number_or_quantity_re v)).

Definition is_valid_number (idx : option Z) : M bool :=
  l <- is_list ;;
  if l && is_None idx then ret false else
  v <- get_item idx ;;
  if negb (starts_with_any number_prefixes v) then ret false else
  ret (matched (re_match number_re v)).

Definition is_valid_quantity (idx : option Z) : M bool :=
  l <- is_list ;;
  if l && is_None idx then ret false else
  v <- get_item idx ;;
  if negb (starts_with_any number_prefixes v) then ret false else
  ret (matched (re_match quantity_re v)).

Definition is_string (idx : option Z) : M bool :=
  l <- is_list ;;
  if l && is_None idx then ret false else
  v <- get_item idx ;;
  ret (starts_with dquote v).

Definition is_valid_string (idx : option Z) : M bool :=
  l <- is_list ;;
  if l && is_None idx then ret false else
  v <- get_item idx ;;
  if negb (starts_with dquote v) then ret false else
  o <- get_options ;;
  ret (matched (if allow_lax_strings o
                then re_match lax_string_re v
                else re_match strict_string_re v)).

Definition is_structured_literal (idx : option Z) : M bool :=
  l <- is_list ;;
  if l && is_None idx then ret false else
  v <- get_item idx ;;
  ret (starts_with_any ["^"; "@"; "'"; "!"]%char v).

(** [a or b] on two calls: [b] runs only when [a] answers false. *)
Definition or_else (a b : M bool) : M bool :=
  x <- a ;; if x then ret true else b.

Definition is_symbol (idx : option Z) : M bool :=
  l <- is_list ;;
  if l && is_None idx then ret false else
  x <- or_else (is_number_or_quantity idx)
         (or_else (is_string idx) (is_structured_literal idx)) ;;
  ret (negb x).

Definition is_language_qualified_string (idx : option Z) : M bool :=
  l <- is_list ;;
  if l && is_None idx then ret false else
  v <- get_item idx ;;
  ret (starts_with "'" v).

Definition is_location_coordinates (idx : option Z) : M bool :=
  l <- is_list ;;
  if l && is_None idx then ret false else
  v <- get_item idx ;;
  ret (starts_with "@" v).

Definition is_valid_location_coordinates (idx : option Z) : M bool :=
  l <- is_list ;;
  if l && is_None idx then ret false else
  v <- get_item idx ;;
  match re_match location_coordinates_re v with
  | None => ret false
  | Some m =>
      match group "lat" m with
      | None => raise
      | Some latstr =>
          match float_of latstr with
          | None => ret false
          | Some lat =>
              if float_lt_minus 90 47 lat || float_gt 90 47 lat then ret false
              else
                match group "lon" m with
                | None => raise
                | Some lonstr =>
                    match float_of lonstr with
                    | None => ret false
                    | Some lon =>
                        if float_lt_minus 180 46 lon || float_gt 180 46 lon
                        then ret false
                        else ret true
                    end
                end
          end
      end
  end.

Definition is_date_and_times (idx : option Z) : M bool :=
  l <- is_list ;;
  if l && is_None idx then ret false else
  v <- get_item idx ;;
  ret (starts_with "^" v).

Definition is_valid_date_and_times (idx : option Z) : M bool :=
  l <- is_list ;;
  if l && is_None idx then ret false else
  v <- get_item idx ;;
  o <- get_options ;;
  ret (matched (if allow_month_or_day_zero o
                then re_match lax_date_and_times_re v
                else re_match strict_date_and_times_re v)).

Definition is_extension (idx : option Z) : M bool :=
  l <- is_list ;;
  if l && is_None idx then ret false else
  v <- get_item idx ;;
  ret (starts_with "!" v).

Section Methods.

(** The two reserved boolean symbols of [KgtkFormat], whose file is not among
    the sources. *)
Variables TRUE_SYMBOL FALSE_SYMBOL : string.

(** The language registries the class consults, as lookups:
    [pycountry.languages.get(alpha_2=lang) is not None],
    [pycountry.languages.get(alpha_3=lang) is not None], and whether
    [iso639.languages.get(part5=lang)] returns rather than raises KeyError. *)
Variables alpha_2 alpha_3 part5 : string -> bool.

Definition is_boolean (idx : option Z) : M bool :=
  l <- is_list ;;
  if l && is_None idx then ret false else
  v <- get_item idx ;;
  ret (String.eqb v TRUE_SYMBOL || String.eqb v FALSE_SYMBOL).

(** [lang in codes] *)
Definition in_codes (lang : string) (codes : list string) : bool :=
  existsb (String.eqb lang) codes.

Definition is_valid_language_qualified_string (idx : option Z) : M bool :=
  l <- is_list ;;
  if l && is_None idx then ret false else
  v <- get_item idx ;;
  o <- get_options ;;
  match (if allow_lax_lq_strings o
         then re_match lax_language_qualified_string_re v
         else re_match strict_language_qualified_string_re v) with
  | None => ret false
  | Some m =>
      match group "lang" m with
      | None => raise
      | Some g =>
          let lang := lower g in
          if (if String.length lang =? 2 then alpha_2 lang
              else if String.length lang =? 3
                   then (if alpha_3 lang then true else part5 lang)
                   else false)
          then ret true
          else
            (* [lang] is assigned anew when it holds a hyphen *)
            let lang' :=
              if contains "-" lang then fst (split_once "-" lang) else lang in
            if (if contains "-" lang
                then
                  if (if String.length lang' =? 2 then alpha_2 lang'
                      else if String.length lang' =? 3 then alpha_3 lang'
                           else false)
                  then true
                  else part5 lang'
                else false)
            then ret true
            else
              if allow_additional_language_codes o
                 && in_codes lang' (additional_language_codes o)
              then ret true
              else ret false
      end
  end.

Definition is_valid_literal (idx : option Z) : M bool :=
  l <- is_list ;;
  if l && is_None idx then ret false else
  s <- is_string idx ;;
  if s then is_valid_string idx else
  n <- is_number_or_quantity idx ;;
  if n then is_valid_number_or_quantity idx else
  t <- is_structured_literal idx ;;
  if t then
    q <- is_language_qualified_string idx ;;
    if q then is_valid_language_qualified_string idx else
    c <- is_location_coordinates idx ;;
    if c then is_valid_location_coordinates idx else
    d <- is_date_and_times idx ;;
    if d then is_valid_date_and_times idx else
    e <- is_extension idx ;;
    if e then ret false else ret false
  else ret false.

Definition is_valid_item (idx : option Z) : M bool :=
  l <- is_list ;;
  if l && is_None idx then ret false else
  e <- is_empty idx ;;
  if e then ret true else
  v <- is_valid_literal idx ;;
  if v then ret true else
  is_symbol idx.

(** The loop of [is_valid]: [result = result and kv.is_valid_item()], where
    [and] calls the method only while [result] is true. *)
Fixpoint is_valid_loop (kvs : list KgtkValue) (result : bool) : option bool :=
  match kvs with
  | [] => Some result
  | kv :: kvs' =>
      if result then
        match is_valid_item None kv with
        | Some (b, _) => is_valid_loop kvs' b
        | None => None
        end
      else is_valid_loop kvs' false
  end.

Definition is_valid : M bool :=
  kvs <- get_values ;;
  match is_valid_loop kvs true with
  | Some result => ret result
  | None => raise
  end.

(** The loop of [describe] over a list: [call] is [kv.describe()]. *)
Fixpoint describe_loop (call : M string) (kvs : list KgtkValue)
  (first : bool) (result : string) : option string :=
  match kvs with
  | [] => Some result
  | kv :: kvs' =>
      let result' :=
        if first then result else result ++ String LIST_SEPARATOR EmptyString in
      match call kv with
      | Some (d, _) => describe_loop call kvs' false (result' ++ d)
      | None => None
      end
  end.

(** [describe] calls itself on the items of a list; [depth] bounds the
    nesting of the calls (Python raises RecursionError past its limit). *)
Fixpoint describe (depth : nat) (idx : option Z) : M string :=
  match depth with
  | 0 => raise
  | S depth' =>
      l <- is_list ;;
      if l && is_None idx then
        kvs <- get_values ;;
        match describe_loop (describe depth' None) kvs true EmptyString with
        | Some result => ret result
        | None => raise
        end
      else
        e <- is_empty idx ;;
        if e then ret "Empty" else
        s <- is_string idx ;;
        if s then
          b <- is_valid_string idx ;;
          if b then ret "String" else ret "Invalid String"
        else
        n <- is_number_or_quantity idx ;;
        if n then
          b <- is_valid_number idx ;;
          if b then ret "Number" else
          q <- is_valid_quantity idx ;;
          if q then ret "Quantity" else ret "Invalid Number or Quantity"
        else
        t <- is_structured_literal idx ;;
        if t then
          q <- is_language_qualified_string idx ;;
          if q then
            b <- is_valid_language_qualified_string idx ;;
            if b then ret "Language Qualified String"
            else ret "Invalid Language Qualified String"
          else
          c <- is_location_coordinates idx ;;
          if c then
            b <- is_valid_location_coordinates idx ;;
            if b then ret "Location Coordinates"
            else ret "Invalid Location Coordinates"
          else
          d <- is_date_and_times idx ;;
          if d then
            b <- is_valid_date_and_times idx ;;
            if b then ret "Date and Times" else ret "Invalid Date and Times"
          else
          x <- is_extension idx ;;
          if x then ret "Extension (unvalidated)"
          else ret "Invalid Structured Literal"
        else ret "Symbol"
  end.

End Methods.

(** For the examples: the two boolean symbols as KGTK writes them, and a
    registry holding a few entries of ISO 639 (English, Portuguese, Spanish;
    the Nahuatl family among the collective codes). *)
Definition sample_alpha_2 (lang : string) : bool :=
  in_codes lang ["en"; "pt"; "es"].
Definition sample_alpha_3 (lang : string) : bool :=
  in_codes lang ["eng"; "por"; "spa"].
Definition sample_part5 (lang : string) : bool :=
  in_codes lang ["nah"].

(** ** Definitions used to state and prove the properties *)

(** The list split read directly off the text: a separator splits unless
    the character before it is a backslash; [esc] tells whether the
    character before [s] is one. *)
Fixpoint split_plain (esc : bool) (s : string) : list string :=
  match s with
  | EmptyString => [EmptyString]
  | String a s' =>
      if Ascii.eqb a LIST_SEPARATOR && negb esc
      then EmptyString :: split_plain false s'
      else
        match split_plain (Ascii.eqb a backslash) s' with
        | h :: t => String a h :: t
        | [] => []
        end
  end.

(** [piece] put in front of the first item. *)
Definition onto (piece : string) (l : list string) : list string :=
  match l with
  | h :: t => (piece ++ h) :: t
  | [] => []
  end.

Definition is_backslash (c : option ascii) : bool :=
  match c with
  | Some a => Ascii.eqb a backslash
  | None => false
  end.

(** [s.endswith(c)] *)
Definition ends_with (c : ascii) (s : string) : bool :=
  match last_char s None with
  | Some a => Ascii.eqb a c
  | None => false
  end.

(** The split of the cell, and the object with its cache filled. *)
Definition items (self : KgtkValue) : list string :=
  re_split split_list_re (value self).

Definition filled (self : KgtkValue) : KgtkValue :=
  mkKgtkValue (value self) (options self) (Some (items self)).

(** The cache is empty or holds the split of [value]: true of an object as
    constructed and kept by every method. *)
Definition wf (self : KgtkValue) : Prop :=
  values self = None \/ values self = Some (items self).

(** The text [get_item] selects. *)
Definition item_of (self : KgtkValue) (idx : option Z) : option string :=
  match idx with
  | None => Some (value self)
  | Some i => py_index (items self) i
  end.

(** The guard every predicate opens with. *)
Definition whole_list (self : KgtkValue) (idx : option Z) : bool :=
  (1 <? List.length (items self)) && is_None idx.

(** A method that answers [dflt] on a whole list and otherwise [P] of the
    options and the selected text, leaving the cache filled. *)
Definition guarded {A : Type} (P : KgtkValueOptions -> string -> A) (dflt : A)
  (idx : option Z) (self : KgtkValue) : option (A * KgtkValue) :=
  if whole_list self idx then Some (dflt, filled self)
  else
    match item_of self idx with
    | Some v => Some (P (options self) v, filled self)
    | None => None
    end.

(** Every match of [r] passes through a group called [name]. *)
Fixpoint defines (name : string) (r : regex) : bool :=
  match r with
  | Seq r1 r2 => defines name r1 || defines name r2
  | Alt r1 r2 => defines name r1 && defines name r2
  | Plus r' => defines name r'
  | Rep lo _ r' => (0 <? lo) && defines name r'
  | Grp n r' => String.eqb n name || defines name r'
  | _ => false
  end.

(** A group called [name] that is set in [caps] is set in [caps'] too. *)
Definition keeps (name : string) (caps caps' : captures) : Prop :=
  group name caps <> None -> group name caps' <> None.

(** Exactly one of the answers is [true]. *)
Definition exactly_one (bs : list bool) : Prop :=
  List.length (filter (fun b => b) bs) = 1.

Section ItemFunctions.

Variables alpha_2 alpha_3 part5 : string -> bool.

(** What the methods compute from the options and one item. *)

Definition item_valid_string (o : KgtkValueOptions) (v : string) : bool :=
  if negb (starts_with dquote v) then false
  else matched (if allow_lax_strings o
                then re_match lax_string_re v
                else re_match strict_string_re v).

Definition item_valid_number_or_quantity (v : string) : bool :=
  if negb (starts_with_any number_prefixes v) then false
  else matched (re_match number_or_quantity_re v).

Definition item_valid_number (v : string) : bool :=
  if negb (starts_with_any number_prefixes v) then false
  else matched (re_match number_re v).

Definition item_valid_quantity (v : string) : bool :=
  if negb (starts_with_any number_prefixes v) then false
  else matched (re_match quantity_re v).

Definition item_symbol (v : string) : bool :=
  negb (if starts_with_any number_prefixes v then true
        else if starts_with dquote v then true
             else starts_with_any ["^"; "@"; "'"; "!"]%char v).

(** The registry steps on a tag: alpha-2 for two letters; alpha-3, then the
    collective codes, for three. *)
Definition registered (lang : string) : bool :=
  if String.length lang =? 2 then alpha_2 lang
  else if String.length lang =? 3
       then (if alpha_3 lang then true else part5 lang)
       else false.

(** The steps on the part before the hyphen: alpha-2 or alpha-3 by length,
    then the collective codes whatever the length. *)
Definition registered_primary (lang : string) : bool :=
  if (if String.length lang =? 2 then alpha_2 lang
      else if String.length lang =? 3 then alpha_3 lang
           else false)
  then true
  else part5 lang.

(** The tag the allow-list is asked about: the part before the first hyphen
    when there is one. *)
Definition primary (lang : string) : string :=
  if contains "-" lang then fst (split_once "-" lang) else lang.

Definition language_code_ok (o : KgtkValueOptions) (lang : string) : bool :=
  if registered lang then true
  else
    if (if contains "-" lang then registered_primary (primary lang) else false)
    then true
    else
      allow_additional_language_codes o
      && in_codes (primary lang) (additional_language_codes o).

Definition item_valid_language_qualified_string (o : KgtkValueOptions)
  (v : string) : bool :=
  match (if allow_lax_lq_strings o
         then re_match lax_language_qualified_string_re v
         else re_match strict_language_qualified_string_re v) with
  | None => false
  | Some m =>
      match group "lang" m with
      | None => false
      | Some g => language_code_ok o (lower g)
      end
  end.

Definition in_bounds (b e : N) (x : string) : bool :=
  match float_of x with
  | None => false
  | Some d => negb (float_lt_minus b e d || float_gt b e d)
  end.

Definition item_valid_location_coordinates (v : string) : bool :=
  match re_match location_coordinates_re v with
  | None => false
  | Some m =>
      match group "lat" m, group "lon" m with
      | Some latstr, Some lonstr => in_bounds 90 47 latstr && in_bounds 180 46 lonstr
      | _, _ => false
      end
  end.

Definition item_valid_date_and_times (o : KgtkValueOptions) (v : string) : bool :=
  matched (if allow_month_or_day_zero o
           then re_match lax_date_and_times_re v
           else re_match strict_date_and_times_re v).

Definition item_valid_literal (o : KgtkValueOptions) (v : string) : bool :=
  if starts_with dquote v then item_valid_string o v
  else if starts_with_any number_prefixes v then item_valid_number_or_quantity v
  else if starts_with_any ["^"; "@"; "'"; "!"]%char v then
    if starts_with "'" v then item_valid_language_qualified_string o v
    else if starts_with "@" v then item_valid_location_coordinates v
    else if starts_with "^" v then item_valid_date_and_times o v
    else false
  else false.

Definition item_valid (o : KgtkValueOptions) (v : string) : bool :=
  if String.length v =? 0 then true
  else if item_valid_literal o v then true
  else item_symbol v.

Definition item_describe (o : KgtkValueOptions) (v : string) : string :=
  if String.length v =? 0 then "Empty"
  else if starts_with dquote v then
    if item_valid_string o v then "String" else "Invalid String"
  else if starts_with_any number_prefixes v then
    if item_valid_number v then "Number"
    else if item_valid_quantity v then "Quantity"
    else "Invalid Number or Quantity"
  else if starts_with_any ["^"; "@"; "'"; "!"]%char v then
    if starts_with "'" v then
      if item_valid_language_qualified_string o v
      then "Language Qualified String"
      else "Invalid Language Qualified String"
    else if starts_with "@" v then
      if item_valid_location_coordinates v
      then "Location Coordinates"
      else "Invalid Location Coordinates"
    else if starts_with "^" v then
      if item_valid_date_and_times o v
      then "Date and Times" else "Invalid Date and Times"
    else if starts_with "!" v then "Extension (unvalidated)"
    else "Invalid Structured Literal"
  else "Symbol".

(** The descriptions of the items, joined by the separator. *)
Fixpoint join_descriptions (o : KgtkValueOptions) (l : list string) : string :=
  match l with
  | [] => EmptyString
  | [v] => item_describe o v
  | v :: l' =>
      item_describe o v ++ String LIST_SEPARATOR EmptyString
        ++ join_descriptions o l'
  end.

End ItemFunctions.

(** ** Comparing patterns *)

(** Every character, by code point. *)
Definition all_ascii : list ascii := map ascii_of_nat (seq 0 256).

(** Every character [f] accepts, [g] accepts. *)
Definition class_le (f g : ascii -> bool) : bool :=
  forallb (fun c => implb (f c) (g c)) all_ascii.

(** [r'] is [r] with wider character classes: same shape, same groups, and
    at each place a class that accepts at least what the class of [r]
    accepts. *)
Fixpoint sub (r r' : regex) : bool :=
  match r, r' with
  | Eps, Eps => true
  | Chr a, Chr b => Ascii.eqb a b
  | Dot, Dot => true
  | Cls xs, Cls ys => class_le (class_matches xs) (class_matches ys)
  | NCls xs, NCls ys => class_le (class_matches ys) (class_matches xs)
  | Seq a b, Seq a' b' => sub a a' && sub b b'
  | Alt a b, Alt a' b' => sub a a' && sub b b'
  | Star a, Star a' => sub a a'
  | Plus a, Plus a' => sub a a'
  | Opt a, Opt a' => sub a a'
  | Rep lo hi a, Rep lo' hi' a' => (lo =? lo') && (hi =? hi') && sub a a'
  | Grp n a, Grp n' a' => String.eqb n n' && sub a a'
  | IfGrp n a, IfGrp n' a' => String.eqb n n' && sub a a'
  | Bol, Bol => true
  | Eol, Eol => true
  | NotBehind a, NotBehind b => Ascii.eqb a b
  | _, _ => false
  end.

(** A run of [r] from [p] with the groups [c] can stop at [p'] with the
    groups [c'], having read [w]; and [r'] run from [p] can stop there too,
    whatever follows: a continuation that succeeds at the stop makes the run
    of [r'] succeed. *)
Definition stops_at (r' : regex) (p : pos) (c : captures) (p' : pos)
  (c' : captures) (w : string) : Prop :=
  rest p = w ++ rest p'
  /\ prev p' = last_char w (prev p)
  /\ forall (R' : Type) (k' : cont R'),
       k' p' c' <> None -> run R' r' p c k' <> None.

(** [sep.join(l)] for a one-character separator. *)
Fixpoint join (sep : ascii) (l : list string) : string :=
  match l with
  | [] => EmptyString
  | [x] => x
  | x :: l' => x ++ String sep (join sep l')
  end.

(** A call of [m] on [self] that returns leaves the value and the options
    as they were and the cache holding the split of the value, and the same
    call on the object it leaves returns the same answer and the same
    object. *)
Definition settles {A : Type} (m : M A) (self : KgtkValue) : Prop :=
  forall (a : A) (self' : KgtkValue),
    m self = Some (a, self') ->
    value self' = value self
    /\ options self' = options self
    /\ values self' = Some (re_split split_list_re (value self))
    /\ m self' = Some (a, self').

(** ** The layout of a date *)

(** The pattern of a date up to the seconds, as [date_and_times_re] opens;
    the zone, the precision and the end follow. *)
Definition date_prefix (low : ascii) : list regex :=
  [Bol; Chr "^";
   Grp "year" (Rep 4 4 (Cls [CRange "0" "9"]));
   cat [Opt (Grp "hyphen" (Chr "-"));
        Grp "month"
          (Alt (cat [Chr "1"; Cls [CRange "0" "2"]])
               (cat [Chr "0"; Cls [CRange low "9"]]));
        cat [IfGrp "hyphen" (Chr "-");
             Grp "day"
               (alt (cat [Chr "3"; Cls [CChar "0"; CChar "1"]])
                  [cat [Chr "0"; Cls [CRange low "9"]];
                   cat [Cls [CChar "1"; CChar "2"]; Cls [CRange "0" "9"]]])]];
   Chr "T";
   Grp "hour"
     (Alt (cat [Chr "2"; Cls [CRange "0" "3"]])
          (cat [Cls [CChar "0"; CChar "1"]; Cls [CRange "0" "9"]]));
   cat [IfGrp "hyphen" (Chr ":");
        Grp "minute" (cat [Cls [CRange "0" "5"]; Cls [CRange "0" "9"]]);
        cat [IfGrp "hyphen" (Chr ":");
             Grp "second" (cat [Cls [CRange "0" "5"]; Cls [CRange "0" "9"]])]]].

Definition date_suffix : list regex :=
  [Opt (Grp "zone"
          (Alt (Chr "Z")
               (cat [Chr "["; Plus (Chr "-"); Chr "]";
                     Cls [CRange "0" "9"]; Cls [CRange "0" "9"];
                     Opt (cat [Chr ":"; Cls [CRange "0" "9"]; Cls [CRange "0" "9"]])])));
   Opt (Grp "precision"
          (cat [Chr "/"; Opt (Cls [CRange "0" "1"]); Cls [CRange "0" "9"]]));
   Eol].

(** The character of [v] at position [i] satisfies [ok]. *)
Definition char_at (i : nat) (v : string) (ok : ascii -> bool) : bool :=
  match String.get i v with
  | Some a => ok a
  | None => false
  end.

Definition digits_at (positions : list nat) (v : string) : bool :=
  forallb (fun i => char_at i v is_decimal_digit) positions.

(** [^YYYY-MM-DDTHH:MM:SS], whatever follows. *)
Definition extended_layout (v : string) : bool :=
  char_at 0 v (Ascii.eqb "^")
  && digits_at [1; 2; 3; 4; 6; 7; 9; 10; 12; 13; 15; 16; 18; 19] v
  && char_at 5 v (Ascii.eqb "-") && char_at 8 v (Ascii.eqb "-")
  && char_at 11 v (Ascii.eqb "T")
  && char_at 14 v (Ascii.eqb ":") && char_at 17 v (Ascii.eqb ":").

(** [^YYYYMMDDTHHMMSS], whatever follows. *)
Definition basic_layout (v : string) : bool :=
  char_at 0 v (Ascii.eqb "^")
  && digits_at [1; 2; 3; 4; 5; 6; 7; 8; 10; 11; 12; 13; 14; 15] v
  && char_at 9 v (Ascii.eqb "T").

(** One step of running the opening of a date pattern on a text read
    character by character, and the reading of the layout off what the steps
    found; [or_lemma] splits a choice, [digit_lemma] turns the class a
    character was read with into its being a digit. *)
Ltac date_step or_lemma H :=
  cbn [run cat alt fold_right rep_loop prev rest group String.eqb Ascii.eqb
         Bool.eqb Nat.eqb pred andb] in H;
  lazymatch type of H with
  | orelse _ _ _ = Some _ =>
      apply or_lemma in H; destruct H as [H|[_ H]]
  | one _ _ _ _ _ = Some _ =>
      unfold one in H at 1; cbn [rest] in H
  | match ?s with EmptyString => _ | String _ _ => _ end = Some _ =>
      destruct s as [|? s]; [discriminate|]
  | (if ?b then _ else _) = Some _ =>
      destruct b eqn:?; [|discriminate]
  | None = Some _ => discriminate
  end.

Ltac date_finish digit_lemma :=
  repeat match goal with
         | E : Ascii.eqb ?a _ = true |- _ => apply Ascii.eqb_eq in E; subst a
         | E : class_matches ?items ?a = true |- _ =>
             apply (digit_lemma items a ltac:(vm_compute; reflexivity)) in E
         end;
  first
    [ left; unfold extended_layout, digits_at, char_at;
      cbn [String.get forallb];
      repeat match goal with
             | E : is_decimal_digit ?a = true |- _ => rewrite E; clear E
             end;
      reflexivity
    | right; unfold basic_layout, digits_at, char_at;
      cbn [String.get forallb];
      repeat match goal with
             | E : is_decimal_digit ?a = true |- _ => rewrite E; clear E
             end;
      reflexivity ].

(** ** The text of a string *)

(** What the strict string pattern repeats between the quotes. *)
Definition string_body : regex :=
  Alt (NCls [CChar dquote; CChar backslash]) (Seq (Chr backslash) Dot).

(** A text made of characters other than a double quote and a backslash,
    and of pairs of a backslash and a character that is no newline. *)
Fixpoint escaped_text (s : string) : bool :=
  match s with
  | EmptyString => true
  | String a s' =>
      if Ascii.eqb a backslash then
        match s' with
        | String b s'' => negb (Ascii.eqb b newline) && escaped_text s''
        | EmptyString => false
        end
      else negb (Ascii.eqb a dquote) && escaped_text s'
  end.

(** Nothing, or one newline: what [$] lets follow. *)
Definition line_end (t : string) : bool :=
  match t with
  | EmptyString => true
  | String a EmptyString => Ascii.eqb a newline
  | String _ (String _ _) => false
  end.

(** What may stand between the quotes of a valid string. *)
Definition string_text (o : KgtkValueOptions) (w : string) : bool :=
  if allow_lax_strings o then negb (contains newline w) else escaped_text w.

(** ** Month and day zero *)

(** How [date_and_times_re] opens, up to the day, and how [date_prefix]
    goes on from there. *)
Definition date_opening (low : ascii) : list regex :=
  [Bol; Chr "^";
   Grp "year" (Rep 4 4 (Cls [CRange "0" "9"]));
   cat [Opt (Grp "hyphen" (Chr "-"));
        Grp "month"
          (Alt (cat [Chr "1"; Cls [CRange "0" "2"]])
               (cat [Chr "0"; Cls [CRange low "9"]]));
        cat [IfGrp "hyphen" (Chr "-");
             Grp "day"
               (alt (cat [Chr "3"; Cls [CChar "0"; CChar "1"]])
                  [cat [Chr "0"; Cls [CRange low "9"]];
                   cat [Cls [CChar "1"; CChar "2"]; Cls [CRange "0" "9"]]])]]].

Definition date_clock : list regex :=
  [Chr "T";
   Grp "hour"
     (Alt (cat [Chr "2"; Cls [CRange "0" "3"]])
          (cat [Cls [CChar "0"; CChar "1"]; Cls [CRange "0" "9"]]));
   cat [IfGrp "hyphen" (Chr ":");
        Grp "minute" (cat [Cls [CRange "0" "5"]; Cls [CRange "0" "9"]]);
        cat [IfGrp "hyphen" (Chr ":");
             Grp "second" (cat [Cls [CRange "0" "5"]; Cls [CRange "0" "9"]])]]].

(** The two characters of [v] from position [i] on are [00]. *)
Definition zero_pair (i : nat) (v : string) : bool :=
  char_at i v (Ascii.eqb "0") && char_at (S i) v (Ascii.eqb "0").

(** The month or the day of a date is [00]: with a hyphen after the year
    they stand at 6 and 9, without one at 5 and 7. *)
Definition month_or_day_zero (v : string) : bool :=
  if char_at 5 v (Ascii.eqb "-")
  then zero_pair 6 v || zero_pair 9 v
  else zero_pair 5 v || zero_pair 7 v.

Ltac date_chars :=
  repeat match goal with
         | E : Ascii.eqb ?a _ = true |- _ => apply Ascii.eqb_eq in E; subst a
         end.

(** Rewrite in [Hz] the tests for [0] of the characters known not to be. *)
Ltac date_nonzero nonzero_lemma Hz :=
  repeat match type of Hz with
         | context [Ascii.eqb "0" ?a] =>
             is_var a;
             match goal with
             | E : class_matches ?items a = true |- _ =>
                 rewrite (nonzero_lemma items a ltac:(vm_compute; reflexivity) E)
                   in Hz
             end
         end.

(** A month or a day read as [00] contradicts [Hz]. *)
Ltac date_zero nonzero_lemma zero_lemma Hz :=
  exfalso;
  repeat match goal with
         | E : class_matches [CRange "0" "9"] ?a = true,
           F : class_matches [CRange "1" "9"] ?a = false |- _ =>
             let Z := fresh "Z" in
             pose proof (zero_lemma a E F) as Z; clear F;
             apply Ascii.eqb_eq in Z; subst a
         end;
  unfold month_or_day_zero, zero_pair, char_at in Hz; cbn [String.get] in Hz;
  date_nonzero nonzero_lemma Hz;
  vm_compute in Hz; discriminate Hz.

(** Follow in the goal the way a run took. *)
Ltac date_replay left_lemma right_lemma nonzero_lemma zero_lemma Hz Hk :=
  cbn [run cat alt fold_right rep_loop prev rest group String.eqb Ascii.eqb
         Bool.eqb Nat.eqb pred andb];
  lazymatch goal with
  | |- orelse _ _ _ <> None =>
      first [ apply left_lemma;
              date_replay left_lemma right_lemma nonzero_lemma zero_lemma Hz Hk
            | apply right_lemma;
              date_replay left_lemma right_lemma nonzero_lemma zero_lemma Hz Hk ]
  | |- one _ _ _ _ _ <> None =>
      unfold one at 1; cbn [rest];
      date_replay left_lemma right_lemma nonzero_lemma zero_lemma Hz Hk
  | |- (if class_matches ?items ?a then _ else _) <> None =>
      first [ match goal with
              | E : class_matches items a = true |- _ => rewrite E
              end;
              date_replay left_lemma right_lemma nonzero_lemma zero_lemma Hz Hk
            | destruct (class_matches items a) eqn:?;
              [ date_replay left_lemma right_lemma nonzero_lemma zero_lemma Hz Hk
              | date_zero nonzero_lemma zero_lemma Hz ] ]
  | |- _ => rewrite Hk; discriminate
  end.

(** ** Proof steps shared by the methods

    [open_method] runs a method up to its guard, given the lemma that reads
    [is_list]; [simple_method] goes on through [get_item], given the lemma
    that reads it, for a method that then answers from the item. *)

Ltac open_method is_list_lemma Hwf :=
  unfold guarded, bind;
  rewrite (is_list_lemma _ Hwf);
  match goal with
  | |- context [(1 <? List.length (items ?s)) && is_None ?i] =>
      change ((1 <? List.length (items s)) && is_None i) with (whole_list s i);
      destruct (whole_list s i) eqn:G; [reflexivity|]
  end.

Ltac simple_method is_list_lemma get_item_lemma Hwf :=
  open_method is_list_lemma Hwf;
  rewrite get_item_lemma;
  match goal with
  | |- context [item_of ?s ?i] => destruct (item_of s i) as [v|]; [|reflexivity]
  end;
  first
    [ reflexivity
    | match goal with
      | |- context [if ?b then _ else _] => destruct b; reflexivity
      end ].

(** * Properties *)

(** ** Strings *)

Lemma append_empty_r (s : string) : s ++ EmptyString = s.
Proof. induction s as [|a s IH]; simpl; congruence. Qed.

Lemma append_assoc (s t u : string) : (s ++ t) ++ u = s ++ (t ++ u).
Proof. induction s as [|a s IH]; simpl; congruence. Qed.

Lemma onto_empty (l : list string) : onto EmptyString l = l.
Proof. destruct l; reflexivity. Qed.

Lemma separator_not_backslash : Ascii.eqb LIST_SEPARATOR backslash = false.
Proof. reflexivity. Qed.

(** ** The list split *)

(** The split pattern matches one separator that no backslash precedes. *)
Lemma match_at_split_list_re (p : pos) :
  match_at split_list_re p =
  match rest p with
  | String a s' =>
      if Ascii.eqb a LIST_SEPARATOR && negb (is_backslash (prev p))
      then Some s' else None
  | EmptyString => None
  end.
Proof.
  destruct p as [[c|] [|a s']]; cbn -[Ascii.eqb LIST_SEPARATOR backslash].
  - destruct (Ascii.eqb c backslash); reflexivity.
  - destruct (Ascii.eqb c backslash); cbn -[Ascii.eqb LIST_SEPARATOR backslash].
    + rewrite andb_false_r. reflexivity.
    + rewrite andb_true_r. destruct (Ascii.eqb a LIST_SEPARATOR); reflexivity.
  - reflexivity.
  - rewrite andb_true_r. destruct (Ascii.eqb a LIST_SEPARATOR); reflexivity.
Qed.

Lemma split_plain_nonempty (esc : bool) (s : string) : split_plain esc s <> [].
Proof.
  revert esc. induction s as [|a s IH]; intros esc; simpl.
  - discriminate.
  - destruct (Ascii.eqb a LIST_SEPARATOR && negb esc); [discriminate|].
    specialize (IH (Ascii.eqb a backslash)).
    destruct (split_plain (Ascii.eqb a backslash) s); [congruence|discriminate].
Qed.

(** The scan of [re.split], with enough fuel, is the direct reading. *)
Lemma split_from_plain (fuel : nat) :
  forall (s : string) (c : option ascii) (piece : string),
    String.length s < fuel ->
    split_from split_list_re fuel (mkPos c s) piece
    = onto piece (split_plain (is_backslash c) s).
Proof.
  induction fuel as [|fuel IH]; intros s c piece Hlen; [lia|].
  cbn [split_from]. rewrite match_at_split_list_re. cbn [rest prev].
  destruct s as [|a s'].
  - simpl. now rewrite append_empty_r.
  - cbn [String.length] in Hlen. cbn [split_plain].
    destruct (Ascii.eqb a LIST_SEPARATOR && negb (is_backslash c)) eqn:Hsep.
    + assert (Hlt : (String.length s' <? String.length (String a s')) = true)
        by (apply Nat.ltb_lt; cbn [String.length]; lia).
      rewrite Hlt.
      replace (String.length (String a s') - String.length s') with 1
        by (cbn [String.length]; lia).
      cbn [take last_char]. rewrite IH by lia.
      apply andb_prop in Hsep. destruct Hsep as [Ha _].
      apply Ascii.eqb_eq in Ha. subst a.
      cbn [is_backslash]. rewrite separator_not_backslash.
      rewrite onto_empty. cbn [onto]. now rewrite append_empty_r.
    + rewrite IH by lia. cbn [is_backslash].
      pose proof (split_plain_nonempty (Ascii.eqb a backslash) s') as Hne.
      destruct (split_plain (Ascii.eqb a backslash) s') as [|h t]; [congruence|].
      cbn [onto]. now rewrite append_assoc.
Qed.

Lemma re_split_plain (s : string) :
  re_split split_list_re s = split_plain false s.
Proof.
  unfold re_split. rewrite split_from_plain by lia. apply onto_empty.
Qed.

(** No item of a split holds a separator that would split it again. *)
Lemma split_plain_items (s : string) :
  forall esc : bool,
  exists h t,
    split_plain esc s = h :: t
    /\ split_plain esc h = [h]
    /\ Forall (fun v => split_plain false v = [v]) t.
Proof.
  induction s as [|a s IH]; intros esc.
  - exists EmptyString, []. repeat split; constructor.
  - cbn [split_plain].
    destruct (Ascii.eqb a LIST_SEPARATOR && negb esc) eqn:Hsep.
    + destruct (IH false) as (h & t & Hs & Hh & Ht).
      exists EmptyString, (h :: t). rewrite Hs.
      repeat split. constructor; assumption.
    + destruct (IH (Ascii.eqb a backslash)) as (h & t & Hs & Hh & Ht).
      exists (String a h), t. rewrite Hs.
      repeat split; [|assumption].
      cbn [split_plain]. rewrite Hsep, Hh. reflexivity.
Qed.

Lemma items_not_lists (s v : string) :
  In v (re_split split_list_re s) -> re_split split_list_re v = [v].
Proof.
  rewrite !re_split_plain.
  destruct (split_plain_items s false) as (h & t & Hs & Hh & Ht).
  rewrite Hs. intros [<-|Hin]; [assumption|].
  rewrite Forall_forall in Ht. now apply Ht.
Qed.

(** Text added after an item that does not split. *)
Lemma split_plain_app (a s : string) :
  forall esc : bool,
    split_plain esc a = [a] ->
    split_plain esc (a ++ s)
    = onto a (split_plain (is_backslash (last_char a (if esc then Some backslash else None))) s).
Proof.
  induction a as [|c a IH]; intros esc Ha.
  - cbn [append last_char]. rewrite onto_empty.
    destruct esc; reflexivity.
  - cbn [append split_plain last_char] in *.
    destruct (Ascii.eqb c LIST_SEPARATOR && negb esc); [discriminate|].
    pose proof (split_plain_nonempty (Ascii.eqb c backslash) a) as Hne.
    destruct (split_plain (Ascii.eqb c backslash) a) as [|h t] eqn:Hs;
      [congruence|].
    injection Ha as Hh Ht. subst h t.
    rewrite (IH _ Hs).
    assert (Hl : forall d1 d2, is_backslash d1 = is_backslash d2 ->
                 is_backslash (last_char a d1) = is_backslash (last_char a d2)).
    { clear. induction a as [|x a IHa]; intros d1 d2 Hd; cbn [last_char];
        [assumption|now apply IHa]. }
    rewrite (Hl _ (Some c)) by (destruct (Ascii.eqb c backslash) eqn:E; simpl; now rewrite ?E).
    pose proof (split_plain_nonempty (is_backslash (last_char a (Some c))) s) as Hn'.
    destruct (split_plain (is_backslash (last_char a (Some c))) s); [congruence|].
    reflexivity.
Qed.

(** Two items joined by a separator split into the two. *)
Lemma split_two_items (a b : string) :
  re_split split_list_re a = [a] ->
  re_split split_list_re b = [b] ->
  ends_with backslash a = false ->
  re_split split_list_re (a ++ String LIST_SEPARATOR b) = [a; b].
Proof.
  rewrite !re_split_plain. intros Ha Hb He.
  rewrite (split_plain_app _ _ _ Ha).
  unfold ends_with in He. cbn [split_plain].
  replace (is_backslash (last_char a None)) with false
    by (destruct (last_char a None); [symmetry; exact He|reflexivity]).
  cbn [negb]. rewrite andb_true_r, Ascii.eqb_refl. rewrite Hb.
  cbn [onto]. now rewrite append_empty_r.
Qed.

(** ** Groups of a successful match *)

Section Captured.

Variable name : string.
Variable R : Type.

Lemma keeps_refl (caps : captures) : keeps name caps caps.
Proof. intros H; exact H. Qed.

Lemma keeps_trans (c1 c2 c3 : captures) :
  keeps name c1 c2 -> keeps name c2 c3 -> keeps name c1 c3.
Proof. unfold keeps; auto. Qed.

Lemma one_reaches (ok : ascii -> bool) (p : pos) (caps : captures)
  (k : cont R) (res : R) :
  one R ok p caps k = Some res ->
  exists p' caps', k p' caps' = Some res /\ keeps name caps caps'.
Proof.
  unfold one. destruct (rest p) as [|a s']; [discriminate|].
  destruct (ok a); [|discriminate].
  intros H. eexists _, caps. split; [exact H|apply keeps_refl].
Qed.

Lemma star_loop_reaches (body : pos -> captures -> cont R -> option R) :
  (forall p caps k res, body p caps k = Some res ->
     exists p' caps', k p' caps' = Some res /\ keeps name caps caps') ->
  forall fuel p caps k res,
    star_loop R body fuel p caps k = Some res ->
    exists p' caps', k p' caps' = Some res /\ keeps name caps caps'.
Proof.
  intros Hb. induction fuel as [|fuel IH]; intros p caps k res H; cbn [star_loop] in H.
  - exists p, caps. split; [exact H|apply keeps_refl].
  - unfold orelse in H.
    match type of H with match ?b with _ => _ end = _ => destruct b eqn:E end.
    + injection H as ->. apply Hb in E.
      destruct E as (p1 & c1 & E & K1).
      destruct (String.length (rest p1) <? String.length (rest p)); [|discriminate].
      apply IH in E. destruct E as (p2 & c2 & E & K2).
      exists p2, c2. split; [exact E|eapply keeps_trans; eassumption].
    + exists p, caps. split; [exact H|apply keeps_refl].
Qed.

Lemma rep_loop_reaches (body : pos -> captures -> cont R -> option R) (d : bool) :
  (forall p caps k res, body p caps k = Some res ->
     exists p' caps', k p' caps' = Some res /\ keeps name caps caps'
                      /\ (d = true -> group name caps' <> None)) ->
  forall hi lo p caps k res,
    rep_loop R body lo hi p caps k = Some res ->
    exists p' caps', k p' caps' = Some res /\ keeps name caps caps'
                     /\ ((0 <? lo) && d = true -> group name caps' <> None).
Proof.
  intros Hb. induction hi as [|hi IH]; intros lo p caps k res H; cbn [rep_loop] in H.
  - destruct lo; [|discriminate]. cbn in H.
    exists p, caps. repeat split; [exact H|apply keeps_refl|discriminate].
  - unfold orelse in H.
    match type of H with match ?b with _ => _ end = _ => destruct b eqn:E end.
    + injection H as ->. apply Hb in E.
      destruct E as (p1 & c1 & E & K1 & D1).
      apply IH in E. destruct E as (p2 & c2 & E & K2 & _).
      exists p2, c2. repeat split; [exact E|eapply keeps_trans; eassumption|].
      intros Hd. apply andb_prop in Hd. destruct Hd as [_ Hd].
      apply K2, D1, Hd.
    + destruct lo; [|discriminate]. cbn in H.
      exists p, caps. repeat split; [exact H|apply keeps_refl|discriminate].
Qed.

(** A successful run hands its continuation captures in which the groups
    set before are still set, and so is [name] when [r] defines it. *)
Lemma run_reaches (r : regex) :
  forall p caps k res,
    run R r p caps k = Some res ->
    exists p' caps', k p' caps' = Some res /\ keeps name caps caps'
                     /\ (defines name r = true -> group name caps' <> None).
Proof.
  induction r as [|c| |its|its|r1 IH1 r2 IH2|r1 IH1 r2 IH2|r IH|r IH|r IH
                 |lo hi r IH|n r IH|n r IH| | |c];
    intros p caps k res H; cbn [run defines] in *.
  - exists p, caps. repeat split; [exact H|apply keeps_refl|discriminate].
  - apply one_reaches in H. destruct H as (p' & c' & H & K).
    exists p', c'. repeat split; [exact H|exact K|discriminate].
  - apply one_reaches in H. destruct H as (p' & c' & H & K).
    exists p', c'. repeat split; [exact H|exact K|discriminate].
  - apply one_reaches in H. destruct H as (p' & c' & H & K).
    exists p', c'. repeat split; [exact H|exact K|discriminate].
  - apply one_reaches in H. destruct H as (p' & c' & H & K).
    exists p', c'. repeat split; [exact H|exact K|discriminate].
  - apply IH1 in H. destruct H as (p1 & c1 & H & K1 & D1).
    apply IH2 in H. destruct H as (p2 & c2 & H & K2 & D2).
    exists p2, c2. repeat split; [exact H|eapply keeps_trans; eassumption|].
    intros Hd. apply orb_prop in Hd. destruct Hd as [Hd|Hd]; auto.
  - unfold orelse in H.
    match type of H with match ?b with _ => _ end = _ => destruct b eqn:E end.
    + injection H as ->. apply IH1 in E. destruct E as (p1 & c1 & E & K1 & D1).
      exists p1, c1. repeat split; [exact E|exact K1|].
      intros Hd. apply andb_prop in Hd. apply D1, Hd.
    + apply IH2 in H. destruct H as (p2 & c2 & H & K2 & D2).
      exists p2, c2. repeat split; [exact H|exact K2|].
      intros Hd. apply andb_prop in Hd. apply D2, Hd.
  - apply star_loop_reaches in H.
    + destruct H as (p' & c' & H & K).
      exists p', c'. repeat split; [exact H|exact K|discriminate].
    + intros p0 c0 k0 r0 H0. apply IH in H0.
      destruct H0 as (p' & c' & H0 & K & _). eauto.
  - apply IH in H. destruct H as (p1 & c1 & H & K1 & D1).
    apply star_loop_reaches in H.
    + destruct H as (p2 & c2 & H & K2).
      exists p2, c2. repeat split; [exact H|eapply keeps_trans; eassumption|].
      intros Hd. apply K2, D1, Hd.
    + intros p0 c0 k0 r0 H0. apply IH in H0.
      destruct H0 as (p' & c' & H0 & K & _). eauto.
  - unfold orelse in H.
    match type of H with match ?b with _ => _ end = _ => destruct b eqn:E end.
    + injection H as ->. apply IH in E. destruct E as (p1 & c1 & E & K1 & _).
      exists p1, c1. repeat split; [exact E|exact K1|discriminate].
    + exists p, caps. repeat split; [exact H|apply keeps_refl|discriminate].
  - apply (rep_loop_reaches _ (defines name r)) in H; [exact H|].
    intros p0 c0 k0 r0 H0. apply IH in H0. exact H0.
  - apply IH in H. destruct H as (p1 & c1 & H & K1 & D1).
    eexists p1, _. split; [exact H|].
    unfold keeps. cbn [group].
    destruct (String.eqb n name); cbn [orb].
    + repeat split; intros; discriminate.
    + split; [exact K1|exact D1].
  - destruct (group n caps).
    + apply IH in H. destruct H as (p1 & c1 & H & K1 & _).
      exists p1, c1. repeat split; [exact H|exact K1|discriminate].
    + exists p, caps. repeat split; [exact H|apply keeps_refl|discriminate].
  - destruct (prev p); [discriminate|].
    exists p, caps. repeat split; [exact H|apply keeps_refl|discriminate].
  - exists p, caps. repeat split; [|apply keeps_refl|discriminate].
    destruct (rest p) as [|a [|b s]]; [exact H| |discriminate].
    destruct (Ascii.eqb a newline); [exact H|discriminate].
  - exists p, caps. repeat split; [|apply keeps_refl|discriminate].
    destruct (prev p) as [a|]; [|exact H].
    destruct (Ascii.eqb a c); [discriminate|exact H].
Qed.

End Captured.

(** A group every match passes through is set in the result of [re.match]. *)
Lemma re_match_group (name : string) (r : regex) (s : string) (caps : captures) :
  defines name r = true ->
  re_match r s = Some caps ->
  exists g, group name caps = Some g.
Proof.
  intros Hd H. unfold re_match in H.
  apply (run_reaches name) in H.
  destruct H as (p' & c' & H & _ & D).
  injection H as ->.
  destruct (group name caps) as [g|]; [eauto|].
  now specialize (D Hd).
Qed.

(** ** The cache *)

Lemma wf_new (v : string) (o : KgtkValueOptions) : wf (new v o).
Proof. left. reflexivity. Qed.

Lemma wf_filled (self : KgtkValue) : wf (filled self).
Proof. right. reflexivity. Qed.

Lemma filled_filled (self : KgtkValue) : filled (filled self) = filled self.
Proof. reflexivity. Qed.

Lemma get_list_spec (self : KgtkValue) :
  wf self -> get_list self = Some (items self, filled self).
Proof.
  intros [H|H]; unfold get_list; rewrite H.
  - reflexivity.
  - destruct self as [v o c]. cbn in *. subst c. reflexivity.
Qed.

Lemma is_list_spec (self : KgtkValue) :
  wf self -> is_list self = Some (1 <? List.length (items self), filled self).
Proof.
  intros H. unfold is_list, bind. rewrite (get_list_spec _ H). reflexivity.
Qed.

Lemma get_item_filled (idx : option Z) (self : KgtkValue) :
  get_item idx (filled self)
  = match item_of self idx with
    | Some v => Some (v, filled self)
    | None => None
    end.
Proof.
  destruct idx as [i|]; cbn [get_item item_of]; [|reflexivity].
  unfold bind. rewrite (get_list_spec _ (wf_filled self)).
  change (items (filled self)) with (items self).
  destruct (py_index (items self) i); reflexivity.
Qed.

Lemma guarded_filled {A : Type} (P : KgtkValueOptions -> string -> A) (d : A)
  (idx : option Z) (self : KgtkValue) :
  guarded P d idx (filled self) = guarded P d idx self.
Proof. reflexivity. Qed.

(** A guarded method called again, past the guard. *)
Lemma at_filled {A : Type} (m : option Z -> M A)
  (P : KgtkValueOptions -> string -> A) (d : A) :
  (forall idx self, wf self -> m idx self = guarded P d idx self) ->
  forall idx self v,
    whole_list self idx = false ->
    item_of self idx = Some v ->
    m idx (filled self) = Some (P (options self) v, filled self).
Proof.
  intros Hm idx self v G Hv.
  rewrite (Hm _ _ (wf_filled self)), guarded_filled.
  unfold guarded. now rewrite G, Hv.
Qed.

(** An item of a split, taken as a cell of its own, is no list. *)
Lemma item_whole_list (s v : string) (o : KgtkValueOptions) :
  In v (re_split split_list_re s) -> whole_list (new v o) None = false.
Proof.
  intros H. unfold whole_list, items. cbn [value new].
  rewrite (items_not_lists _ _ H). reflexivity.
Qed.

(** ** The methods, item by item *)

Lemma is_empty_spec (idx : option Z) (self : KgtkValue) :
  wf self ->
  is_empty idx self = guarded (fun _ v => String.length v =? 0) false idx self.
Proof. intros Hwf. unfold is_empty. simple_method is_list_spec get_item_filled Hwf. Qed.

Lemma is_number_or_quantity_spec (idx : option Z) (self : KgtkValue) :
  wf self ->
  is_number_or_quantity idx self
  = guarded (fun _ v => starts_with_any number_prefixes v) false idx self.
Proof. intros Hwf. unfold is_number_or_quantity. simple_method is_list_spec get_item_filled Hwf. Qed.

Lemma is_valid_number_or_quantity_spec (idx : option Z) (self : KgtkValue) :
  wf self ->
  is_valid_number_or_quantity idx self
  = guarded (fun _ v => item_valid_number_or_quantity v) false idx self.
Proof.
  intros Hwf. unfold is_valid_number_or_quantity, item_valid_number_or_quantity.
  simple_method is_list_spec get_item_filled Hwf.
Qed.

Lemma is_valid_number_spec (idx : option Z) (self : KgtkValue) :
  wf self ->
  is_valid_number idx self
  = guarded (fun _ v => item_valid_number v) false idx self.
Proof.
  intros Hwf. unfold is_valid_number, item_valid_number. simple_method is_list_spec get_item_filled Hwf.
Qed.

Lemma is_valid_quantity_spec (idx : option Z) (self : KgtkValue) :
  wf self ->
  is_valid_quantity idx self
  = guarded (fun _ v => item_valid_quantity v) false idx self.
Proof.
  intros Hwf. unfold is_valid_quantity, item_valid_quantity. simple_method is_list_spec get_item_filled Hwf.
Qed.

Lemma is_string_spec (idx : option Z) (self : KgtkValue) :
  wf self ->
  is_string idx self = guarded (fun _ v => starts_with dquote v) false idx self.
Proof. intros Hwf. unfold is_string. simple_method is_list_spec get_item_filled Hwf. Qed.

Lemma is_valid_string_spec (idx : option Z) (self : KgtkValue) :
  wf self ->
  is_valid_string idx self = guarded item_valid_string false idx self.
Proof.
  intros Hwf. unfold is_valid_string, item_valid_string. simple_method is_list_spec get_item_filled Hwf.
Qed.

Lemma is_structured_literal_spec (idx : option Z) (self : KgtkValue) :
  wf self ->
  is_structured_literal idx self
  = guarded (fun _ v => starts_with_any ["^"; "@"; "'"; "!"]%char v) false idx self.
Proof. intros Hwf. unfold is_structured_literal. simple_method is_list_spec get_item_filled Hwf. Qed.

Lemma is_language_qualified_string_spec (idx : option Z) (self : KgtkValue) :
  wf self ->
  is_language_qualified_string idx self
  = guarded (fun _ v => starts_with "'" v) false idx self.
Proof. intros Hwf. unfold is_language_qualified_string. simple_method is_list_spec get_item_filled Hwf. Qed.

Lemma is_location_coordinates_spec (idx : option Z) (self : KgtkValue) :
  wf self ->
  is_location_coordinates idx self
  = guarded (fun _ v => starts_with "@" v) false idx self.
Proof. intros Hwf. unfold is_location_coordinates. simple_method is_list_spec get_item_filled Hwf. Qed.

Lemma is_date_and_times_spec (idx : option Z) (self : KgtkValue) :
  wf self ->
  is_date_and_times idx self
  = guarded (fun _ v => starts_with "^" v) false idx self.
Proof. intros Hwf. unfold is_date_and_times. simple_method is_list_spec get_item_filled Hwf. Qed.

Lemma is_valid_date_and_times_spec (idx : option Z) (self : KgtkValue) :
  wf self ->
  is_valid_date_and_times idx self
  = guarded item_valid_date_and_times false idx self.
Proof.
  intros Hwf. unfold is_valid_date_and_times, item_valid_date_and_times.
  simple_method is_list_spec get_item_filled Hwf.
Qed.

Lemma is_extension_spec (idx : option Z) (self : KgtkValue) :
  wf self ->
  is_extension idx self = guarded (fun _ v => starts_with "!" v) false idx self.
Proof. intros Hwf. unfold is_extension. simple_method is_list_spec get_item_filled Hwf. Qed.

Lemma is_boolean_spec (T F : string) (idx : option Z) (self : KgtkValue) :
  wf self ->
  is_boolean T F idx self
  = guarded (fun _ v => String.eqb v T || String.eqb v F) false idx self.
Proof. intros Hwf. unfold is_boolean. simple_method is_list_spec get_item_filled Hwf. Qed.

Lemma is_valid_location_coordinates_spec (idx : option Z) (self : KgtkValue) :
  wf self ->
  is_valid_location_coordinates idx self
  = guarded (fun _ v => item_valid_location_coordinates v) false idx self.
Proof.
  intros Hwf. unfold is_valid_location_coordinates, item_valid_location_coordinates.
  open_method is_list_spec Hwf. rewrite get_item_filled.
  destruct (item_of self idx) as [v|]; [|reflexivity].
  destruct (re_match location_coordinates_re v) as [m|] eqn:E; [|reflexivity].
  destruct (re_match_group "lat" location_coordinates_re v m eq_refl E) as [lat Hlat].
  destruct (re_match_group "lon" location_coordinates_re v m eq_refl E) as [lon Hlon].
  rewrite Hlat, Hlon. unfold in_bounds.
  destruct (float_of lat) as [x|]; [|reflexivity].
  destruct (float_lt_minus 90 47 x || float_gt 90 47 x); [reflexivity|].
  destruct (float_of lon) as [y|]; [|reflexivity].
  destruct (float_lt_minus 180 46 y || float_gt 180 46 y); reflexivity.
Qed.

Lemma is_symbol_spec (idx : option Z) (self : KgtkValue) :
  wf self ->
  is_symbol idx self = guarded (fun _ v => item_symbol v) false idx self.
Proof.
  intros Hwf. unfold is_symbol, or_else, item_symbol. open_method is_list_spec Hwf.
  unfold guarded. destruct (item_of self idx) as [v|] eqn:Hv.
  - rewrite (at_filled _ _ _ is_number_or_quantity_spec _ _ _ G Hv).
    destruct (starts_with_any number_prefixes v); [reflexivity|].
    rewrite (at_filled _ _ _ is_string_spec _ _ _ G Hv).
    destruct (starts_with dquote v); [reflexivity|].
    rewrite (at_filled _ _ _ is_structured_literal_spec _ _ _ G Hv).
    reflexivity.
  - rewrite (is_number_or_quantity_spec _ _ (wf_filled self)), guarded_filled.
    unfold guarded. now rewrite G, Hv.
Qed.

Section Properties.

Variables alpha_2 alpha_3 part5 : string -> bool.

Lemma is_valid_language_qualified_string_spec (idx : option Z) (self : KgtkValue) :
  wf self ->
  is_valid_language_qualified_string alpha_2 alpha_3 part5 idx self
  = guarded (item_valid_language_qualified_string alpha_2 alpha_3 part5)
      false idx self.
Proof.
  intros Hwf.
  unfold is_valid_language_qualified_string, item_valid_language_qualified_string.
  open_method is_list_spec Hwf. rewrite get_item_filled.
  destruct (item_of self idx) as [v|]; [|reflexivity].
  cbn [get_options options filled].
  assert (Hg : forall r, defines "lang" r = true ->
            match re_match r v with
            | Some m =>
                match group "lang" m with
                | Some g => Some (language_code_ok alpha_2 alpha_3 part5 (options self) (lower g), filled self)
                | None => None
                end
            | None => Some (false, filled self)
            end
            = Some
                (match re_match r v with
                 | Some m =>
                     match group "lang" m with
                     | Some g => language_code_ok alpha_2 alpha_3 part5 (options self) (lower g)
                     | None => false
                     end
                 | None => false
                 end, filled self)).
  { intros r Hd. destruct (re_match r v) as [m|] eqn:E; [|reflexivity].
    destruct (re_match_group "lang" r v m Hd E) as [g ->]. reflexivity. }
  assert (Hc : forall g,
            (let lang := lower g in
             if if String.length lang =? 2 then alpha_2 lang
                else if String.length lang =? 3
                     then if alpha_3 lang then true else part5 lang
                     else false
             then ret true
             else
               let lang' := if contains "-" lang then fst (split_once "-" lang) else lang in
               if if contains "-" lang
                  then
                    if if String.length lang' =? 2 then alpha_2 lang'
                       else if String.length lang' =? 3 then alpha_3 lang' else false
                    then true
                    else part5 lang'
                  else false
               then ret true
               else
                 if allow_additional_language_codes (options self)
                    && in_codes lang' (additional_language_codes (options self))
                 then ret true
                 else ret false) (filled self)
            = Some (language_code_ok alpha_2 alpha_3 part5 (options self) (lower g),
                    filled self)).
  { intros g. cbv zeta.
    unfold language_code_ok, registered, registered_primary, primary.
    repeat match goal with
           | |- context [if ?b then _ else _] =>
               lazymatch b with
               | context [if _ then _ else _] => fail
               | _ => destruct b eqn:?
               end
           end; reflexivity. }
  destruct (allow_lax_lq_strings (options self)).
  - rewrite <- (Hg lax_language_qualified_string_re eq_refl).
    destruct (re_match lax_language_qualified_string_re v) as [m|]; [|reflexivity].
    destruct (group "lang" m) as [g|]; [|reflexivity]. apply Hc.
  - rewrite <- (Hg strict_language_qualified_string_re eq_refl).
    destruct (re_match strict_language_qualified_string_re v) as [m|]; [|reflexivity].
    destruct (group "lang" m) as [g|]; [|reflexivity]. apply Hc.
Qed.

Lemma is_valid_literal_spec (idx : option Z) (self : KgtkValue) :
  wf self ->
  is_valid_literal alpha_2 alpha_3 part5 idx self
  = guarded (item_valid_literal alpha_2 alpha_3 part5) false idx self.
Proof.
  intros Hwf. unfold is_valid_literal, item_valid_literal. open_method is_list_spec Hwf.
  unfold guarded. destruct (item_of self idx) as [v|] eqn:Hv.
  - rewrite (at_filled _ _ _ is_string_spec _ _ _ G Hv).
    destruct (starts_with dquote v).
    { apply (at_filled _ _ _ is_valid_string_spec _ _ _ G Hv). }
    rewrite (at_filled _ _ _ is_number_or_quantity_spec _ _ _ G Hv).
    destruct (starts_with_any number_prefixes v).
    { apply (at_filled _ _ _ is_valid_number_or_quantity_spec _ _ _ G Hv). }
    rewrite (at_filled _ _ _ is_structured_literal_spec _ _ _ G Hv).
    destruct (starts_with_any ["^"; "@"; "'"; "!"]%char v); [|reflexivity].
    rewrite (at_filled _ _ _ is_language_qualified_string_spec _ _ _ G Hv).
    destruct (starts_with "'" v).
    { apply (at_filled _ _ _ is_valid_language_qualified_string_spec _ _ _ G Hv). }
    rewrite (at_filled _ _ _ is_location_coordinates_spec _ _ _ G Hv).
    destruct (starts_with "@" v).
    { apply (at_filled _ _ _ is_valid_location_coordinates_spec _ _ _ G Hv). }
    rewrite (at_filled _ _ _ is_date_and_times_spec _ _ _ G Hv).
    destruct (starts_with "^" v).
    { apply (at_filled _ _ _ is_valid_date_and_times_spec _ _ _ G Hv). }
    rewrite (at_filled _ _ _ is_extension_spec _ _ _ G Hv).
    destruct (starts_with "!" v); reflexivity.
  - rewrite (is_string_spec _ _ (wf_filled self)), guarded_filled.
    unfold guarded. now rewrite G, Hv.
Qed.

Lemma is_valid_item_spec (idx : option Z) (self : KgtkValue) :
  wf self ->
  is_valid_item alpha_2 alpha_3 part5 idx self
  = guarded (item_valid alpha_2 alpha_3 part5) false idx self.
Proof.
  intros Hwf. unfold is_valid_item, item_valid. open_method is_list_spec Hwf.
  unfold guarded. destruct (item_of self idx) as [v|] eqn:Hv.
  - rewrite (at_filled _ _ _ is_empty_spec _ _ _ G Hv).
    destruct (String.length v =? 0); [reflexivity|].
    rewrite (at_filled _ _ _ is_valid_literal_spec _ _ _ G Hv).
    destruct (item_valid_literal alpha_2 alpha_3 part5 (options self) v);
      [reflexivity|].
    apply (at_filled _ _ _ is_symbol_spec _ _ _ G Hv).
  - rewrite (is_empty_spec _ _ (wf_filled self)), guarded_filled.
    unfold guarded. now rewrite G, Hv.
Qed.

(** The loop of [is_valid] over the items of a split. *)
Lemma is_valid_loop_spec (s : string) (o : KgtkValueOptions) (l : list string) :
  (forall v, In v l -> In v (re_split split_list_re s)) ->
  forall result,
    is_valid_loop alpha_2 alpha_3 part5 (map (fun v => new v o) l) result
    = Some (result && forallb (item_valid alpha_2 alpha_3 part5 o) l).
Proof.
  induction l as [|v l IH]; intros Hin result; cbn [map is_valid_loop forallb].
  - now rewrite andb_true_r.
  - assert (Hl : forall x, In x l -> In x (re_split split_list_re s))
      by (intros x Hx; apply Hin; now right).
    destruct result.
    + rewrite (is_valid_item_spec None _ (wf_new v o)).
      unfold guarded.
      rewrite (item_whole_list s v o) by (apply Hin; now left).
      cbn [item_of new value options].
      rewrite (IH Hl). reflexivity.
    + rewrite (IH Hl). reflexivity.
Qed.

Lemma get_values_filled (self : KgtkValue) :
  get_values (filled self)
  = Some (map (fun v => new v (options self)) (items self), filled self).
Proof.
  unfold get_values. cbn [is_list_attribute negb]. unfold bind.
  rewrite (get_list_spec _ (wf_filled self)). reflexivity.
Qed.

Lemma get_values_spec (self : KgtkValue) :
  wf self ->
  get_values self
  = Some (map (fun v => new v (options self)) (items self), filled self).
Proof.
  intros Hwf. unfold get_values. cbn [is_list_attribute negb]. unfold bind.
  rewrite (get_list_spec _ Hwf). reflexivity.
Qed.

Lemma is_valid_spec (self : KgtkValue) :
  wf self ->
  is_valid alpha_2 alpha_3 part5 self
  = Some (forallb (item_valid alpha_2 alpha_3 part5 (options self)) (items self),
          filled self).
Proof.
  intros Hwf. unfold is_valid, bind. rewrite (get_values_spec _ Hwf).
  rewrite (is_valid_loop_spec (value self)) by (intros v Hv; exact Hv).
  reflexivity.
Qed.

(** [describe] on one item. *)
Lemma describe_item_spec (depth : nat) (idx : option Z) (self : KgtkValue) :
  wf self ->
  whole_list self idx = false ->
  describe alpha_2 alpha_3 part5 (S depth) idx self
  = match item_of self idx with
    | Some v => Some (item_describe alpha_2 alpha_3 part5 (options self) v, filled self)
    | None => None
    end.
Proof.
  intros Hwf G. cbn [describe]. unfold bind at 1.
  rewrite (is_list_spec _ Hwf).
  change ((1 <? List.length (items self)) && is_None idx) with (whole_list self idx).
  rewrite G. unfold bind, item_describe.
  destruct (item_of self idx) as [v|] eqn:Hv.
  - rewrite (at_filled _ _ _ is_empty_spec _ _ _ G Hv).
    destruct (String.length v =? 0); [reflexivity|].
    rewrite (at_filled _ _ _ is_string_spec _ _ _ G Hv).
    destruct (starts_with dquote v).
    { rewrite (at_filled _ _ _ is_valid_string_spec _ _ _ G Hv).
      destruct (item_valid_string (options self) v); reflexivity. }
    rewrite (at_filled _ _ _ is_number_or_quantity_spec _ _ _ G Hv).
    destruct (starts_with_any number_prefixes v).
    { rewrite (at_filled _ _ _ is_valid_number_spec _ _ _ G Hv).
      destruct (item_valid_number v); [reflexivity|].
      rewrite (at_filled _ _ _ is_valid_quantity_spec _ _ _ G Hv).
      destruct (item_valid_quantity v); reflexivity. }
    rewrite (at_filled _ _ _ is_structured_literal_spec _ _ _ G Hv).
    destruct (starts_with_any ["^"; "@"; "'"; "!"]%char v); [|reflexivity].
    rewrite (at_filled _ _ _ is_language_qualified_string_spec _ _ _ G Hv).
    destruct (starts_with "'" v).
    { rewrite (at_filled _ _ _ is_valid_language_qualified_string_spec _ _ _ G Hv).
      destruct (item_valid_language_qualified_string alpha_2 alpha_3 part5 (options self) v);
        reflexivity. }
    rewrite (at_filled _ _ _ is_location_coordinates_spec _ _ _ G Hv).
    destruct (starts_with "@" v).
    { rewrite (at_filled _ _ _ is_valid_location_coordinates_spec _ _ _ G Hv).
      destruct (item_valid_location_coordinates v); reflexivity. }
    rewrite (at_filled _ _ _ is_date_and_times_spec _ _ _ G Hv).
    destruct (starts_with "^" v).
    { rewrite (at_filled _ _ _ is_valid_date_and_times_spec _ _ _ G Hv).
      destruct (item_valid_date_and_times (options self) v); reflexivity. }
    rewrite (at_filled _ _ _ is_extension_spec _ _ _ G Hv).
    destruct (starts_with "!" v); reflexivity.
  - rewrite (is_empty_spec _ _ (wf_filled self)), guarded_filled.
    unfold guarded. now rewrite G, Hv.
Qed.

(** The loop of [describe] over the items of a split. *)
Lemma describe_loop_spec (depth : nat) (s : string) (o : KgtkValueOptions)
  (l : list string) :
  (forall v, In v l -> In v (re_split split_list_re s)) ->
  forall first result,
    describe_loop (describe alpha_2 alpha_3 part5 (S depth) None)
      (map (fun v => new v o) l) first result
    = Some
        (match l with
         | [] => result
         | _ :: _ =>
             (if first then result else result ++ String LIST_SEPARATOR EmptyString)
               ++ join_descriptions alpha_2 alpha_3 part5 o l
         end).
Proof.
  induction l as [|v l IH]; intros Hin first result; [reflexivity|].
  assert (Hl : forall x, In x l -> In x (re_split split_list_re s))
    by (intros x Hx; apply Hin; now right).
  cbn [map describe_loop].
  rewrite (describe_item_spec depth None _ (wf_new v o))
    by (apply (item_whole_list s); apply Hin; now left).
  cbn [item_of new value options].
  rewrite (IH Hl). destruct l as [|w l]; [reflexivity|].
  cbn [join_descriptions]. now rewrite !append_assoc.
Qed.

(** [describe] on a whole list. *)
Lemma describe_list_spec (depth : nat) (self : KgtkValue) :
  wf self ->
  whole_list self None = true ->
  describe alpha_2 alpha_3 part5 (S (S depth)) None self
  = Some (join_descriptions alpha_2 alpha_3 part5 (options self) (items self),
          filled self).
Proof.
  intros Hwf G. cbn [describe]. unfold bind at 1.
  rewrite (is_list_spec _ Hwf).
  change ((1 <? List.length (items self)) && is_None None) with (whole_list self None).
  rewrite G. unfold bind. rewrite get_values_filled.
  change (fun idx => ?f) with (describe alpha_2 alpha_3 part5 (S depth)).
  rewrite (describe_loop_spec depth (value self) (options self) (items self))
    by (intros v Hv; exact Hv).
  destruct (items self); reflexivity.
Qed.

End Properties.

(** ** What the hypotheses of the theorems give *)

Lemma is_list_answer (self : KgtkValue) (b : bool) :
  wf self ->
  answer (is_list self) = Some b ->
  (1 <? List.length (items self)) = b.
Proof.
  intros Hwf H. rewrite (is_list_spec _ Hwf) in H. cbn [answer] in H. congruence.
Qed.

Lemma get_item_answer (idx : option Z) (self : KgtkValue) :
  wf self -> answer (get_item idx self) = item_of self idx.
Proof.
  intros Hwf. destruct idx as [i|]; cbn [get_item item_of]; [|reflexivity].
  unfold bind. rewrite (get_list_spec _ Hwf).
  destruct (py_index (items self) i); reflexivity.
Qed.

Lemma guard_off (idx : option Z) (self : KgtkValue) :
  wf self ->
  (idx = None -> answer (is_list self) = Some false) ->
  whole_list self idx = false.
Proof.
  intros Hwf H. unfold whole_list. destruct idx as [i|].
  - apply andb_false_r.
  - rewrite (is_list_answer _ _ Hwf (H eq_refl)). reflexivity.
Qed.

(** A split with one item is the text itself. *)
Lemma split_plain_single (s : string) :
  forall esc h, split_plain esc s = [h] -> h = s.
Proof.
  induction s as [|a s IH]; intros esc h H; cbn [split_plain] in H.
  - congruence.
  - destruct (Ascii.eqb a LIST_SEPARATOR && negb esc).
    + pose proof (split_plain_nonempty false s) as Hne.
      destruct (split_plain false s); [congruence|discriminate].
    + destruct (split_plain (Ascii.eqb a backslash) s) as [|h' t] eqn:E;
        [discriminate|].
      injection H as <- ->. f_equal. eapply IH. exact E.
Qed.

Lemma not_list_items (self : KgtkValue) :
  (1 <? List.length (items self)) = false -> items self = [value self].
Proof.
  intros H. apply Nat.ltb_ge in H. unfold items in *.
  rewrite re_split_plain in *.
  pose proof (split_plain_nonempty false (value self)) as Hne.
  destruct (split_plain false (value self)) as [|h [|h' t]] eqn:E;
    [congruence| |cbn in H; lia].
  now rewrite (split_plain_single _ _ _ E).
Qed.

Lemma py_index_nat {A : Type} (l : list A) (j : nat) :
  py_index l (Z.of_nat j) = nth_error l j.
Proof.
  unfold py_index.
  destruct (0 <=? Z.of_nat j)%Z eqn:E; [now rewrite Nat2Z.id|].
  apply Z.leb_gt in E. lia.
Qed.

(** * The claims *)

(** C1: a date with the year and the hour alone, as in [^1960T00], is said
    to be valid under the strict and the lax options; the month-day group and
    the minute-second group of both patterns are not optional, so the
    validator answers False under either option (and likewise for the
    documented form YYYY-MM-DDTHH), while the full form is accepted. *)
Theorem C1_year_and_hour_alone_rejected :
  forall o : KgtkValueOptions,
    answer (is_valid_date_and_times None (new "^1960T00" o)) = Some false
    /\ answer (is_valid_date_and_times None (new "^1960-01-01T00" o)) = Some false
    /\ answer (is_valid_date_and_times None (new "^1960-01-01T00:00:00" o)) = Some true.
Proof.
  intros [[] s q a c]; repeat split; vm_compute; reflexivity.
Qed.

(** C2: a zone written as a sign and two hour digits, with optional minutes,
    is said to be accepted; the zone of both patterns reads an opening
    bracket, hyphens and a closing bracket where the sign should be, so
    [+05:00] and [-05] make the validator answer False, under either option,
    and the bracketed form is what it accepts. *)
Theorem C2_signed_zone_rejected :
  forall o : KgtkValueOptions,
    answer (is_valid_date_and_times None (new "^1960-01-01T00:00:00+05:00" o))
    = Some false
    /\ answer (is_valid_date_and_times None (new "^1960-01-01T00:00:00-05" o))
       = Some false
    /\ answer (is_valid_date_and_times None (new "^1960-01-01T00:00:00Z" o))
       = Some true
    /\ answer (is_valid_date_and_times None (new "^1960-01-01T00:00:00[-]05:00" o))
       = Some true.
Proof.
  intros [[] s q a c]; repeat split; vm_compute; reflexivity.
Qed.

(** C3: the prefixed binary, octal and hexadecimal literals [0b101], [0o277]
    and [0x24F] are said to be valid numbers; the three sub-patterns ask for
    a double quote and a colon before each digit and for the long suffix, so
    [is_valid_number] answers False on each of them. *)
Theorem C3_prefixed_integers_rejected :
  forall o : KgtkValueOptions,
    answer (is_valid_number None (new "0b101" o)) = Some false
    /\ answer (is_valid_number None (new "0o277" o)) = Some false
    /\ answer (is_valid_number None (new "0x24F" o)) = Some false.
Proof.
  intros o; repeat split; vm_compute; reflexivity.
Qed.

(** C5: coordinates are said to be valid exactly when both parts are signed
    decimals, a bare fraction included, within the bounds; in the pattern
    the sign belongs to the first branch of each alternation only, so the
    signed bare fraction of [@-.5/.5] is rejected although both values are
    within the bounds.  The spec's two examples come out as it says. *)
Theorem C5_signed_bare_fraction_rejected :
  forall o : KgtkValueOptions,
    answer (is_valid_location_coordinates None (new "@-.5/.5" o)) = Some false
    /\ answer (is_valid_location_coordinates None (new "@-0.5/.5" o)) = Some true
    /\ answer (is_valid_location_coordinates None (new "@043.26193/010.92708" o))
       = Some true
    /\ answer (is_valid_location_coordinates None (new "@100.0/0.0" o)) = Some false.
Proof.
  intros o; repeat split; vm_compute; reflexivity.
Qed.

(** C10: the strict Number and Quantity grammars overlap: the item [1J],
    which is no list, is a valid number (imaginary suffix) and a valid
    quantity (the number 1 with the unit J), and [describe] calls it
    "Number", the number check coming first. *)
Theorem C10_number_and_quantity_overlap :
  forall (alpha_2 alpha_3 part5 : string -> bool) (o : KgtkValueOptions)
    (depth : nat),
    answer (is_list (new "1J" o)) = Some false
    /\ answer (is_valid_number None (new "1J" o)) = Some true
    /\ answer (is_valid_quantity None (new "1J" o)) = Some true
    /\ answer (describe alpha_2 alpha_3 part5 (S depth) None (new "1J" o))
       = Some "Number".
Proof.
  intros alpha_2 alpha_3 part5 o depth.
  split; [vm_compute; reflexivity|].
  split; [vm_compute; reflexivity|].
  split; [vm_compute; reflexivity|].
  rewrite (describe_item_spec alpha_2 alpha_3 part5 depth None _ (wf_new "1J" o))
    by (vm_compute; reflexivity).
  vm_compute. reflexivity.
Qed.

(** C9: on a cell whose split has more than one item, every predicate
    called without an item index answers False. *)
Theorem C9_whole_cell_guard :
  forall (TRUE_SYMBOL FALSE_SYMBOL : string)
    (alpha_2 alpha_3 part5 : string -> bool) (self : KgtkValue),
    wf self ->
    answer (is_list self) = Some true ->
    answer (is_empty None self) = Some false
    /\ answer (is_string None self) = Some false
    /\ answer (is_valid_string None self) = Some false
    /\ answer (is_number_or_quantity None self) = Some false
    /\ answer (is_valid_number None self) = Some false
    /\ answer (is_valid_quantity None self) = Some false
    /\ answer (is_valid_number_or_quantity None self) = Some false
    /\ answer (is_structured_literal None self) = Some false
    /\ answer (is_symbol None self) = Some false
    /\ answer (is_boolean TRUE_SYMBOL FALSE_SYMBOL None self) = Some false
    /\ answer (is_language_qualified_string None self) = Some false
    /\ answer (is_valid_language_qualified_string alpha_2 alpha_3 part5 None self)
       = Some false
    /\ answer (is_location_coordinates None self) = Some false
    /\ answer (is_valid_location_coordinates None self) = Some false
    /\ answer (is_date_and_times None self) = Some false
    /\ answer (is_valid_date_and_times None self) = Some false
    /\ answer (is_extension None self) = Some false
    /\ answer (is_valid_literal alpha_2 alpha_3 part5 None self) = Some false
    /\ answer (is_valid_item alpha_2 alpha_3 part5 None self) = Some false.
Proof.
  intros T F alpha_2 alpha_3 part5 self Hwf Hl.
  assert (G : whole_list self None = true).
  { unfold whole_list. now rewrite (is_list_answer _ _ Hwf Hl). }
  rewrite is_empty_spec, is_string_spec, is_valid_string_spec,
    is_number_or_quantity_spec, is_valid_number_spec, is_valid_quantity_spec,
    is_valid_number_or_quantity_spec, is_structured_literal_spec,
    is_symbol_spec, is_boolean_spec, is_language_qualified_string_spec,
    is_valid_language_qualified_string_spec, is_location_coordinates_spec,
    is_valid_location_coordinates_spec, is_date_and_times_spec,
    is_valid_date_and_times_spec, is_extension_spec, is_valid_literal_spec,
    is_valid_item_spec by exact Hwf.
  unfold guarded. rewrite G. repeat split.
Qed.

Lemma C9_whole_cell_guard_witness :
  wf (new "a|b" DEFAULT_KGTK_VALUE_OPTIONS)
  /\ answer (is_list (new "a|b" DEFAULT_KGTK_VALUE_OPTIONS)) = Some true
  /\ answer (is_empty None (new "a|b" DEFAULT_KGTK_VALUE_OPTIONS)) = Some false
  /\ answer (is_symbol None (new "a|b" DEFAULT_KGTK_VALUE_OPTIONS)) = Some false
  /\ answer (is_valid_item sample_alpha_2 sample_alpha_3 sample_part5 None
               (new "a|b" DEFAULT_KGTK_VALUE_OPTIONS)) = Some false.
Proof.
  pose proof (C9_whole_cell_guard "True" "False" sample_alpha_2 sample_alpha_3
                sample_part5 (new "a|b" DEFAULT_KGTK_VALUE_OPTIONS)
                (wf_new _ _) eq_refl) as H.
  split; [apply wf_new|]. split; [reflexivity|].
  split; [apply H|]. split; apply H.
Defined.

(** C8: coarse dispatch is total and exclusive.  For an item that is not
    empty (its first character is [c]), got from a cell either whole, the
    cell being no list, or by an index: each coarse predicate answers, and
    its answer is read off [c] alone; exactly one of [is_string],
    [is_number_or_quantity], [is_structured_literal] and [is_symbol] answers
    True; and when [is_structured_literal] does, exactly one of the four
    predicates for its kinds answers True. *)
Theorem C8_coarse_dispatch :
  forall (self : KgtkValue) (idx : option Z) (c : ascii) (r : string),
    wf self ->
    (idx = None -> answer (is_list self) = Some false) ->
    answer (get_item idx self) = Some (String c r) ->
    let s := Ascii.eqb c dquote in
    let n := existsb (Ascii.eqb c) number_prefixes in
    let t := existsb (Ascii.eqb c) ["^"; "@"; "'"; "!"]%char in
    let y := negb (n || s || t) in
    let q := Ascii.eqb c "'" in
    let l := Ascii.eqb c "@" in
    let d := Ascii.eqb c "^" in
    let e := Ascii.eqb c "!" in
    answer (is_string idx self) = Some s
    /\ answer (is_number_or_quantity idx self) = Some n
    /\ answer (is_structured_literal idx self) = Some t
    /\ answer (is_symbol idx self) = Some y
    /\ answer (is_language_qualified_string idx self) = Some q
    /\ answer (is_location_coordinates idx self) = Some l
    /\ answer (is_date_and_times idx self) = Some d
    /\ answer (is_extension idx self) = Some e
    /\ exactly_one [s; n; t; y]
    /\ (t = true -> exactly_one [q; l; d; e])
    /\ (t = false -> q = false /\ l = false /\ d = false /\ e = false).
Proof.
  intros self idx c r Hwf Hl Hv. cbv zeta.
  pose proof (guard_off _ _ Hwf Hl) as G.
  rewrite (get_item_answer _ _ Hwf) in Hv.
  rewrite is_string_spec, is_number_or_quantity_spec, is_structured_literal_spec,
    is_symbol_spec, is_language_qualified_string_spec,
    is_location_coordinates_spec, is_date_and_times_spec, is_extension_spec
    by exact Hwf.
  unfold guarded. rewrite G, Hv. unfold item_symbol, starts_with_any.
  cbn [answer starts_with existsb].
  repeat (split; [reflexivity|]).
  unfold exactly_one, number_prefixes.
  destruct c as [[] [] [] [] [] [] [] []]; vm_compute;
    (repeat split; try reflexivity; intros; try discriminate; repeat split).
Qed.

Lemma C8_coarse_dispatch_witness :
  wf (new "^1960" DEFAULT_KGTK_VALUE_OPTIONS)
  /\ answer (is_list (new "^1960" DEFAULT_KGTK_VALUE_OPTIONS)) = Some false
  /\ answer (is_string None (new "^1960" DEFAULT_KGTK_VALUE_OPTIONS)) = Some false
  /\ answer (is_structured_literal None (new "^1960" DEFAULT_KGTK_VALUE_OPTIONS))
     = Some true
  /\ answer (is_date_and_times None (new "^1960" DEFAULT_KGTK_VALUE_OPTIONS))
     = Some true.
Proof.
  pose proof (C8_coarse_dispatch (new "^1960" DEFAULT_KGTK_VALUE_OPTIONS)
                None "^"%char "1960" (wf_new _ _) (fun _ => eq_refl) eq_refl) as H.
  cbv zeta in H.
  split; [apply wf_new|]. split; [reflexivity|]. repeat split; apply H.
Defined.

Lemma forallb_id_map {A : Type} (f : A -> bool) (l : list A) :
  forallb (fun b => b) (map f l) = forallb f l.
Proof. induction l as [|a l IH]; cbn; congruence. Qed.

Lemma forallb_id_false (bs : list bool) :
  In false bs -> forallb (fun b => b) bs = false.
Proof.
  induction bs as [|b bs IH]; intros H; [contradiction|].
  cbn. destruct H as [->|H]; [reflexivity|].
  rewrite (IH H). apply andb_false_r.
Qed.

(** C6: [is_valid] of a cell is the conjunction of [is_valid_item] over the
    items of its split, whether an item is reached by its index in the cell
    or taken as a cell of its own, as [is_valid] does; an empty item counts
    as valid.  A cell of one item is valid exactly when [is_valid_item]
    says so of the cell, and one invalid item makes the cell invalid. *)
Theorem C6_is_valid_is_conjunction :
  forall (alpha_2 alpha_3 part5 : string -> bool) (self : KgtkValue),
    wf self ->
    exists (l : list string) (bs : list bool),
      answer (get_list self) = Some l
      /\ Forall2
           (fun v b =>
              answer (is_valid_item alpha_2 alpha_3 part5 None
                        (new v (options self))) = Some b
              /\ (String.length v = 0 -> b = true))
           l bs
      /\ (forall j b,
             nth_error bs j = Some b ->
             answer (is_valid_item alpha_2 alpha_3 part5 (Some (Z.of_nat j)) self)
             = Some b)
      /\ answer (is_valid alpha_2 alpha_3 part5 self)
         = Some (forallb (fun b => b) bs)
      /\ (List.length l = 1 ->
          answer (is_valid alpha_2 alpha_3 part5 self)
          = answer (is_valid_item alpha_2 alpha_3 part5 None self))
      /\ (In false bs -> answer (is_valid alpha_2 alpha_3 part5 self) = Some false).
Proof.
  intros alpha_2 alpha_3 part5 self Hwf.
  set (f := item_valid alpha_2 alpha_3 part5 (options self)).
  exists (items self), (map f (items self)).
  assert (Hv : answer (is_valid alpha_2 alpha_3 part5 self)
               = Some (forallb (fun b => b) (map f (items self)))).
  { rewrite (is_valid_spec _ _ _ _ Hwf), forallb_id_map. reflexivity. }
  split; [now rewrite (get_list_spec _ Hwf)|].
  split.
  { assert (H : forall l, (forall v, In v l -> In v (items self)) ->
              Forall2
                (fun v b =>
                   answer (is_valid_item alpha_2 alpha_3 part5 None
                             (new v (options self))) = Some b
                   /\ (String.length v = 0 -> b = true))
                l (map f l)).
    { induction l as [|v l IH]; intros Hin; cbn [map]; constructor.
      - rewrite (is_valid_item_spec _ _ _ None _ (wf_new v (options self))).
        unfold guarded.
        rewrite (item_whole_list (value self) v) by (apply Hin; now left).
        cbn [item_of new value options answer]. split; [reflexivity|].
        intros H0. unfold f, item_valid. now rewrite H0.
      - apply IH. intros x Hx. apply Hin. now right. }
    apply H. auto. }
  split.
  { intros j b Hj. rewrite nth_error_map in Hj.
    destruct (nth_error (items self) j) as [v|] eqn:E; [|discriminate].
    injection Hj as <-.
    rewrite (is_valid_item_spec _ _ _ _ _ Hwf). unfold guarded, whole_list.
    cbn [is_None item_of]. rewrite andb_false_r, py_index_nat, E. reflexivity. }
  split; [exact Hv|].
  split.
  { intros H1. rewrite Hv, forallb_id_map.
    assert (G : (1 <? List.length (items self)) = false)
      by (rewrite H1; reflexivity).
    rewrite (is_valid_item_spec _ _ _ _ _ Hwf). unfold guarded, whole_list.
    rewrite G. cbn [andb item_of answer].
    rewrite (not_list_items _ G). cbn [forallb]. now rewrite andb_true_r. }
  intros H. rewrite Hv. f_equal. now apply forallb_id_false.
Qed.

Lemma C6_is_valid_is_conjunction_witness :
  wf (new "abc|12xyz|" DEFAULT_KGTK_VALUE_OPTIONS)
  /\ exists (l : list string) (bs : list bool),
      answer (get_list (new "abc|12xyz|" DEFAULT_KGTK_VALUE_OPTIONS)) = Some l
      /\ answer (is_valid sample_alpha_2 sample_alpha_3 sample_part5
                   (new "abc|12xyz|" DEFAULT_KGTK_VALUE_OPTIONS))
         = Some (forallb (fun b => b) bs).
Proof.
  split; [apply wf_new|].
  destruct (C6_is_valid_is_conjunction sample_alpha_2 sample_alpha_3 sample_part5
              (new "abc|12xyz|" DEFAULT_KGTK_VALUE_OPTIONS) (wf_new _ _))
    as (l & bs & Hl & _ & _ & Hv & _).
  exists l, bs. split; assumption.
Defined.

(** C7: [describe] distributes over the separator.  For two items [a] and
    [b] that are no lists (neither holds an unescaped separator), [a] not
    ending in a backslash, the cell made of [a], the separator and [b] is
    described by the description of [a], the separator and the description
    of [b]; each call returns once the depth allows two nested calls.  What
    [b] ends in plays no part. *)
Theorem C7_describe_distributes_over_separator :
  forall (alpha_2 alpha_3 part5 : string -> bool) (a b : string)
    (o : KgtkValueOptions) (depth : nat),
    answer (is_list (new a o)) = Some false ->
    answer (is_list (new b o)) = Some false ->
    ends_with backslash a = false ->
    exists da db : string,
      answer (describe alpha_2 alpha_3 part5 (S (S depth)) None (new a o)) = Some da
      /\ answer (describe alpha_2 alpha_3 part5 (S (S depth)) None (new b o)) = Some db
      /\ answer (describe alpha_2 alpha_3 part5 (S (S depth)) None
                   (new (a ++ String LIST_SEPARATOR b) o))
         = Some (da ++ String LIST_SEPARATOR db).
Proof.
  intros alpha_2 alpha_3 part5 a b o depth Ha Hb He.
  apply (is_list_answer _ _ (wf_new a o)) in Ha.
  apply (is_list_answer _ _ (wf_new b o)) in Hb.
  pose proof (not_list_items _ Ha) as Ia.
  pose proof (not_list_items _ Hb) as Ib.
  unfold items in Ia, Ib. cbn [value new] in Ia, Ib.
  pose proof (split_two_items a b Ia Ib He) as Iab.
  exists (item_describe alpha_2 alpha_3 part5 o a),
         (item_describe alpha_2 alpha_3 part5 o b).
  split.
  { rewrite (describe_item_spec _ _ _ _ None _ (wf_new a o)); [reflexivity|].
    unfold whole_list. now rewrite Ha. }
  split.
  { rewrite (describe_item_spec _ _ _ _ None _ (wf_new b o)); [reflexivity|].
    unfold whole_list. now rewrite Hb. }
  rewrite (describe_list_spec _ _ _ _ _ (wf_new _ o)).
  - unfold items. cbn [value new options answer]. rewrite Iab. reflexivity.
  - unfold whole_list, items. cbn [value new]. rewrite Iab. reflexivity.
Qed.

Lemma C7_describe_distributes_over_separator_witness :
  answer (is_list (new "abc" DEFAULT_KGTK_VALUE_OPTIONS)) = Some false
  /\ answer (is_list (new "123" DEFAULT_KGTK_VALUE_OPTIONS)) = Some false
  /\ ends_with backslash "abc" = false
  /\ exists da db : string,
      answer (describe sample_alpha_2 sample_alpha_3 sample_part5 2 None
                (new "abc" DEFAULT_KGTK_VALUE_OPTIONS)) = Some da
      /\ answer (describe sample_alpha_2 sample_alpha_3 sample_part5 2 None
                   (new "123" DEFAULT_KGTK_VALUE_OPTIONS)) = Some db
      /\ answer (describe sample_alpha_2 sample_alpha_3 sample_part5 2 None
                   (new "abc|123" DEFAULT_KGTK_VALUE_OPTIONS))
         = Some (da ++ String LIST_SEPARATOR db).
Proof.
  split; [reflexivity|]. split; [reflexivity|]. split; [reflexivity|].
  exact (C7_describe_distributes_over_separator sample_alpha_2 sample_alpha_3
           sample_part5 "abc" "123" DEFAULT_KGTK_VALUE_OPTIONS 0
           eq_refl eq_refl eq_refl).
Defined.

(** C4, as the code has it: past the registry steps, the allow-list is asked
    about the tag as [lang] holds it then, which is the part before the first
    hyphen when the tag has one.  For an item that is no list and matches the
    pattern with the tag [g], when neither the lowercase tag nor, for a
    hyphenated tag, its primary part is known to the registries, the item is
    valid exactly when the allow-list is enabled and holds the primary part. *)
Theorem C4_allow_list_asks_primary_tag :
  forall (alpha_2 alpha_3 part5 : string -> bool) (o : KgtkValueOptions)
    (v : string) (m : captures) (g : string),
    answer (is_list (new v o)) = Some false ->
    (if allow_lax_lq_strings o
     then re_match lax_language_qualified_string_re v
     else re_match strict_language_qualified_string_re v) = Some m ->
    group "lang" m = Some g ->
    registered alpha_2 alpha_3 part5 (lower g) = false ->
    (contains "-" (lower g) = true ->
     registered_primary alpha_2 alpha_3 part5 (primary (lower g)) = false) ->
    answer (is_valid_language_qualified_string alpha_2 alpha_3 part5 None (new v o))
    = Some (allow_additional_language_codes o
            && in_codes (primary (lower g)) (additional_language_codes o)).
Proof.
  intros alpha_2 alpha_3 part5 o v m g Hl Hm Hg Hr Hp.
  apply (is_list_answer _ _ (wf_new v o)) in Hl.
  rewrite (is_valid_language_qualified_string_spec _ _ _ _ _ (wf_new v o)).
  unfold guarded, whole_list. rewrite Hl.
  cbn [andb item_of new value options answer].
  unfold item_valid_language_qualified_string. rewrite Hm, Hg.
  unfold language_code_ok. rewrite Hr.
  destruct (contains "-" (lower g)); [|reflexivity].
  now rewrite (Hp eq_refl).
Qed.

Lemma C4_allow_list_asks_primary_tag_witness :
  answer (is_list (new "'x'@mo-xx" (mkOptions false false false true ["mo"])))
  = Some false
  /\ registered sample_alpha_2 sample_alpha_3 sample_part5 "mo-xx" = false
  /\ registered_primary sample_alpha_2 sample_alpha_3 sample_part5 "mo" = false
  /\ answer (is_valid_language_qualified_string sample_alpha_2 sample_alpha_3
               sample_part5 None
               (new "'x'@mo-xx" (mkOptions false false false true ["mo"])))
     = Some true.
Proof.
  split; [reflexivity|]. split; [reflexivity|]. split; [reflexivity|].
  exact (C4_allow_list_asks_primary_tag sample_alpha_2 sample_alpha_3 sample_part5
           (mkOptions false false false true ["mo"]) "'x'@mo-xx"
           [("lang", "mo-xx"); ("string", "'x'")] "mo-xx"
           eq_refl eq_refl eq_refl eq_refl (fun _ => eq_refl)).
Defined.

(** C4 as stated fails: with the allow-list ["mo"] enabled and a registry
    that knows neither [mo-xx] nor [mo], the item ['x'@mo-xx] is valid
    although [mo-xx] itself is not in the list. *)
Lemma C4_original_tag_not_asked :
  allow_additional_language_codes (mkOptions false false false true ["mo"]) = true
  /\ in_codes "mo-xx" (additional_language_codes (mkOptions false false false true ["mo"]))
     = false
  /\ registered sample_alpha_2 sample_alpha_3 sample_part5 "mo-xx" = false
  /\ registered_primary sample_alpha_2 sample_alpha_3 sample_part5 "mo" = false
  /\ answer (is_valid_language_qualified_string sample_alpha_2 sample_alpha_3
               sample_part5 None
               (new "'x'@mo-xx" (mkOptions false false false true ["mo"])))
     = Some true
  /\ (forall alpha_2 alpha_3 part5 : string -> bool,
        answer (is_valid_language_qualified_string alpha_2 alpha_3 part5 None
                  (new "'x'@mo-xx" (mkOptions false false false true ["mo"])))
        = Some true).
Proof.
  repeat split; try (vm_compute; reflexivity).
  intros alpha_2 alpha_3 part5.
  rewrite (is_valid_language_qualified_string_spec _ _ _ _ _ (wf_new _ _)).
  unfold guarded.
  replace (whole_list (new "'x'@mo-xx" (mkOptions false false false true ["mo"])) None)
    with false by (vm_compute; reflexivity).
  cbn [item_of new value options answer].
  unfold item_valid_language_qualified_string.
  cbn [allow_lax_lq_strings].
  replace (re_match strict_language_qualified_string_re "'x'@mo-xx")
    with (Some [("lang", "mo-xx"); ("string", "'x'")]) by (vm_compute; reflexivity).
  cbn [group String.eqb Ascii.eqb Bool.eqb].
  change (lower "mo-xx") with "mo-xx".
  unfold language_code_ok, registered, registered_primary.
  change (primary "mo-xx") with "mo".
  cbn [String.length Nat.eqb contains Ascii.eqb Bool.eqb orb].
  destruct (alpha_2 "mo"); [reflexivity|].
  destruct (part5 "mo"); reflexivity.
Qed.

(** * Further properties *)

(** X1: an item of a cell's split, made a cell of its own as [get_values]
    does, is no list: the split never has to be applied twice. *)
Theorem X1_items_are_not_lists :
  forall (v : string) (o : KgtkValueOptions),
  exists l : list string,
    answer (get_list (new v o)) = Some l
    /\ l <> []
    /\ Forall (fun item => answer (is_list (new item o)) = Some false) l.
Proof.
  intros v o. exists (re_split split_list_re v).
  split; [reflexivity|]. split.
  - rewrite re_split_plain. apply split_plain_nonempty.
  - apply Forall_forall. intros item Hin.
    rewrite (is_list_spec _ (wf_new item o)).
    unfold items. cbn [value new answer].
    now rewrite (items_not_lists _ _ Hin).
Qed.

(** X2: called without an index, [is_valid] and [describe] answer on every
    cell: no lookup of a group and no index raises, and two nested calls of
    [describe] are all a cell needs. *)
Theorem X2_is_valid_and_describe_answer :
  forall (alpha_2 alpha_3 part5 : string -> bool) (v : string)
    (o : KgtkValueOptions) (depth : nat),
    (exists b, answer (is_valid alpha_2 alpha_3 part5 (new v o)) = Some b)
    /\ (exists d,
           answer (describe alpha_2 alpha_3 part5 (S (S depth)) None (new v o))
           = Some d).
Proof.
  intros alpha_2 alpha_3 part5 v o depth. split.
  - rewrite (is_valid_spec _ _ _ _ (wf_new v o)). eexists. reflexivity.
  - destruct (whole_list (new v o) None) eqn:G.
    + rewrite (describe_list_spec _ _ _ _ _ (wf_new v o) G). eexists. reflexivity.
    + rewrite (describe_item_spec _ _ _ _ None _ (wf_new v o) G).
      eexists. reflexivity.
Qed.

(** The examples of the spec, on the code, with a registry that knows
    [en] and not [xx]: the empty cell, a number, a quantity, a string with an
    unescaped inner quote (strict and lax), a language-qualified string with
    a known and an unknown tag (the latter with and without the allow-list),
    a date with month and day zero (strict and lax), and a numeric-looking
    item that matches no grammar, which is neither valid nor a symbol. *)
Example examples_of_the_spec :
  let describe' o v :=
    answer (describe sample_alpha_2 sample_alpha_3 sample_part5 2 None (new v o)) in
  let is_valid' o v :=
    answer (is_valid sample_alpha_2 sample_alpha_3 sample_part5 (new v o)) in
  let o := DEFAULT_KGTK_VALUE_OPTIONS in
  let quoted := String dquote ("ab" ++ String dquote ("c" ++ String dquote EmptyString)) in
  describe' o EmptyString = Some "Empty"
  /\ is_valid' o EmptyString = Some true
  /\ describe' o "123" = Some "Number"
  /\ describe' o "-12.5[1,2]m" = Some "Quantity"
  /\ describe' o quoted = Some "Invalid String"
  /\ describe' (mkOptions false true false false ["mo"]) quoted = Some "String"
  /\ describe' o "'hello'@en" = Some "Language Qualified String"
  /\ describe' o "'hello'@xx" = Some "Invalid Language Qualified String"
  /\ describe' (mkOptions false false false true ["xx"]) "'hello'@xx"
     = Some "Language Qualified String"
  /\ describe' o "^1960-00-00T00:00:00Z/9" = Some "Invalid Date and Times"
  /\ describe' (mkOptions true false false false ["mo"]) "^1960-00-00T00:00:00Z/9"
     = Some "Date and Times"
  /\ describe' o "12xyz" = Some "Invalid Number or Quantity"
  /\ is_valid' o "12xyz" = Some false.
Proof. cbv zeta. repeat split; vm_compute; reflexivity. Qed.

(** ** Where a successful run stops *)

Lemma last_char_app (w1 w2 : string) (d : option ascii) :
  last_char (w1 ++ w2) d = last_char w2 (last_char w1 d).
Proof.
  revert d. induction w1 as [|a w1 IH]; intros d; cbn [append last_char];
    [reflexivity|apply IH].
Qed.

Lemma in_all_ascii (a : ascii) : In a all_ascii.
Proof.
  unfold all_ascii. rewrite <- (ascii_nat_embedding a).
  apply in_map, in_seq. pose proof (nat_ascii_bounded a). lia.
Qed.

Lemma class_le_spec (f g : ascii -> bool) :
  class_le f g = true -> forall a, f a = true -> g a = true.
Proof.
  unfold class_le. rewrite forallb_forall. intros H a Ha.
  specialize (H a (in_all_ascii a)). now rewrite Ha in H.
Qed.

Lemma class_le_refl (f : ascii -> bool) : class_le f f = true.
Proof.
  unfold class_le. apply forallb_forall. intros a _. now destruct (f a).
Qed.

Lemma sub_refl (r : regex) : sub r r = true.
Proof.
  induction r; cbn [sub];
    rewrite ?IHr, ?IHr1, ?IHr2, ?Ascii.eqb_refl, ?String.eqb_refl,
      ?Nat.eqb_refl, ?class_le_refl; reflexivity.
Qed.

Lemma orelse_some_l {R : Type} (a b : option R) : a <> None -> orelse R a b <> None.
Proof. destruct a; [discriminate|congruence]. Qed.

Lemma orelse_some_r {R : Type} (a b : option R) : b <> None -> orelse R a b <> None.
Proof. destruct a; [discriminate|auto]. Qed.

Lemma orelse_cases {R : Type} (a b : option R) (res : R) :
  orelse R a b = Some res -> a = Some res \/ (a = None /\ b = Some res).
Proof. destruct a; cbn; intros H; [left; exact H|right; auto]. Qed.

Lemma stops_here (r' : regex) (p : pos) (c : captures) :
  (forall (R' : Type) (k' : cont R'), k' p c <> None -> run R' r' p c k' <> None) ->
  stops_at r' p c p c EmptyString.
Proof. intros H. repeat split. exact H. Qed.

Lemma one_stops (ok ok' : ascii -> bool) (R : Type) (p : pos) (c : captures)
  (k : cont R) (res : R) :
  (forall a, ok a = true -> ok' a = true) ->
  one R ok p c k = Some res ->
  exists p' w,
    k p' c = Some res
    /\ rest p = w ++ rest p'
    /\ prev p' = last_char w (prev p)
    /\ forall (R' : Type) (k' : cont R'),
         k' p' c <> None -> one R' ok' p c k' <> None.
Proof.
  intros Hle H. unfold one in *.
  destruct (rest p) as [|a s] eqn:E; [discriminate|].
  destruct (ok a) eqn:Ha; [|discriminate].
  exists (mkPos (Some a) s), (String a EmptyString).
  repeat split; [exact H|].
  intros R' k' Hk. now rewrite (Hle _ Ha).
Qed.

Section Stops.

Variables r r' : regex.

(** What the induction gives for the body of a repetition. *)
Hypothesis body_stops :
  forall (R : Type) p c (k : cont R) res,
    run R r p c k = Some res ->
    exists p' c' w, k p' c' = Some res /\ stops_at r' p c p' c' w.

Lemma star_loop_stops (fuel : nat) :
  forall (R : Type) p c (k : cont R) res,
    star_loop R (run R r) fuel p c k = Some res ->
    exists p' c' w,
      k p' c' = Some res
      /\ rest p = w ++ rest p'
      /\ prev p' = last_char w (prev p)
      /\ forall (R' : Type) (k' : cont R'),
           k' p' c' <> None -> star_loop R' (run R' r') fuel p c k' <> None.
Proof.
  induction fuel as [|fuel IH]; intros R p c k res H; cbn [star_loop] in H.
  - exists p, c, EmptyString. repeat split; [exact H|]. intros R' k' Hk. exact Hk.
  - apply orelse_cases in H. destruct H as [H|[_ H]].
    + apply body_stops in H. destruct H as (p1 & c1 & w1 & H & E1 & P1 & C1).
      destruct (String.length (rest p1) <? String.length (rest p)) eqn:Hlt;
        [|discriminate].
      apply IH in H. destruct H as (p2 & c2 & w2 & H & E2 & P2 & C2).
      exists p2, c2, (w1 ++ w2). split; [exact H|].
      split; [rewrite E1, E2; now rewrite append_assoc|].
      split; [rewrite P2, P1; now rewrite last_char_app|].
      intros R' k' Hk. cbn [star_loop]. apply orelse_some_l, C1.
      rewrite Hlt. now apply C2.
    + exists p, c, EmptyString. repeat split; [exact H|].
      intros R' k' Hk. cbn [star_loop]. now apply orelse_some_r.
Qed.

Lemma rep_loop_stops (hi : nat) :
  forall (lo : nat) (R : Type) p c (k : cont R) res,
    rep_loop R (run R r) lo hi p c k = Some res ->
    exists p' c' w,
      k p' c' = Some res
      /\ rest p = w ++ rest p'
      /\ prev p' = last_char w (prev p)
      /\ forall (R' : Type) (k' : cont R'),
           k' p' c' <> None -> rep_loop R' (run R' r') lo hi p c k' <> None.
Proof.
  induction hi as [|hi IH]; intros lo R p c k res H; cbn [rep_loop] in H.
  - destruct (lo =? 0) eqn:E; [|discriminate].
    exists p, c, EmptyString. repeat split; [exact H|].
    intros R' k' Hk. cbn [rep_loop]. now rewrite E.
  - apply orelse_cases in H. destruct H as [H|[_ H]].
    + apply body_stops in H. destruct H as (p1 & c1 & w1 & H & E1 & P1 & C1).
      apply IH in H. destruct H as (p2 & c2 & w2 & H & E2 & P2 & C2).
      exists p2, c2, (w1 ++ w2). split; [exact H|].
      split; [rewrite E1, E2; now rewrite append_assoc|].
      split; [rewrite P2, P1; now rewrite last_char_app|].
      intros R' k' Hk. cbn [rep_loop]. apply orelse_some_l, C1. now apply C2.
    + destruct (lo =? 0) eqn:E; [|discriminate].
      exists p, c, EmptyString. repeat split; [exact H|].
      intros R' k' Hk. cbn [rep_loop]. apply orelse_some_r. now rewrite E.
Qed.

End Stops.

(** A successful run of [r] stops somewhere, and every pattern that is [r]
    with wider classes can stop at the same place. *)
Lemma run_stops (r : regex) :
  forall r', sub r r' = true ->
  forall (R : Type) p cs (k : cont R) res,
    run R r p cs k = Some res ->
    exists p' cs' w, k p' cs' = Some res /\ stops_at r' p cs p' cs' w.
Proof.
  induction r as [|a| |xs|xs|r1 IH1 r2 IH2|r1 IH1 r2 IH2|r IH|r IH|r IH
                 |lo hi r IH|n r IH|n r IH| | |a];
    intros r' Hs;
    destruct r' as [|b| |ys|ys|s1 s2|s1 s2|s|s|s|lo' hi' s|n' s|n' s| | |b];
    try discriminate; cbn [sub] in Hs;
    intros R p cs k res H; cbn [run] in H.
  - (* Eps *)
    exists p, cs, EmptyString. split; [exact H|]. apply stops_here. auto.
  - (* Chr *)
    apply Ascii.eqb_eq in Hs. subst.
    apply (one_stops _ (fun x => Ascii.eqb x b)) in H; [|auto].
    destruct H as (p' & w & H & E & P & C). exists p', cs, w. repeat split; auto.
  - (* Dot *)
    apply (one_stops _ (fun x => negb (Ascii.eqb x newline))) in H; [|auto].
    destruct H as (p' & w & H & E & P & C). exists p', cs, w. repeat split; auto.
  - (* Cls *)
    apply (one_stops _ (class_matches ys)) in H;
      [|apply class_le_spec; exact Hs].
    destruct H as (p' & w & H & E & P & C). exists p', cs, w. repeat split; auto.
  - (* NCls *)
    apply (one_stops _ (fun x => negb (class_matches ys x))) in H.
    + destruct H as (p' & w & H & E & P & C). exists p', cs, w. repeat split; auto.
    + intros x Hx. apply negb_true_iff in Hx. apply negb_true_iff.
      destruct (class_matches ys x) eqn:Ex; [|reflexivity].
      now rewrite (class_le_spec _ _ Hs x Ex) in Hx.
  - (* Seq *)
    apply andb_prop in Hs. destruct Hs as [Hs1 Hs2].
    apply (IH1 _ Hs1) in H. destruct H as (p1 & c1 & w1 & H & E1 & P1 & C1).
    apply (IH2 _ Hs2) in H. destruct H as (p2 & c2 & w2 & H & E2 & P2 & C2).
    exists p2, c2, (w1 ++ w2). split; [exact H|].
    split; [rewrite E1, E2; now rewrite append_assoc|].
    split; [rewrite P2, P1; now rewrite last_char_app|].
    intros R' k' Hk. cbn [run]. apply C1. now apply C2.
  - (* Alt *)
    apply andb_prop in Hs. destruct Hs as [Hs1 Hs2].
    apply orelse_cases in H. destruct H as [H|[_ H]].
    + apply (IH1 _ Hs1) in H. destruct H as (p1 & c1 & w1 & H & E1 & P1 & C1).
      exists p1, c1, w1. repeat split; auto.
      intros R' k' Hk. cbn [run]. now apply orelse_some_l, C1.
    + apply (IH2 _ Hs2) in H. destruct H as (p1 & c1 & w1 & H & E1 & P1 & C1).
      exists p1, c1, w1. repeat split; auto.
      intros R' k' Hk. cbn [run]. now apply orelse_some_r, C1.
  - (* Star *)
    apply (star_loop_stops r s (fun R0 => IH _ Hs R0)) in H.
    destruct H as (p' & c' & w & H & E & P & C).
    exists p', c', w. repeat split; auto.
  - (* Plus *)
    apply (IH _ Hs) in H. destruct H as (p1 & c1 & w1 & H & E1 & P1 & C1).
    apply (star_loop_stops r s (fun R0 => IH _ Hs R0)) in H.
    destruct H as (p2 & c2 & w2 & H & E2 & P2 & C2).
    exists p2, c2, (w1 ++ w2). split; [exact H|].
    split; [rewrite E1, E2; now rewrite append_assoc|].
    split; [rewrite P2, P1; now rewrite last_char_app|].
    intros R' k' Hk. cbn [run]. apply C1. now apply C2.
  - (* Opt *)
    apply orelse_cases in H. destruct H as [H|[_ H]].
    + apply (IH _ Hs) in H. destruct H as (p1 & c1 & w1 & H & E1 & P1 & C1).
      exists p1, c1, w1. repeat split; auto.
      intros R' k' Hk. cbn [run]. now apply orelse_some_l, C1.
    + exists p, cs, EmptyString. repeat split; [exact H|].
      intros R' k' Hk. cbn [run]. now apply orelse_some_r.
  - (* Rep *)
    apply andb_prop in Hs. destruct Hs as [Hs Hs3].
    apply andb_prop in Hs. destruct Hs as [Hs1 Hs2].
    apply Nat.eqb_eq in Hs1, Hs2. subst.
    apply (rep_loop_stops r s (fun R0 => IH _ Hs3 R0)) in H.
    destruct H as (p' & c' & w & H & E & P & C).
    exists p', c', w. repeat split; auto.
  - (* Grp *)
    apply andb_prop in Hs. destruct Hs as [Hn Hs].
    apply String.eqb_eq in Hn. subst.
    apply (IH _ Hs) in H. destruct H as (p1 & c1 & w1 & H & E1 & P1 & C1).
    eexists p1, _, w1. split; [exact H|].
    repeat split; auto.
    intros R' k' Hk. cbn [run]. apply C1. exact Hk.
  - (* IfGrp *)
    apply andb_prop in Hs. destruct Hs as [Hn Hs].
    apply String.eqb_eq in Hn. subst.
    destruct (group n' cs) eqn:G.
    + apply (IH _ Hs) in H. destruct H as (p1 & c1 & w1 & H & E1 & P1 & C1).
      exists p1, c1, w1. repeat split; auto.
      intros R' k' Hk. cbn [run]. rewrite G. now apply C1.
    + exists p, cs, EmptyString. repeat split; [exact H|].
      intros R' k' Hk. cbn [run]. now rewrite G.
  - (* Bol *)
    destruct (prev p) eqn:E; [discriminate|].
    exists p, cs, EmptyString. repeat split; [exact H|].
    intros R' k' Hk. cbn [run]. now rewrite E.
  - (* Eol *)
    exists p, cs, EmptyString.
    destruct (rest p) as [|x [|y t]] eqn:E.
    + repeat split; [exact H|]. intros R' k' Hk. cbn [run]. now rewrite E.
    + destruct (Ascii.eqb x newline) eqn:Ex; [|discriminate].
      repeat split; [exact H|]. intros R' k' Hk. cbn [run]. now rewrite E, Ex.
    + discriminate.
  - (* NotBehind *)
    apply Ascii.eqb_eq in Hs. subst.
    exists p, cs, EmptyString.
    destruct (prev p) as [x|] eqn:E.
    + destruct (Ascii.eqb x b) eqn:Ex; [discriminate|].
      repeat split; [exact H|]. intros R' k' Hk. cbn [run]. now rewrite E, Ex.
    + repeat split; [exact H|]. intros R' k' Hk. cbn [run]. now rewrite E.
Qed.

(** The same for one pattern. *)
Lemma run_point (r : regex) (R : Type) (p : pos) (c : captures) (k : cont R)
  (res : R) :
  run R r p c k = Some res ->
  exists p' c' w, k p' c' = Some res /\ stops_at r p c p' c' w.
Proof. apply run_stops, sub_refl. Qed.

(** Whether a run succeeds depends on where its continuation succeeds, and a
    continuation that succeeds where one of two others does makes the run
    succeed exactly when one of the two runs does. *)
Lemma run_or (r : regex) (R : Type) (p : pos) (c : captures) (k k1 k2 : cont R) :
  (forall p' c', k p' c' <> None <-> k1 p' c' <> None \/ k2 p' c' <> None) ->
  run R r p c k <> None <-> run R r p c k1 <> None \/ run R r p c k2 <> None.
Proof.
  intros Hk. split.
  - intros H. destruct (run R r p c k) as [res|] eqn:E; [|congruence].
    apply run_point in E. destruct E as (p' & c' & w & E & _ & _ & C).
    assert (Hp : k p' c' <> None) by congruence.
    apply Hk in Hp. destruct Hp as [Hp|Hp]; [left|right]; now apply C.
  - intros [H|H].
    + destruct (run R r p c k1) as [res|] eqn:E; [|congruence].
      apply run_point in E. destruct E as (p' & c' & w & E & _ & _ & C).
      apply C, Hk. left. congruence.
    + destruct (run R r p c k2) as [res|] eqn:E; [|congruence].
      apply run_point in E. destruct E as (p' & c' & w & E & _ & _ & C).
      apply C, Hk. right. congruence.
Qed.

(** ** Numbers and quantities *)

Lemma orelse_iff {R : Type} (a b : option R) :
  orelse R a b <> None <-> a <> None \/ b <> None.
Proof.
  destruct a; cbn; split; intros H.
  - left. discriminate.
  - discriminate.
  - now right.
  - destruct H; congruence.
Qed.

Lemma matched_iff (m : option captures) : matched m = true <-> m <> None.
Proof. destruct m; cbn; split; intros; congruence. Qed.

(** The pattern for numbers or quantities matches exactly what the pattern
    for numbers or the pattern for quantities matches. *)
Lemma number_or_quantity_split (v : string) :
  matched (re_match number_or_quantity_re v)
  = matched (re_match number_re v) || matched (re_match quantity_re v).
Proof.
  apply eq_true_iff_eq. rewrite orb_true_iff, !matched_iff.
  unfold re_match, number_or_quantity_re, number_re, quantity_re,
    number_or_quantity_pat, quantity_pat, cat.
  cbn [fold_right run prev].
  apply run_or. intros p' c'. cbv beta. rewrite !orelse_iff. tauto.
Qed.

Lemma item_number_or_quantity_split (v : string) :
  item_valid_number_or_quantity v = item_valid_number v || item_valid_quantity v.
Proof.
  unfold item_valid_number_or_quantity, item_valid_number, item_valid_quantity.
  destruct (negb (starts_with_any number_prefixes v)); [reflexivity|].
  apply number_or_quantity_split.
Qed.

(** What a guarded method answers, read as an option. *)
Lemma answer_guarded {A : Type} (P : KgtkValueOptions -> string -> A) (d : A)
  (idx : option Z) (self : KgtkValue) :
  answer (guarded P d idx self)
  = if whole_list self idx then Some d
    else option_map (P (options self)) (item_of self idx).
Proof.
  unfold guarded. destruct (whole_list self idx); [reflexivity|].
  destruct (item_of self idx); reflexivity.
Qed.

(** X3: on every cell and with every index, in range or not,
    [is_valid_number_or_quantity] answers the disjunction of
    [is_valid_number] and [is_valid_quantity]: the three patterns, matched
    with backtracking, agree, so the check [is_valid_literal] makes and the
    two checks [describe] makes never disagree about a numeric item. *)
Theorem X3_number_or_quantity_is_number_or_quantity :
  forall (v : string) (o : KgtkValueOptions) (idx : option Z),
    answer (is_valid_number_or_quantity idx (new v o))
    = match answer (is_valid_number idx (new v o)),
            answer (is_valid_quantity idx (new v o)) with
      | Some n, Some q => Some (n || q)
      | _, _ => None
      end.
Proof.
  intros v o idx.
  rewrite is_valid_number_or_quantity_spec, is_valid_number_spec,
    is_valid_quantity_spec by apply wf_new.
  rewrite !answer_guarded.
  destruct (whole_list (new v o) idx); [reflexivity|].
  destruct (item_of (new v o) idx) as [x|]; [|reflexivity].
  cbn [option_map]. now rewrite item_number_or_quantity_split.
Qed.

(** ** [describe] against [is_valid_item] *)

(** The labels [describe] gives to an item [is_valid_item] rejects. *)
Lemma item_describe_valid (alpha_2 alpha_3 part5 : string -> bool)
  (o : KgtkValueOptions) (x : string) :
  item_valid alpha_2 alpha_3 part5 o x
  = negb (prefix "Invalid" (item_describe alpha_2 alpha_3 part5 o x)
          || String.eqb (item_describe alpha_2 alpha_3 part5 o x)
               "Extension (unvalidated)").
Proof.
  unfold item_valid, item_describe, item_valid_literal, item_symbol.
  destruct (String.length x =? 0); [reflexivity|].
  destruct (starts_with dquote x).
  { destruct (item_valid_string o x);
      destruct (starts_with_any number_prefixes x); reflexivity. }
  destruct (starts_with_any number_prefixes x).
  { rewrite item_number_or_quantity_split.
    destruct (item_valid_number x); [reflexivity|].
    destruct (item_valid_quantity x); reflexivity. }
  destruct (starts_with_any ["^"; "@"; "'"; "!"]%char x); [|reflexivity].
  destruct (starts_with "'" x).
  { destruct (item_valid_language_qualified_string alpha_2 alpha_3 part5 o x);
      reflexivity. }
  destruct (starts_with "@" x).
  { destruct (item_valid_location_coordinates x); reflexivity. }
  destruct (starts_with "^" x).
  { destruct (item_valid_date_and_times o x); reflexivity. }
  destruct (starts_with "!" x); reflexivity.
Qed.

(** X4: [describe] and [is_valid_item] agree on every item, reached whole
    (the cell being no list) or by an index: the item is rejected exactly
    when its description opens with "Invalid" or is "Extension
    (unvalidated)"; an index out of range makes both raise. *)
Theorem X4_describe_tells_validity :
  forall (alpha_2 alpha_3 part5 : string -> bool) (self : KgtkValue)
    (idx : option Z) (depth : nat),
    wf self ->
    (idx = None -> answer (is_list self) = Some false) ->
    answer (is_valid_item alpha_2 alpha_3 part5 idx self)
    = option_map
        (fun d => negb (prefix "Invalid" d
                        || String.eqb d "Extension (unvalidated)"))
        (answer (describe alpha_2 alpha_3 part5 (S depth) idx self)).
Proof.
  intros alpha_2 alpha_3 part5 self idx depth Hwf Hl.
  pose proof (guard_off _ _ Hwf Hl) as G.
  rewrite (is_valid_item_spec _ _ _ _ _ Hwf), answer_guarded, G.
  rewrite (describe_item_spec _ _ _ _ _ _ Hwf G).
  destruct (item_of self idx) as [x|]; [|reflexivity].
  cbn [option_map answer]. now rewrite item_describe_valid.
Qed.

Lemma X4_describe_tells_validity_witness :
  wf (new "12xyz" DEFAULT_KGTK_VALUE_OPTIONS)
  /\ answer (is_list (new "12xyz" DEFAULT_KGTK_VALUE_OPTIONS)) = Some false
  /\ answer (describe sample_alpha_2 sample_alpha_3 sample_part5 1 None
               (new "12xyz" DEFAULT_KGTK_VALUE_OPTIONS))
     = Some "Invalid Number or Quantity"
  /\ answer (is_valid_item sample_alpha_2 sample_alpha_3 sample_part5 None
               (new "12xyz" DEFAULT_KGTK_VALUE_OPTIONS))
     = Some false.
Proof.
  split; [apply wf_new|]. split; [reflexivity|]. split; [reflexivity|].
  exact (X4_describe_tells_validity sample_alpha_2 sample_alpha_3 sample_part5
           (new "12xyz" DEFAULT_KGTK_VALUE_OPTIONS) None 0 (wf_new _ _)
           (fun _ => eq_refl)).
Defined.

(** ** Validity within a category *)

Lemma re_match_first (a : ascii) (r : regex) (v : string) (m : captures) :
  re_match (Seq Bol (Seq (Chr a) r)) v = Some m -> starts_with a v = true.
Proof.
  unfold re_match. cbn [run prev]. unfold one. cbn [rest].
  destruct v as [|b v]; [discriminate|]. cbn [starts_with].
  destruct (Ascii.eqb b a); [reflexivity|discriminate].
Qed.

Lemma re_match_first_group (a : ascii) (n : string) (r1 r2 : regex)
  (v : string) (m : captures) :
  re_match (Seq Bol (Seq (Grp n (Seq (Chr a) r1)) r2)) v = Some m ->
  starts_with a v = true.
Proof.
  unfold re_match. cbn [run prev]. unfold one. cbn [rest].
  destruct v as [|b v]; [discriminate|]. cbn [starts_with].
  destruct (Ascii.eqb b a); [reflexivity|discriminate].
Qed.

Lemma item_valid_date_and_times_first (o : KgtkValueOptions) (x : string) :
  item_valid_date_and_times o x = true -> starts_with "^" x = true.
Proof.
  unfold item_valid_date_and_times. rewrite matched_iff.
  destruct (allow_month_or_day_zero o).
  - destruct (re_match lax_date_and_times_re x) as [m|] eqn:E; [|congruence].
    intros _. eapply re_match_first. exact E.
  - destruct (re_match strict_date_and_times_re x) as [m|] eqn:E; [|congruence].
    intros _. eapply re_match_first. exact E.
Qed.

Lemma item_valid_location_coordinates_first (x : string) :
  item_valid_location_coordinates x = true -> starts_with "@" x = true.
Proof.
  unfold item_valid_location_coordinates.
  destruct (re_match location_coordinates_re x) as [m|] eqn:E; [|discriminate].
  intros _. eapply re_match_first. exact E.
Qed.

Lemma item_valid_language_qualified_string_first
  (alpha_2 alpha_3 part5 : string -> bool) (o : KgtkValueOptions) (x : string) :
  item_valid_language_qualified_string alpha_2 alpha_3 part5 o x = true ->
  starts_with "'" x = true.
Proof.
  unfold item_valid_language_qualified_string.
  destruct (allow_lax_lq_strings o).
  - destruct (re_match lax_language_qualified_string_re x) as [m|] eqn:E;
      [|discriminate].
    intros _. eapply re_match_first_group. exact E.
  - destruct (re_match strict_language_qualified_string_re x) as [m|] eqn:E;
      [|discriminate].
    intros _. eapply re_match_first_group. exact E.
Qed.

Lemma item_valid_literal_not_symbol (alpha_2 alpha_3 part5 : string -> bool)
  (o : KgtkValueOptions) (x : string) :
  item_valid_literal alpha_2 alpha_3 part5 o x = true -> item_symbol x = false.
Proof.
  unfold item_valid_literal, item_symbol.
  destruct (starts_with dquote x);
    destruct (starts_with_any number_prefixes x);
    destruct (starts_with_any ["^"; "@"; "'"; "!"]%char x);
    try reflexivity; discriminate.
Qed.

(** X5: validity is checked within a category.  Whenever a validator
    answers True, on a cell or on an indexed item, the predicate of its
    category answers True as well: for strings and the three numeric
    validators by the test on the first character they make, for
    language-qualified strings, coordinates and dates because their patterns
    open with the sigil; and a valid literal is never a symbol. *)
Theorem X5_valid_within_category :
  forall (alpha_2 alpha_3 part5 : string -> bool) (self : KgtkValue)
    (idx : option Z),
    wf self ->
    (answer (is_valid_string idx self) = Some true ->
     answer (is_string idx self) = Some true)
    /\ (answer (is_valid_number idx self) = Some true ->
        answer (is_number_or_quantity idx self) = Some true)
    /\ (answer (is_valid_quantity idx self) = Some true ->
        answer (is_number_or_quantity idx self) = Some true)
    /\ (answer (is_valid_number_or_quantity idx self) = Some true ->
        answer (is_number_or_quantity idx self) = Some true)
    /\ (answer (is_valid_language_qualified_string alpha_2 alpha_3 part5 idx self)
        = Some true ->
        answer (is_language_qualified_string idx self) = Some true)
    /\ (answer (is_valid_location_coordinates idx self) = Some true ->
        answer (is_location_coordinates idx self) = Some true)
    /\ (answer (is_valid_date_and_times idx self) = Some true ->
        answer (is_date_and_times idx self) = Some true)
    /\ (answer (is_valid_literal alpha_2 alpha_3 part5 idx self) = Some true ->
        answer (is_symbol idx self) = Some false).
Proof.
  intros alpha_2 alpha_3 part5 self idx Hwf.
  rewrite is_valid_string_spec, is_string_spec, is_valid_number_spec,
    is_number_or_quantity_spec, is_valid_quantity_spec,
    is_valid_number_or_quantity_spec, is_valid_language_qualified_string_spec,
    is_language_qualified_string_spec, is_valid_location_coordinates_spec,
    is_location_coordinates_spec, is_valid_date_and_times_spec,
    is_date_and_times_spec, is_valid_literal_spec, is_symbol_spec by exact Hwf.
  rewrite !answer_guarded.
  destruct (whole_list self idx); [repeat split; discriminate|].
  destruct (item_of self idx) as [x|]; [|repeat split; discriminate].
  cbn [option_map].
  repeat split; intros H; injection H as H; f_equal.
  - unfold item_valid_string in H.
    destruct (starts_with dquote x); [reflexivity|discriminate].
  - unfold item_valid_number in H.
    destruct (starts_with_any number_prefixes x); [reflexivity|discriminate].
  - unfold item_valid_quantity in H.
    destruct (starts_with_any number_prefixes x); [reflexivity|discriminate].
  - unfold item_valid_number_or_quantity in H.
    destruct (starts_with_any number_prefixes x); [reflexivity|discriminate].
  - eapply item_valid_language_qualified_string_first. exact H.
  - now apply item_valid_location_coordinates_first.
  - eapply item_valid_date_and_times_first. exact H.
  - eapply item_valid_literal_not_symbol. exact H.
Qed.

Lemma X5_valid_within_category_witness :
  wf (new "^1960-01-01T00:00:00" DEFAULT_KGTK_VALUE_OPTIONS)
  /\ answer (is_valid_date_and_times None
               (new "^1960-01-01T00:00:00" DEFAULT_KGTK_VALUE_OPTIONS)) = Some true
  /\ answer (is_date_and_times None
               (new "^1960-01-01T00:00:00" DEFAULT_KGTK_VALUE_OPTIONS)) = Some true.
Proof.
  split; [apply wf_new|]. split; [reflexivity|].
  refine (proj1 (proj2 (proj2 (proj2 (proj2 (proj2 (proj2
            (X5_valid_within_category sample_alpha_2 sample_alpha_3 sample_part5
               (new "^1960-01-01T00:00:00" DEFAULT_KGTK_VALUE_OPTIONS) None
               (wf_new _ _)))))))) _).
  reflexivity.
Defined.

(** X6: no extension is valid.  An item that opens with [!], on a cell or
    by an index, is no valid literal, no symbol and no valid item, and is
    described as "Extension (unvalidated)". *)
Theorem X6_extension_never_valid :
  forall (alpha_2 alpha_3 part5 : string -> bool) (self : KgtkValue)
    (idx : option Z) (depth : nat),
    wf self ->
    answer (is_extension idx self) = Some true ->
    answer (is_valid_literal alpha_2 alpha_3 part5 idx self) = Some false
    /\ answer (is_symbol idx self) = Some false
    /\ answer (is_valid_item alpha_2 alpha_3 part5 idx self) = Some false
    /\ answer (describe alpha_2 alpha_3 part5 (S depth) idx self)
       = Some "Extension (unvalidated)".
Proof.
  intros alpha_2 alpha_3 part5 self idx depth Hwf H.
  rewrite (is_extension_spec _ _ Hwf), answer_guarded in H.
  destruct (whole_list self idx) eqn:G; [discriminate|].
  rewrite (is_valid_literal_spec _ _ _ _ _ Hwf), (is_symbol_spec _ _ Hwf),
    (is_valid_item_spec _ _ _ _ _ Hwf), !answer_guarded, G,
    (describe_item_spec _ _ _ _ _ _ Hwf G).
  destruct (item_of self idx) as [x|]; [|discriminate].
  cbn [option_map answer] in *. injection H as H.
  destruct x as [|a x]; [discriminate|]. cbn [starts_with] in H.
  apply Ascii.eqb_eq in H. subst a. repeat split; reflexivity.
Qed.

Lemma X6_extension_never_valid_witness :
  wf (new "abc|!ext" DEFAULT_KGTK_VALUE_OPTIONS)
  /\ answer (is_extension (Some 1%Z) (new "abc|!ext" DEFAULT_KGTK_VALUE_OPTIONS))
     = Some true
  /\ answer (is_valid_item sample_alpha_2 sample_alpha_3 sample_part5 (Some 1%Z)
               (new "abc|!ext" DEFAULT_KGTK_VALUE_OPTIONS)) = Some false.
Proof.
  split; [apply wf_new|]. split; [reflexivity|].
  apply (X6_extension_never_valid sample_alpha_2 sample_alpha_3 sample_part5
           (new "abc|!ext" DEFAULT_KGTK_VALUE_OPTIONS) (Some 1%Z) 0 (wf_new _ _)
           eq_refl).
Defined.

(** ** The lenient options *)

Lemma strict_date_is_lax (x : string) :
  re_match strict_date_and_times_re x <> None ->
  re_match lax_date_and_times_re x <> None.
Proof.
  intros H. destruct (re_match strict_date_and_times_re x) as [m|] eqn:E;
    [clear H|congruence].
  unfold re_match in *.
  apply (run_stops _ lax_date_and_times_re) in E; [|vm_compute; reflexivity].
  destruct E as (p' & c' & w & _ & _ & _ & C). apply C. discriminate.
Qed.

(** X7: allowing month or day zero only adds valid dates: a cell or an
    indexed item that [is_valid_date_and_times] accepts under some options
    is accepted under the same options with [allow_month_or_day_zero] set. *)
Theorem X7_month_or_day_zero_only_adds :
  forall (v : string) (zero lax lq allow : bool) (codes : list string)
    (idx : option Z),
    answer (is_valid_date_and_times idx (new v (mkOptions zero lax lq allow codes)))
    = Some true ->
    answer (is_valid_date_and_times idx (new v (mkOptions true lax lq allow codes)))
    = Some true.
Proof.
  intros v zero lax lq allow codes idx.
  rewrite !is_valid_date_and_times_spec by apply wf_new.
  rewrite !answer_guarded.
  unfold whole_list, item_of, items. cbn [value new options].
  destruct ((1 <? List.length (re_split split_list_re v)) && is_None idx);
    [discriminate|].
  destruct (match idx with
            | Some i => py_index (re_split split_list_re v) i
            | None => Some v
            end) as [x|]; [|discriminate].
  cbn [option_map]. unfold item_valid_date_and_times.
  cbn [allow_month_or_day_zero].
  destruct zero; [auto|].
  intros H. injection H as H. f_equal.
  apply matched_iff, strict_date_is_lax, matched_iff, H.
Qed.

Lemma X7_month_or_day_zero_only_adds_witness :
  answer (is_valid_date_and_times None
            (new "^1960-01-01T00:00:00Z/9" (mkOptions false false false false ["mo"])))
  = Some true
  /\ answer (is_valid_date_and_times None
               (new "^1960-01-01T00:00:00Z/9" (mkOptions true false false false ["mo"])))
     = Some true.
Proof.
  split; [reflexivity|].
  exact (X7_month_or_day_zero_only_adds "^1960-01-01T00:00:00Z/9"
           false false false false ["mo"] None eq_refl).
Defined.

Lemma in_codes_incl (lang : string) (codes codes' : list string) :
  (forall x, In x codes -> In x codes') ->
  in_codes lang codes = true -> in_codes lang codes' = true.
Proof.
  unfold in_codes. intros Hi H. apply existsb_exists in H.
  destruct H as (x & Hx & He). apply existsb_exists. exists x. auto.
Qed.

(** X8: the allow-list only adds valid language-qualified strings: what
    [is_valid_language_qualified_string] accepts under some options it
    accepts when the additional codes get enabled, or when the enabled list
    grows, the other options being the same. *)
Theorem X8_additional_codes_only_add :
  forall (alpha_2 alpha_3 part5 : string -> bool) (v : string)
    (zero lax lq allow allow' : bool) (codes codes' : list string)
    (idx : option Z),
    (allow = true -> allow' = true) ->
    (allow = true -> forall x, In x codes -> In x codes') ->
    answer (is_valid_language_qualified_string alpha_2 alpha_3 part5 idx
              (new v (mkOptions zero lax lq allow codes))) = Some true ->
    answer (is_valid_language_qualified_string alpha_2 alpha_3 part5 idx
              (new v (mkOptions zero lax lq allow' codes'))) = Some true.
Proof.
  intros alpha_2 alpha_3 part5 v zero lax lq allow allow' codes codes' idx Ha Hc.
  rewrite !is_valid_language_qualified_string_spec by apply wf_new.
  rewrite !answer_guarded.
  unfold whole_list, item_of, items. cbn [value new options].
  destruct ((1 <? List.length (re_split split_list_re v)) && is_None idx);
    [discriminate|].
  destruct (match idx with
            | Some i => py_index (re_split split_list_re v) i
            | None => Some v
            end) as [x|]; [|discriminate].
  cbn [option_map]. unfold item_valid_language_qualified_string.
  cbn [allow_lax_lq_strings].
  destruct (if lq
            then re_match lax_language_qualified_string_re x
            else re_match strict_language_qualified_string_re x) as [m|];
    [|discriminate].
  destruct (group "lang" m) as [g|]; [|discriminate].
  unfold language_code_ok.
  cbn [allow_additional_language_codes additional_language_codes].
  destruct (registered alpha_2 alpha_3 part5 (lower g)); [auto|].
  destruct (if contains "-" (lower g)
            then registered_primary alpha_2 alpha_3 part5 (primary (lower g))
            else false); [auto|].
  intros H. injection H as H. f_equal.
  apply andb_prop in H. destruct H as [H1 H2].
  rewrite (Ha H1). cbn [andb]. eapply in_codes_incl; [apply (Hc H1)|exact H2].
Qed.

Lemma X8_additional_codes_only_add_witness :
  answer (is_valid_language_qualified_string sample_alpha_2 sample_alpha_3
            sample_part5 None
            (new "'x'@mo" (mkOptions false false false true ["mo"]))) = Some true
  /\ answer (is_valid_language_qualified_string sample_alpha_2 sample_alpha_3
               sample_part5 None
               (new "'x'@mo" (mkOptions false false false true ["mo"; "xx"])))
     = Some true.
Proof.
  split; [reflexivity|].
  apply (X8_additional_codes_only_add sample_alpha_2 sample_alpha_3 sample_part5
           "'x'@mo" false false false true true ["mo"] ["mo"; "xx"] None).
  - reflexivity.
  - intros _ x [<-|[]]. now left.
  - reflexivity.
Defined.

(** *** Strings *)

Lemma run_Seq (R : Type) (a b : regex) (p : pos) (c : captures) (k : cont R) :
  run R (Seq a b) p c k = run R a p c (fun p' c' => run R b p' c' k).
Proof. reflexivity. Qed.

Lemma contains_app (a : ascii) (s t : string) :
  contains a (s ++ t) = contains a s || contains a t.
Proof.
  induction s as [|b s IH]; cbn [append contains]; [reflexivity|].
  now rewrite IH, orb_assoc.
Qed.

(** [.*] can stop after any text without a newline. *)
Lemma star_dot_reaches (R : Type) (k : cont R) (w : string) :
  forall (fuel : nat) (pv : option ascii) (s' : string) (c : captures),
    contains newline w = false ->
    String.length (w ++ s') < fuel ->
    k (mkPos (last_char w pv) s') c <> None ->
    star_loop R (run R Dot) fuel (mkPos pv (w ++ s')) c k <> None.
Proof.
  induction w as [|a w IH]; intros fuel pv s' c Hn Hf Hk;
    (destruct fuel as [|fuel]; [lia|]); cbn [star_loop].
  - apply orelse_some_r. exact Hk.
  - apply orelse_some_l. cbn [contains] in Hn.
    apply orb_false_iff in Hn. destruct Hn as [Ha Hn].
    cbn [run]. unfold one. cbn [rest append].
    rewrite Ascii.eqb_sym in Ha. rewrite Ascii.eqb_sym, Ha. cbn [negb].
    assert (Hl : (String.length (w ++ s') <? String.length (String a (w ++ s')))
                 = true) by (apply Nat.ltb_lt; cbn [String.length]; lia).
    rewrite Hl. apply IH; [exact Hn| |exact Hk].
    cbn [append String.length] in Hf. lia.
Qed.

(** Whether the closing quote and the end follow depends on the text left. *)
Lemma closing_quote_rest (p p2 : pos) (c c2 : captures) :
  rest p = rest p2 ->
  run captures (Seq (Chr dquote) (Seq Eol Eps)) p c (fun _ caps => Some caps)
  <> None ->
  run captures (Seq (Chr dquote) (Seq Eol Eps)) p2 c2 (fun _ caps => Some caps)
  <> None.
Proof.
  intros E. cbn [run]. unfold one. rewrite <- E.
  destruct (rest p) as [|a [|b [|d s]]]; try (intros H; exact H);
    destruct (Ascii.eqb a dquote); cbn [rest]; try (intros H; exact H);
    try congruence.
  destruct (Ascii.eqb b newline); congruence.
Qed.

Lemma run_Bol (R : Type) (p : pos) (c : captures) (k : cont R) :
  run R Bol p c k = match prev p with None => k p c | Some _ => None end.
Proof. reflexivity. Qed.

Lemma run_Chr (R : Type) (a : ascii) (p : pos) (c : captures) (k : cont R) :
  run R (Chr a) p c k = one R (fun x => Ascii.eqb x a) p c k.
Proof. reflexivity. Qed.

Lemma run_Star (R : Type) (r : regex) (p : pos) (c : captures) (k : cont R) :
  run R (Star r) p c k
  = star_loop R (run R r) (S (String.length (rest p))) p c k.
Proof. reflexivity. Qed.

(** A strict string without a newline is a lax string. *)
Lemma strict_string_is_lax (x : string) :
  contains newline x = false ->
  re_match strict_string_re x <> None ->
  re_match lax_string_re x <> None.
Proof.
  intros Hn H.
  destruct (re_match strict_string_re x) as [m|] eqn:E; [clear H|congruence].
  unfold re_match, strict_string_re, lax_string_re, cat in *.
  cbn [fold_right] in *.
  rewrite run_Seq, run_Bol in E. cbn [prev] in E.
  rewrite run_Seq, run_Chr in E. unfold one in E. cbn [rest] in E.
  rewrite run_Seq, run_Bol. cbn [prev].
  rewrite run_Seq, run_Chr. unfold one. cbn [rest].
  destruct x as [|a s1]; [discriminate|].
  destruct (Ascii.eqb a dquote); [|discriminate].
  rewrite run_Seq in E. apply run_point in E.
  destruct E as (p' & c' & w & Hk & Hrest & Hprev & _).
  cbn [rest prev] in Hrest, Hprev.
  rewrite run_Seq, run_Star. cbn [rest]. rewrite Hrest.
  cbn [contains] in Hn. apply orb_false_iff in Hn. destruct Hn as [_ Hn].
  rewrite Hrest, contains_app in Hn. apply orb_false_iff in Hn.
  destruct Hn as [Hw _].
  apply star_dot_reaches; [exact Hw|lia|].
  eapply (closing_quote_rest p'); [reflexivity|].
  rewrite Hk. discriminate.
Qed.

Lemma split_plain_contains (a : ascii) (s : string) :
  forall (esc : bool) (x : string),
    contains a s = false -> In x (split_plain esc s) -> contains a x = false.
Proof.
  induction s as [|b s IH]; intros esc x Hn Hin; cbn [split_plain] in Hin.
  - destruct Hin as [<-|[]]. reflexivity.
  - cbn [contains] in Hn. apply orb_false_iff in Hn. destruct Hn as [Hb Hn].
    destruct (Ascii.eqb b LIST_SEPARATOR && negb esc).
    + destruct Hin as [<-|Hin]; [reflexivity|]. eapply IH; eassumption.
    + destruct (split_plain (Ascii.eqb b backslash) s) as [|h t] eqn:E;
        [contradiction|].
      destruct Hin as [<-|Hin].
      * cbn [contains]. rewrite Hb. cbn [orb].
        apply (IH (Ascii.eqb b backslash)); [exact Hn|]. rewrite E. now left.
      * apply (IH (Ascii.eqb b backslash)); [exact Hn|]. rewrite E. now right.
Qed.

Lemma py_index_In {A : Type} (l : list A) (i : Z) (x : A) :
  py_index l i = Some x -> In x l.
Proof.
  unfold py_index. destruct (0 <=? i)%Z; [apply nth_error_In|].
  destruct (- Z.of_nat (List.length l) <=? i)%Z; [apply nth_error_In|discriminate].
Qed.

Lemma item_of_contains (a : ascii) (v : string) (o : KgtkValueOptions)
  (idx : option Z) (x : string) :
  contains a v = false -> item_of (new v o) idx = Some x -> contains a x = false.
Proof.
  intros Hn. destruct idx as [i|]; cbn [item_of value new].
  - intros H. apply py_index_In in H. unfold items in H. cbn [value new] in H.
    rewrite re_split_plain in H. eapply split_plain_contains; eassumption.
  - intros H. injection H as <-. exact Hn.
Qed.

(** X9: on a cell that holds no newline, lax strings only add valid strings:
    what [is_valid_string] accepts under strict options, on the cell or on
    an indexed item, it accepts with [allow_lax_strings] set.  (With a
    newline inside the quotes the strict pattern can match where the lax one,
    whose [.] reads no newline, does not.) *)
Theorem X9_lax_strings_only_add :
  forall (v : string) (zero lq allow : bool) (codes : list string)
    (idx : option Z),
    contains newline v = false ->
    answer (is_valid_string idx (new v (mkOptions zero false lq allow codes)))
    = Some true ->
    answer (is_valid_string idx (new v (mkOptions zero true lq allow codes)))
    = Some true.
Proof.
  intros v zero lq allow codes idx Hn.
  rewrite !is_valid_string_spec by apply wf_new.
  rewrite !answer_guarded.
  pose proof (item_of_contains newline v (mkOptions zero true lq allow codes) idx)
    as Hx.
  unfold whole_list, item_of, items in *. cbn [value new options] in *.
  destruct ((1 <? List.length (re_split split_list_re v)) && is_None idx);
    [discriminate|].
  destruct (match idx with
            | Some i => py_index (re_split split_list_re v) i
            | None => Some v
            end) as [x|]; [|discriminate].
  specialize (Hx x Hn eq_refl).
  cbn [option_map]. unfold item_valid_string. cbn [allow_lax_strings].
  destruct (negb (starts_with dquote x)); [discriminate|].
  intros H. injection H as H. f_equal.
  apply matched_iff, strict_string_is_lax, matched_iff, H. exact Hx.
Qed.

Lemma X9_lax_strings_only_add_witness :
  contains newline (String dquote ("abc" ++ String dquote EmptyString)) = false
  /\ answer (is_valid_string None
               (new (String dquote ("abc" ++ String dquote EmptyString))
                  (mkOptions false false false false ["mo"]))) = Some true
  /\ answer (is_valid_string None
               (new (String dquote ("abc" ++ String dquote EmptyString))
                  (mkOptions false true false false ["mo"]))) = Some true.
Proof.
  split; [reflexivity|]. split; [reflexivity|].
  exact (X9_lax_strings_only_add
           (String dquote ("abc" ++ String dquote EmptyString))
           false false false ["mo"] None eq_refl eq_refl).
Defined.

(** The newline case: a quoted text with a newline inside is a strict string
    and no lax one. *)
Example lax_string_with_newline :
  let v := String dquote ("a" ++ String newline ("b" ++ String dquote EmptyString)) in
  answer (is_valid_string None (new v (mkOptions false false false false ["mo"])))
  = Some true
  /\ answer (is_valid_string None (new v (mkOptions false true false false ["mo"])))
     = Some false.
Proof. cbv zeta. split; vm_compute; reflexivity. Qed.

(** ** Splitting and joining *)

Lemma join_split_plain (s : string) :
  forall esc : bool, join LIST_SEPARATOR (split_plain esc s) = s.
Proof.
  induction s as [|a s IH]; intros esc; cbn [split_plain]; [reflexivity|].
  destruct (Ascii.eqb a LIST_SEPARATOR && negb esc) eqn:Hsep.
  - apply andb_prop in Hsep. destruct Hsep as [Ha _].
    apply Ascii.eqb_eq in Ha. subst a.
    specialize (IH false).
    pose proof (split_plain_nonempty false s) as Hne.
    destruct (split_plain false s) as [|h t]; [congruence|].
    cbn [join append] in *. now rewrite IH.
  - specialize (IH (Ascii.eqb a backslash)).
    pose proof (split_plain_nonempty (Ascii.eqb a backslash) s) as Hne.
    destruct (split_plain (Ascii.eqb a backslash) s) as [|h [|h2 t]];
      [congruence| |]; cbn [join append] in *; now rewrite IH.
Qed.

Lemma split_plain_no_separator (s : string) :
  forall esc : bool,
    contains LIST_SEPARATOR s = false -> split_plain esc s = [s].
Proof.
  induction s as [|a s IH]; intros esc Hn; cbn [split_plain]; [reflexivity|].
  cbn [contains] in Hn. apply orb_false_iff in Hn. destruct Hn as [Ha Hn].
  rewrite Ha. cbn [andb]. now rewrite (IH _ Hn).
Qed.

(** X10: the split loses nothing.  The items [get_list] returns, joined by
    the separator, give back the cell, escaped separators included; and a
    cell without any separator is the one item of its split. *)
Theorem X10_split_then_join :
  forall (v : string) (o : KgtkValueOptions),
  exists l : list string,
    answer (get_list (new v o)) = Some l
    /\ join LIST_SEPARATOR l = v
    /\ (contains LIST_SEPARATOR v = false -> l = [v]).
Proof.
  intros v o. exists (re_split split_list_re v).
  split; [reflexivity|]. rewrite re_split_plain. split.
  - apply join_split_plain.
  - apply split_plain_no_separator.
Qed.

Lemma last_char_is_backslash (a : string) (d1 d2 : option ascii) :
  is_backslash d1 = is_backslash d2 ->
  is_backslash (last_char a d1) = is_backslash (last_char a d2).
Proof.
  revert d1 d2. induction a as [|x a IH]; intros d1 d2 H; cbn [last_char];
    [exact H|now apply IH].
Qed.

(** The split of two cells joined by a separator, the first not ending in a
    backslash, is the split of the first followed by the split of the second. *)
Lemma split_plain_joined (a b : string) :
  forall esc : bool,
    is_backslash (last_char a (if esc then Some backslash else None)) = false ->
    split_plain esc (a ++ String LIST_SEPARATOR b)
    = (split_plain esc a ++ split_plain false b)%list.
Proof.
  induction a as [|c a IH]; intros esc He; cbn [append split_plain last_char] in *.
  - destruct esc; [discriminate|]. rewrite Ascii.eqb_refl. reflexivity.
  - destruct (Ascii.eqb c LIST_SEPARATOR && negb esc) eqn:Hsep.
    + apply andb_prop in Hsep. destruct Hsep as [Hc _].
      apply Ascii.eqb_eq in Hc. subst c.
      rewrite IH; [reflexivity|].
      rewrite <- He. apply last_char_is_backslash. reflexivity.
    + rewrite IH.
      * pose proof (split_plain_nonempty (Ascii.eqb c backslash) a) as Hne.
        destruct (split_plain (Ascii.eqb c backslash) a); [congruence|reflexivity].
      * rewrite <- He. apply last_char_is_backslash.
        destruct (Ascii.eqb c backslash) eqn:E; cbn [is_backslash];
          now rewrite ?E, ?Ascii.eqb_refl.
Qed.

Lemma join_descriptions_app (alpha_2 alpha_3 part5 : string -> bool)
  (o : KgtkValueOptions) (l1 l2 : list string) :
  l1 <> [] -> l2 <> [] ->
  join_descriptions alpha_2 alpha_3 part5 o (l1 ++ l2)
  = join_descriptions alpha_2 alpha_3 part5 o l1
      ++ String LIST_SEPARATOR (join_descriptions alpha_2 alpha_3 part5 o l2).
Proof.
  intros H1 H2. induction l1 as [|x l1 IH]; [congruence|].
  destruct l1 as [|y l1].
  - destruct l2 as [|z l2]; [congruence|]. reflexivity.
  - change ((x :: y :: l1) ++ l2)%list with (x :: (y :: l1) ++ l2)%list.
    cbn [join_descriptions app] in *.
    rewrite IH by discriminate. now rewrite !append_assoc.
Qed.

(** [describe] without an index, on any cell. *)
Lemma describe_spec (alpha_2 alpha_3 part5 : string -> bool) (depth : nat)
  (self : KgtkValue) :
  wf self ->
  describe alpha_2 alpha_3 part5 (S (S depth)) None self
  = Some (join_descriptions alpha_2 alpha_3 part5 (options self) (items self),
          filled self).
Proof.
  intros Hwf. destruct (whole_list self None) eqn:G.
  - now apply describe_list_spec.
  - rewrite (describe_item_spec _ _ _ _ _ _ Hwf G). cbn [item_of].
    unfold whole_list in G. cbn [is_None] in G. rewrite andb_true_r in G.
    now rewrite (not_list_items _ G).
Qed.

(** X11: [is_valid] and [describe] of two cells joined by the separator.
    For any two cells [a] and [b], lists themselves or not, [a] not ending
    in a backslash: the joined cell is valid exactly when both are, and its
    description is the two descriptions joined by the separator. *)
Theorem X11_joined_cells :
  forall (alpha_2 alpha_3 part5 : string -> bool) (a b : string)
    (o : KgtkValueOptions) (depth : nat),
    ends_with backslash a = false ->
    exists (va vb : bool) (da db : string),
      answer (is_valid alpha_2 alpha_3 part5 (new a o)) = Some va
      /\ answer (is_valid alpha_2 alpha_3 part5 (new b o)) = Some vb
      /\ answer (is_valid alpha_2 alpha_3 part5
                   (new (a ++ String LIST_SEPARATOR b) o)) = Some (va && vb)
      /\ answer (describe alpha_2 alpha_3 part5 (S (S depth)) None (new a o))
         = Some da
      /\ answer (describe alpha_2 alpha_3 part5 (S (S depth)) None (new b o))
         = Some db
      /\ answer (describe alpha_2 alpha_3 part5 (S (S depth)) None
                   (new (a ++ String LIST_SEPARATOR b) o))
         = Some (da ++ String LIST_SEPARATOR db).
Proof.
  intros alpha_2 alpha_3 part5 a b o depth He.
  assert (Hs : re_split split_list_re (a ++ String LIST_SEPARATOR b)
               = (re_split split_list_re a ++ re_split split_list_re b)%list).
  { rewrite !re_split_plain. apply split_plain_joined.
    unfold ends_with in He. destruct (last_char a None); [exact He|reflexivity]. }
  exists (forallb (item_valid alpha_2 alpha_3 part5 o) (re_split split_list_re a)),
         (forallb (item_valid alpha_2 alpha_3 part5 o) (re_split split_list_re b)),
         (join_descriptions alpha_2 alpha_3 part5 o (re_split split_list_re a)),
         (join_descriptions alpha_2 alpha_3 part5 o (re_split split_list_re b)).
  rewrite !is_valid_spec, !describe_spec by apply wf_new.
  unfold items. cbn [value new options answer]. rewrite Hs.
  repeat split.
  - now rewrite forallb_app.
  - rewrite join_descriptions_app; [reflexivity| |];
      rewrite re_split_plain; apply split_plain_nonempty.
Qed.

Lemma X11_joined_cells_witness :
  ends_with backslash "abc|12xyz" = false
  /\ answer (is_valid sample_alpha_2 sample_alpha_3 sample_part5
               (new "abc|12xyz|'x'@en" DEFAULT_KGTK_VALUE_OPTIONS)) = Some false
  /\ answer (describe sample_alpha_2 sample_alpha_3 sample_part5 2 None
               (new "abc|12xyz|'x'@en" DEFAULT_KGTK_VALUE_OPTIONS))
     = Some "Symbol|Invalid Number or Quantity|Language Qualified String".
Proof.
  split; [reflexivity|].
  destruct (X11_joined_cells sample_alpha_2 sample_alpha_3 sample_part5
              "abc|12xyz" "'x'@en" DEFAULT_KGTK_VALUE_OPTIONS 0 eq_refl)
    as (va & vb & da & db & Ha & Hb & Hab & Hda & Hdb & Hdab).
  split; reflexivity.
Defined.

(** ** Indices *)

Lemma py_index_in_range {A : Type} (l : list A) (i : Z) :
  (- Z.of_nat (List.length l) <= i < Z.of_nat (List.length l))%Z ->
  py_index l i = nth_error l (Z.to_nat (i mod Z.of_nat (List.length l)))
  /\ nth_error l (Z.to_nat (i mod Z.of_nat (List.length l))) <> None.
Proof.
  intros Hr. set (n := Z.of_nat (List.length l)) in *.
  assert (Hm : (0 <= i mod n < n)%Z) by (apply Z.mod_pos_bound; lia).
  split.
  - unfold py_index. fold n. destruct (0 <=? i)%Z eqn:E.
    + apply Z.leb_le in E. now rewrite Z.mod_small by lia.
    + apply Z.leb_gt in E.
      assert (E2 : (- n <=? i)%Z = true) by (apply Z.leb_le; lia).
      rewrite E2. f_equal. f_equal.
      apply (Z.mod_unique i n (-1) (n + i)); lia.
  - apply nth_error_Some. unfold n in *. lia.
Qed.

Lemma py_index_out_of_range {A : Type} (l : list A) (i : Z) :
  ~ (- Z.of_nat (List.length l) <= i < Z.of_nat (List.length l))%Z ->
  py_index l i = None.
Proof.
  intros Hr. unfold py_index. destruct (0 <=? i)%Z eqn:E.
  - apply Z.leb_le in E. apply nth_error_None. lia.
  - apply Z.leb_gt in E.
    destruct (- Z.of_nat (List.length l) <=? i)%Z eqn:E2; [|reflexivity].
    apply Z.leb_le in E2. lia.
Qed.

(** X12: an index selects an item as a Python list index does.  With [n]
    the number of items of the cell: for [-n <= i < n] the item is the one at
    [i mod n] (so [-1] is the last), and [is_valid_item] and [describe] say
    of it what they say of the item taken as a cell of its own; for any other
    [i] they raise, and so does the plainest predicate, [is_empty]. *)
Theorem X12_item_index :
  forall (alpha_2 alpha_3 part5 : string -> bool) (v : string)
    (o : KgtkValueOptions) (i : Z) (depth : nat),
  exists l : list string,
    answer (get_list (new v o)) = Some l
    /\ ((- Z.of_nat (List.length l) <= i < Z.of_nat (List.length l))%Z ->
        exists x : string,
          nth_error l (Z.to_nat (i mod Z.of_nat (List.length l))) = Some x
          /\ answer (is_valid_item alpha_2 alpha_3 part5 (Some i) (new v o))
             = answer (is_valid_item alpha_2 alpha_3 part5 None (new x o))
          /\ answer (describe alpha_2 alpha_3 part5 (S depth) (Some i) (new v o))
             = answer (describe alpha_2 alpha_3 part5 (S depth) None (new x o))
          /\ answer (describe alpha_2 alpha_3 part5 (S depth) (Some i) (new v o))
             <> None)
    /\ (~ (- Z.of_nat (List.length l) <= i < Z.of_nat (List.length l))%Z ->
        is_valid_item alpha_2 alpha_3 part5 (Some i) (new v o) = None
        /\ describe alpha_2 alpha_3 part5 (S depth) (Some i) (new v o) = None
        /\ is_empty (Some i) (new v o) = None).
Proof.
  intros alpha_2 alpha_3 part5 v o i depth.
  exists (re_split split_list_re v). split; [reflexivity|].
  assert (G : whole_list (new v o) (Some i) = false)
    by (unfold whole_list; apply andb_false_r).
  rewrite (is_valid_item_spec _ _ _ _ _ (wf_new v o)),
    (describe_item_spec _ _ _ _ _ _ (wf_new v o) G),
    (is_empty_spec _ _ (wf_new v o)).
  unfold guarded. rewrite G. cbn [item_of]. unfold items. cbn [value new options].
  split.
  - intros Hr. destruct (py_index_in_range _ _ Hr) as [Hp Hn].
    rewrite Hp.
    destruct (nth_error (re_split split_list_re v)
                (Z.to_nat (i mod Z.of_nat (List.length (re_split split_list_re v)))))
      as [x|] eqn:E; [|congruence].
    exists x. split; [reflexivity|].
    assert (Gx : whole_list (new x o) None = false)
      by (apply (item_whole_list v); eapply nth_error_In; exact E).
    rewrite (is_valid_item_spec _ _ _ _ _ (wf_new x o)),
      (describe_item_spec _ _ _ _ _ _ (wf_new x o) Gx).
    unfold guarded. rewrite Gx. cbn [item_of value new options answer].
    repeat split. discriminate.
  - intros Hr. rewrite (py_index_out_of_range _ _ Hr). repeat split.
Qed.

(** ** The cache *)

Lemma guarded_settles {A : Type} (m : M A)
  (P : KgtkValueOptions -> string -> A) (d : A) (idx : option Z)
  (self : KgtkValue) :
  (forall s, wf s -> m s = guarded P d idx s) ->
  wf self -> settles m self.
Proof.
  intros Hm Hwf a self' H. rewrite (Hm _ Hwf) in H.
  assert (Hs : self' = filled self).
  { unfold guarded in H. destruct (whole_list self idx); [congruence|].
    destruct (item_of self idx); congruence. }
  subst self'. repeat split.
  now rewrite (Hm _ (wf_filled self)), guarded_filled.
Qed.

Lemma settles_intro {A : Type} (m : M A) (self : KgtkValue) (x : A) :
  m self = Some (x, filled self) ->
  m (filled self) = Some (x, filled self) ->
  settles m self.
Proof.
  intros H1 H2 a self' H. rewrite H1 in H. injection H as <- <-.
  repeat split. exact H2.
Qed.

Lemma settles_raise {A : Type} (m : M A) (self : KgtkValue) :
  m self = None -> settles m self.
Proof. intros H1 a self' H. congruence. Qed.

(** X13: the cache is the only thing a call changes, and it changes once.
    On an object whose cache is empty or holds the split of its value, a
    call of [get_list], [is_valid_item], [is_valid] or [describe] that
    returns leaves value and options untouched and the cache holding the
    split; the same call on the object it leaves gives the same answer and
    leaves that object as it is. *)
Theorem X13_calls_settle_the_cache :
  forall (alpha_2 alpha_3 part5 : string -> bool) (self : KgtkValue)
    (idx : option Z) (depth : nat),
    wf self ->
    settles get_list self
    /\ settles (is_valid_item alpha_2 alpha_3 part5 idx) self
    /\ settles (is_valid alpha_2 alpha_3 part5) self
    /\ settles (describe alpha_2 alpha_3 part5 (S (S depth)) idx) self.
Proof.
  intros alpha_2 alpha_3 part5 self idx depth Hwf.
  split; [|split; [|split]].
  - eapply settles_intro.
    + apply (get_list_spec _ Hwf).
    + apply (get_list_spec _ (wf_filled self)).
  - apply (guarded_settles _ _ _ _ _
             (fun s => is_valid_item_spec alpha_2 alpha_3 part5 idx s) Hwf).
  - eapply settles_intro.
    + apply (is_valid_spec _ _ _ _ Hwf).
    + apply (is_valid_spec _ _ _ _ (wf_filled self)).
  - destruct (whole_list self idx) eqn:G.
    + destruct idx as [i|];
        [unfold whole_list in G; rewrite andb_false_r in G; discriminate|].
      eapply settles_intro.
      * apply (describe_spec _ _ _ _ _ Hwf).
      * apply (describe_spec _ _ _ _ _ (wf_filled self)).
    + destruct (item_of self idx) as [x|] eqn:E.
      * eapply settles_intro.
        -- rewrite (describe_item_spec _ _ _ _ _ _ Hwf G), E. reflexivity.
        -- rewrite (describe_item_spec _ _ _ _ _ _ (wf_filled self) G).
           change (item_of (filled self) idx) with (item_of self idx).
           rewrite E. reflexivity.
      * apply settles_raise.
        now rewrite (describe_item_spec _ _ _ _ _ _ Hwf G), E.
Qed.

Lemma X13_calls_settle_the_cache_witness :
  wf (new "abc|12xyz" DEFAULT_KGTK_VALUE_OPTIONS)
  /\ settles (is_valid sample_alpha_2 sample_alpha_3 sample_part5)
       (new "abc|12xyz" DEFAULT_KGTK_VALUE_OPTIONS).
Proof.
  split; [apply wf_new|].
  apply (X13_calls_settle_the_cache sample_alpha_2 sample_alpha_3 sample_part5
           (new "abc|12xyz" DEFAULT_KGTK_VALUE_OPTIONS) None 0 (wf_new _ _)).
Defined.

(** ** The layout of a valid date *)

Lemma date_re_split (low : ascii) (R : Type) (p : pos) (c : captures)
  (k : cont R) :
  run R (date_and_times_re low) p c k
  = run R (cat (date_prefix low)) p c
      (fun p' c' => run R (cat date_suffix) p' c' k).
Proof. reflexivity. Qed.

Lemma class_digit (items : list citem) (a : ascii) :
  class_le (class_matches items) is_decimal_digit = true ->
  class_matches items a = true -> is_decimal_digit a = true.
Proof. intros H. apply class_le_spec, H. Qed.

(** Whatever follows the seconds, a text the lax pattern matches up to them
    has one of the two layouts. *)
Lemma date_prefix_layout (K : cont captures) (v : string) (res : captures) :
  run captures (cat (date_prefix "0")) (mkPos None v) [] K = Some res ->
  extended_layout v = true \/ basic_layout v = true.
Proof.
  intros H. unfold date_prefix in H.
  repeat date_step @orelse_cases H; date_finish class_digit.
Qed.

Lemma item_valid_date_and_times_layout (o : KgtkValueOptions) (x : string) :
  item_valid_date_and_times o x = true ->
  extended_layout x = true \/ basic_layout x = true.
Proof.
  unfold item_valid_date_and_times. rewrite matched_iff. intros H.
  assert (Hl : re_match lax_date_and_times_re x <> None)
    by (destruct (allow_month_or_day_zero o);
        [exact H|now apply strict_date_is_lax]).
  destruct (re_match lax_date_and_times_re x) as [m|] eqn:E; [|congruence].
  unfold re_match, lax_date_and_times_re in E. rewrite date_re_split in E.
  eapply date_prefix_layout. exact E.
Qed.

(** X14: a valid date always carries year, month, day, hour, minute and
    second, with separators everywhere or nowhere.  Whenever
    [is_valid_date_and_times] answers True, under either option and on a
    cell or an indexed item, the item reads [^YYYY-MM-DDTHH:MM:SS] or
    [^YYYYMMDDTHHMMSS], digits at the letters, whatever follows. *)
Theorem X14_valid_date_layout :
  forall (self : KgtkValue) (idx : option Z),
    wf self ->
    answer (is_valid_date_and_times idx self) = Some true ->
    exists x : string,
      answer (get_item idx self) = Some x
      /\ (extended_layout x = true \/ basic_layout x = true).
Proof.
  intros self idx Hwf H.
  rewrite (is_valid_date_and_times_spec _ _ Hwf), answer_guarded in H.
  destruct (whole_list self idx); [discriminate|].
  rewrite (get_item_answer _ _ Hwf).
  destruct (item_of self idx) as [x|]; [|discriminate].
  exists x. split; [reflexivity|].
  cbn [option_map] in H. injection H as H.
  eapply item_valid_date_and_times_layout. exact H.
Qed.

Lemma X14_valid_date_layout_witness :
  wf (new "^1960-01-01T00:00:00Z/9" DEFAULT_KGTK_VALUE_OPTIONS)
  /\ answer (is_valid_date_and_times None
               (new "^1960-01-01T00:00:00Z/9" DEFAULT_KGTK_VALUE_OPTIONS))
     = Some true
  /\ exists x : string,
      answer (get_item None (new "^1960-01-01T00:00:00Z/9" DEFAULT_KGTK_VALUE_OPTIONS))
      = Some x
      /\ (extended_layout x = true \/ basic_layout x = true).
Proof.
  split; [apply wf_new|]. split; [reflexivity|].
  exact (X14_valid_date_layout
           (new "^1960-01-01T00:00:00Z/9" DEFAULT_KGTK_VALUE_OPTIONS) None
           (wf_new _ _) eq_refl).
Defined.

(** ** The text of a valid string *)

(** The closing quote and the end: the text left is a quote and at most a
    newline. *)
Lemma closing_quote_iff (p : pos) (c : captures) :
  run captures (Seq (Chr dquote) (Seq Eol Eps)) p c (fun _ caps => Some caps)
  <> None
  <-> exists t, rest p = String dquote t /\ line_end t = true.
Proof.
  cbn [run]. unfold one. split.
  - destruct (rest p) as [|a t]; [congruence|].
    destruct (Ascii.eqb a dquote) eqn:Ea; [|congruence].
    apply Ascii.eqb_eq in Ea. subst a. cbn [rest]. intros H.
    exists t. split; [reflexivity|].
    destruct t as [|b [|d t]]; [reflexivity| |congruence].
    cbn [line_end]. destruct (Ascii.eqb b newline); [reflexivity|congruence].
  - intros (t & -> & Ht). rewrite Ascii.eqb_refl. cbn [rest].
    destruct t as [|b [|d t]]; [discriminate| |discriminate].
    cbn [line_end] in Ht. rewrite Ht. discriminate.
Qed.

(** What the strict pattern reads between the quotes is an escaped text. *)
Lemma star_body_word (R : Type) (k : cont R) (fuel : nat) :
  forall (p : pos) (c : captures) (res : R),
    star_loop R (run R string_body) fuel p c k = Some res ->
    exists w p', k p' c = Some res /\ rest p = w ++ rest p'
                 /\ escaped_text w = true.
Proof.
  induction fuel as [|fuel IH]; intros p c res H; cbn [star_loop] in H.
  - exists EmptyString, p. auto.
  - apply orelse_cases in H. destruct H as [H|[_ H]];
      [|exists EmptyString, p; auto].
    unfold string_body in H. cbn [run] in H.
    apply orelse_cases in H. destruct H as [H|[_ H]].
    + unfold one in H. destruct (rest p) as [|a s] eqn:E; [discriminate|].
      destruct (negb (class_matches [CChar dquote; CChar backslash] a)) eqn:Ea;
        [|discriminate].
      cbn [rest] in H.
      destruct (String.length s <? String.length (String a s)); [|discriminate].
      apply IH in H. destruct H as (w & p' & Hk & Hr & Hw). cbn [rest] in Hr.
      exists (String a w), p'. split; [exact Hk|].
      split; [cbn [append]; now rewrite Hr|].
      apply negb_true_iff in Ea. cbn [class_matches existsb item_matches] in Ea.
      apply orb_false_iff in Ea. destruct Ea as [Eq Eb].
      apply orb_false_iff in Eb. destruct Eb as [Eb _].
      cbn [escaped_text]. now rewrite Eb, Eq, Hw.
    + unfold one in H. destruct (rest p) as [|a s] eqn:E; [discriminate|].
      destruct (Ascii.eqb a backslash) eqn:Ea; [|discriminate].
      cbn [rest] in H. destruct s as [|b s]; [discriminate|].
      destruct (negb (Ascii.eqb b newline)) eqn:Eb; [|discriminate].
      cbn [rest] in H.
      destruct (String.length s <? String.length (String a (String b s)));
        [|discriminate].
      apply IH in H. destruct H as (w & p' & Hk & Hr & Hw). cbn [rest] in Hr.
      exists (String a (String b w)), p'. split; [exact Hk|].
      split; [cbn [append]; now rewrite Hr|].
      cbn [escaped_text]. now rewrite Ea, Eb, Hw.
Qed.

(** And the strict pattern can stop after any escaped text. *)
Lemma star_body_reaches (R : Type) (k : cont R) (n : nat) :
  forall (w : string),
    String.length w <= n ->
    escaped_text w = true ->
    forall (fuel : nat) (pv : option ascii) (s' : string) (c : captures),
      String.length (w ++ s') < fuel ->
      k (mkPos (last_char w pv) s') c <> None ->
      star_loop R (run R string_body) fuel (mkPos pv (w ++ s')) c k <> None.
Proof.
  induction n as [|n IH]; intros w Hl Hw fuel pv s' c Hf Hk;
    (destruct fuel as [|fuel]; [lia|]); cbn [star_loop].
  - destruct w; [|cbn in Hl; lia]. apply orelse_some_r. exact Hk.
  - destruct w as [|a w]; [apply orelse_some_r; exact Hk|].
    apply orelse_some_l. unfold string_body. cbn [run].
    cbn [escaped_text] in Hw. cbn [String.length append] in Hl, Hf.
    destruct (Ascii.eqb a backslash) eqn:Ea.
    + destruct w as [|b w]; [discriminate|].
      apply andb_prop in Hw. destruct Hw as [Eb Hw].
      apply orelse_some_r. unfold one. cbn [rest append]. rewrite Ea.
      cbn [rest]. rewrite Eb.
      assert (Hlt : (String.length (w ++ s')
                     <? String.length (String a (String b (w ++ s')))) = true)
        by (apply Nat.ltb_lt; cbn [String.length]; lia).
      cbn [rest]. rewrite Hlt.
      cbn [String.length append] in Hl, Hf.
      apply IH; [lia|exact Hw|lia|exact Hk].
    + apply andb_prop in Hw. destruct Hw as [Eq Hw].
      apply negb_true_iff in Eq.
      apply orelse_some_l. unfold one. cbn [rest append].
      cbn [class_matches existsb item_matches]. rewrite Eq, Ea. cbn [orb negb].
      assert (Hlt : (String.length (w ++ s')
                     <? String.length (String a (w ++ s'))) = true)
        by (apply Nat.ltb_lt; cbn [String.length]; lia).
      cbn [rest]. rewrite Hlt.
      apply IH; [lia|exact Hw|lia|exact Hk].
Qed.

(** The strict string pattern, read directly. *)
Lemma strict_string_iff (x : string) :
  re_match strict_string_re x <> None
  <-> exists w t,
        x = String dquote (w ++ String dquote t)
        /\ escaped_text w = true /\ line_end t = true.
Proof.
  unfold re_match, strict_string_re, cat. cbn [fold_right].
  fold string_body.
  rewrite run_Seq, run_Bol. cbn [prev].
  rewrite run_Seq, run_Chr. unfold one. cbn [rest]. split.
  - intros H.
    destruct x as [|a s1]; [congruence|].
    destruct (Ascii.eqb a dquote) eqn:Ea; [|congruence].
    apply Ascii.eqb_eq in Ea. subst a.
    rewrite run_Seq, run_Star in H.
    match type of H with ?m <> None => destruct m as [res|] eqn:E end;
      [|congruence].
    apply star_body_word in E. destruct E as (w & p' & Hk & Hr & Hw).
    cbn [rest] in Hr.
    assert (Hc : exists t, rest p' = String dquote t /\ line_end t = true)
      by (apply (closing_quote_iff p' []); rewrite Hk; discriminate).
    destruct Hc as (t & Ht & Hl). exists w, t.
    split; [now rewrite Hr, Ht|auto].
  - intros (w & t & -> & Hw & Hl). rewrite Ascii.eqb_refl.
    rewrite run_Seq, run_Star. cbn [rest].
    apply (star_body_reaches _ _ (String.length w) w); [lia|exact Hw|lia|].
    apply closing_quote_iff. exists t. auto.
Qed.

(** What [.*] reads holds no newline. *)
Lemma star_dot_word (R : Type) (k : cont R) (fuel : nat) :
  forall (p : pos) (c : captures) (res : R),
    star_loop R (run R Dot) fuel p c k = Some res ->
    exists w p', k p' c = Some res /\ rest p = w ++ rest p'
                 /\ contains newline w = false.
Proof.
  induction fuel as [|fuel IH]; intros p c res H; cbn [star_loop] in H.
  - exists EmptyString, p. auto.
  - apply orelse_cases in H. destruct H as [H|[_ H]];
      [|exists EmptyString, p; auto].
    cbn [run] in H. unfold one in H.
    destruct (rest p) as [|a s] eqn:E; [discriminate|].
    destruct (negb (Ascii.eqb a newline)) eqn:Ea; [|discriminate].
    cbn [rest] in H.
    destruct (String.length s <? String.length (String a s)); [|discriminate].
    apply IH in H. destruct H as (w & p' & Hk & Hr & Hw). cbn [rest] in Hr.
    exists (String a w), p'. split; [exact Hk|].
    split; [cbn [append]; now rewrite Hr|].
    apply negb_true_iff in Ea. cbn [contains]. now rewrite Ea, Hw.
Qed.

(** The lax string pattern, read directly. *)
Lemma lax_string_iff (x : string) :
  re_match lax_string_re x <> None
  <-> exists w t,
        x = String dquote (w ++ String dquote t)
        /\ contains newline w = false /\ line_end t = true.
Proof.
  unfold re_match, lax_string_re, cat. cbn [fold_right].
  rewrite run_Seq, run_Bol. cbn [prev].
  rewrite run_Seq, run_Chr. unfold one. cbn [rest]. split.
  - intros H.
    destruct x as [|a s1]; [congruence|].
    destruct (Ascii.eqb a dquote) eqn:Ea; [|congruence].
    apply Ascii.eqb_eq in Ea. subst a.
    rewrite run_Seq, run_Star in H.
    match type of H with ?m <> None => destruct m as [res|] eqn:E end;
      [|congruence].
    apply star_dot_word in E. destruct E as (w & p' & Hk & Hr & Hw).
    cbn [rest] in Hr.
    assert (Hc : exists t, rest p' = String dquote t /\ line_end t = true)
      by (apply (closing_quote_iff p' []); rewrite Hk; discriminate).
    destruct Hc as (t & Ht & Hl). exists w, t.
    split; [now rewrite Hr, Ht|auto].
  - intros (w & t & -> & Hw & Hl). rewrite Ascii.eqb_refl.
    rewrite run_Seq, run_Star. cbn [rest].
    apply star_dot_reaches; [exact Hw|lia|].
    apply closing_quote_iff. exists t. auto.
Qed.

(** X15: what a valid string is.  On a cell that is no list, or on an
    indexed item, [is_valid_string] answers [True] exactly when the item is
    a double quote, a text, a double quote and then nothing or one newline,
    where the text, under strict options, is made of characters other than
    the double quote and the backslash and of pairs of a backslash and a
    character that is no newline, and, with [allow_lax_strings], is any text
    without a newline. *)
Theorem X15_valid_string_shape :
  forall (self : KgtkValue) (idx : option Z),
    wf self ->
    (idx = None -> answer (is_list self) = Some false) ->
    (answer (is_valid_string idx self) = Some true
     <-> exists w t : string,
           answer (get_item idx self)
           = Some (String dquote (w ++ String dquote t))
           /\ string_text (options self) w = true
           /\ line_end t = true).
Proof.
  intros self idx Hwf Hl.
  rewrite (is_valid_string_spec _ _ Hwf), answer_guarded.
  rewrite (guard_off _ _ Hwf Hl), (get_item_answer _ _ Hwf).
  unfold string_text, item_valid_string.
  destruct (item_of self idx) as [x|]; cbn [option_map];
    [|split; [discriminate|intros (w & t & H & _); discriminate]].
  destruct (allow_lax_strings (options self)).
  - split.
    + intros H. injection H as H.
      destruct (negb (starts_with dquote x)); [discriminate|].
      apply matched_iff, lax_string_iff in H.
      destruct H as (w & t & -> & Hw & Ht). exists w, t.
      rewrite Hw. auto.
    + intros (w & t & H & Hw & Ht). injection H as ->.
      cbn [starts_with]. rewrite Ascii.eqb_refl. cbn [negb]. f_equal.
      apply matched_iff, lax_string_iff. exists w, t.
      apply negb_true_iff in Hw. auto.
  - split.
    + intros H. injection H as H.
      destruct (negb (starts_with dquote x)); [discriminate|].
      apply matched_iff, strict_string_iff in H.
      destruct H as (w & t & -> & Hw & Ht). exists w, t. auto.
    + intros (w & t & H & Hw & Ht). injection H as ->.
      cbn [starts_with]. rewrite Ascii.eqb_refl. cbn [negb]. f_equal.
      apply matched_iff, strict_string_iff. exists w, t. auto.
Qed.

Lemma X15_valid_string_shape_witness :
  wf (new (String dquote ("abc" ++ String dquote EmptyString))
        DEFAULT_KGTK_VALUE_OPTIONS)
  /\ answer (is_list (new (String dquote ("abc" ++ String dquote EmptyString))
                        DEFAULT_KGTK_VALUE_OPTIONS)) = Some false
  /\ answer (is_valid_string None
               (new (String dquote ("abc" ++ String dquote EmptyString))
                  DEFAULT_KGTK_VALUE_OPTIONS)) = Some true.
Proof.
  split; [apply wf_new|]. split; [reflexivity|].
  apply (X15_valid_string_shape
           (new (String dquote ("abc" ++ String dquote EmptyString))
              DEFAULT_KGTK_VALUE_OPTIONS)
           None (wf_new _ _) (fun _ => eq_refl)).
  exists "abc", EmptyString. repeat split.
Defined.

Lemma date_prefix_split (low : ascii) (R : Type) (p : pos) (c : captures)
  (k : cont R) :
  run R (cat (date_prefix low)) p c k
  = run R (cat (date_opening low)) p c
      (fun p' c' => run R (cat date_clock) p' c' k).
Proof. reflexivity. Qed.

Lemma class_nonzero (items : list citem) (a : ascii) :
  class_le (class_matches items) (fun b => negb (Ascii.eqb "0" b)) = true ->
  class_matches items a = true -> Ascii.eqb "0" a = false.
Proof.
  intros H E. apply negb_true_iff. exact (class_le_spec _ _ H a E).
Qed.

Lemma nonzero_digit (a : ascii) :
  class_matches [CRange "0" "9"] a = true ->
  Ascii.eqb "0" a = false ->
  class_matches [CRange "1" "9"] a = true.
Proof.
  intros E Hz.
  apply (class_le_spec
           (fun b => class_matches [CRange "0" "9"] b && negb (Ascii.eqb "0" b))
           (class_matches [CRange "1" "9"])); [vm_compute; reflexivity|].
  now rewrite E, Hz.
Qed.

Lemma zero_digit (a : ascii) :
  class_matches [CRange "0" "9"] a = true ->
  class_matches [CRange "1" "9"] a = false ->
  Ascii.eqb "0" a = true.
Proof.
  intros E F. destruct (Ascii.eqb "0" a) eqn:Hz; [reflexivity|].
  rewrite (nonzero_digit a E Hz) in F. discriminate.
Qed.

(** What the strict pattern reads up to the day has no month and no day
    [00]. *)
Lemma date_opening_nonzero (K : cont captures) (v : string) (res : captures) :
  run captures (cat (date_opening "1")) (mkPos None v) [] K = Some res ->
  month_or_day_zero v = false.
Proof.
  intros H. unfold date_opening in H.
  repeat date_step @orelse_cases H.
  all: date_chars.
  all: match goal with |- ?g = false => destruct g eqn:Hz end;
    [|reflexivity].
  all: unfold month_or_day_zero, zero_pair, char_at in Hz;
    cbn [String.get] in Hz; date_nonzero class_nonzero Hz;
    vm_compute in Hz; discriminate Hz.
Qed.

(** What the lax pattern reads up to the day, the strict pattern reads when
    neither the month nor the day is [00]. *)
Lemma date_opening_strict (K : cont captures) (v : string) (res : captures) :
  month_or_day_zero v = false ->
  run captures (cat (date_opening "0")) (mkPos None v) [] K = Some res ->
  run captures (cat (date_opening "1")) (mkPos None v) [] K <> None.
Proof.
  intros Hz H. unfold date_opening in *.
  repeat date_step @orelse_cases H.
  all: date_chars.
  all: date_replay @orelse_some_l @orelse_some_r class_nonzero zero_digit Hz H.
Qed.

(** The strict pattern matches the dates the lax pattern matches whose month
    and day are not [00]. *)
Lemma strict_date_iff (x : string) :
  re_match strict_date_and_times_re x <> None
  <-> re_match lax_date_and_times_re x <> None /\ month_or_day_zero x = false.
Proof.
  split.
  - intros H. split; [now apply strict_date_is_lax|].
    destruct (re_match strict_date_and_times_re x) as [m|] eqn:E; [|congruence].
    unfold re_match, strict_date_and_times_re in E.
    rewrite date_re_split, date_prefix_split in E.
    eapply date_opening_nonzero. exact E.
  - intros [H Hz].
    destruct (re_match lax_date_and_times_re x) as [m|] eqn:E; [|congruence].
    unfold re_match, lax_date_and_times_re, strict_date_and_times_re in *.
    rewrite date_re_split, date_prefix_split in E.
    rewrite date_re_split, date_prefix_split.
    eapply date_opening_strict; [exact Hz|exact E].
Qed.

(** X16: what [allow_month_or_day_zero] adds is exactly the dates with a
    month or a day [00].  On a cell or an indexed item, under options that
    differ in nothing else, [is_valid_date_and_times] answers True without
    the option exactly when it answers True with it and neither the month
    nor the day of the item is [00]. *)
Theorem X16_month_or_day_zero_exact :
  forall (v : string) (lax lq allow : bool) (codes : list string)
    (idx : option Z),
    answer (is_valid_date_and_times idx
              (new v (mkOptions false lax lq allow codes))) = Some true
    <-> answer (is_valid_date_and_times idx
                  (new v (mkOptions true lax lq allow codes))) = Some true
        /\ exists x : string,
             answer (get_item idx (new v (mkOptions true lax lq allow codes)))
             = Some x
             /\ month_or_day_zero x = false.
Proof.
  intros v lax lq allow codes idx.
  rewrite !is_valid_date_and_times_spec by apply wf_new.
  rewrite !answer_guarded, get_item_answer by apply wf_new.
  unfold whole_list, item_of, items. cbn [value new options].
  destruct ((1 <? List.length (re_split split_list_re v)) && is_None idx);
    [split; [discriminate|intros [H _]; discriminate]|].
  destruct (match idx with
            | Some i => py_index (re_split split_list_re v) i
            | None => Some v
            end) as [x|];
    [|split; [discriminate|intros [H _]; discriminate]].
  cbn [option_map]. unfold item_valid_date_and_times.
  cbn [allow_month_or_day_zero]. split.
  - intros H. injection H as H.
    apply matched_iff, strict_date_iff in H. destruct H as [H Hz].
    split; [f_equal; apply matched_iff, H|].
    exists x. auto.
  - intros [H (y & Hy & Hz)]. injection H as H. injection Hy as <-.
    f_equal. apply matched_iff, strict_date_iff.
    split; [apply matched_iff, H|exact Hz].
Qed.
